(** * A shallow embedding of the AstrBot quiz plugin

    Sources embedded here:
    - [main.py]: [BindingStore], [QuizTask], the scheduler half of
      [SmartQuizPlugin] and [_execute_task_sync];
    - [auto_login.py]: [SanSanZhiAutoLogin] (credential negotiation);
    - [smart_quiz_api.py]: [QuizBot] (answer resolution, per-chapter run);
    - [api_client.py]: [APIClient.search_answer].

    Python values are byte strings ([string]), integers are [Z], dicts are
    [gmap]s or records, and every network exchange is an explicit entry of
    a call log threaded through the state. *)

From Stdlib Require Import ZArith QArith Lia Ascii String.
From stdpp Require Import base option list strings pretty gmap fin_maps.
From Stdlib Require Import Sorted.

Local Open Scope string_scope.
Local Open Scope Z_scope.

(** ** Python results: a value or a raised exception *)

Inductive exn : Type :=
  | InvalidToken
  | ValueError (msg : string)
  | OtherError (msg : string).

Inductive pyresult (A : Type) : Type :=
  | Ret (a : A)
  | Raise (e : exn).
Arguments Ret {A} a.
Arguments Raise {A} e.

Definition pybind {A B : Type} (r : pyresult A) (k : A -> pyresult B) : pyresult B :=
  match r with
  | Ret a => k a
  | Raise e => Raise e
  end.

(** ** main.py: BindingStore *)

Module BindingStore.

(** The [cryptography.fernet.Fernet] object held in [self._fernet] is
    library code: [fernet_encrypt] takes the entropy of the call (IV and
    timestamp) and the plaintext, [fernet_decrypt] returns [None] exactly
    when the library raises [InvalidToken]. *)
Record Fernet : Type := mkFernet {
  fernet_encrypt : string -> string -> string;
  fernet_decrypt : string -> option string
}.

(** [self._fernet] and [self._data]: the version tag and the ["bindings"]
    dict; every binding is itself a dict from field name to text. *)
Record store : Type := mkStore {
  _fernet : Fernet;
  version : Z;
  bindings : gmap string (gmap string string)
}.

Definition empty_store (f : Fernet) : store := mkStore f 1 ∅.

Definition set_bindings (st : store) (bs : gmap string (gmap string string)) : store :=
  mkStore (_fernet st) (version st) bs.

Definition _encrypt (st : store) (iv text : string) : string :=
  fernet_encrypt (_fernet st) iv text.

Definition _decrypt (st : store) (token : string) : pyresult string :=
  match fernet_decrypt (_fernet st) token with
  | Some text => Ret text
  | None => Raise InvalidToken
  end.

(** What one call of [bind] reads from outside: the entropy of
    [Fernet.encrypt] and the two readings of [_now_str()]. *)
Record bind_env : Type := mkBindEnv {
  iv : string;
  now_first : string;
  now_second : string
}.

Definition msg_bound_other : string := "你已绑定其他账号，按规则不可解绑或更换。".
Definition msg_password_updated : string := "已更新密码（账号未变更）。".
Definition msg_bound_ok : string := "绑定成功。此账号将永久绑定，无法解绑或更换。".

Definition bind (st : store) (env : bind_env) (qq_id username password : string)
  : store * (bool * string) :=
  match bindings st !! qq_id with
  | Some existing =>
      if decide (existing !! "username" = Some username) then
        let existing1 := <["password" := _encrypt st (iv env) password]> existing in
        let existing2 := <["updated_at" := now_first env]> existing1 in
        (set_bindings st (<[qq_id := existing2]> (bindings st)),
         (true, msg_password_updated))
      else (st, (false, msg_bound_other))
  | None =>
      let fresh : gmap string string :=
        <["updated_at" := now_second env]>
          (<["bound_at" := now_first env]>
            (<["password" := _encrypt st (iv env) password]>
              (<["username" := username]> ∅))) in
      (set_bindings st (<[qq_id := fresh]> (bindings st)),
       (true, msg_bound_ok))
  end.

(** The dict [get] hands to its callers. *)
Record credentials : Type := mkCredentials {
  cred_username : string;
  cred_password : string;
  cred_bound_at : string;
  cred_updated_at : string
}.

Definition dict_is_empty (d : gmap string string) : bool :=
  bool_decide (d = ∅).

Definition get (st : store) (qq_id : string) : pyresult (option credentials) :=
  match bindings st !! qq_id with
  | None => Ret None
  | Some data =>
      if dict_is_empty data then Ret None
      else
        match _decrypt st (default "" (data !! "password")) with
        | Ret password =>
            Ret (Some (mkCredentials (default "" (data !! "username"))
                                     password
                                     (default "" (data !! "bound_at"))
                                     (default "" (data !! "updated_at"))))
        | Raise InvalidToken => Ret None
        | Raise e => Raise e
        end
  end.

End BindingStore.

(** ** Python floats *)

(** A Python float is an IEEE 754 binary64 number. [round64 q] is the
    float nearest to the rational [q], ties going to the even
    significand: the value [float] gives for a decimal and the value [/]
    gives for two ints. The significand has 53 bits and the exponent does
    not go below -1074 (subnormal numbers); the numbers met here are far
    from the upper end of the range, which is left open. *)
Definition round_half_even (n d : Z) : Z :=
  let q := n / d in
  match (2 * (n mod d)) ?= d with
  | Lt => q
  | Gt => q + 1
  | Eq => if Z.even q then q else q + 1
  end.

(** The [k] with [2 ^ k <= n / d < 2 ^ (k + 1)], for positive [n] and [d]. *)
Definition binade (n d : Z) : Z :=
  let l := Z.log2 n - Z.log2 d in
  if 0 <=? l then (if d * 2 ^ l <=? n then l else l - 1)
  else (if d <=? n * 2 ^ (- l) then l else l - 1).

Definition round64_pos (n d : Z) : Q :=
  let e := Z.max (binade n d - 52) (-1074) in
  if 0 <=? e then Qmake (round_half_even n (d * 2 ^ e) * 2 ^ e) 1
  else Qmake (round_half_even (n * 2 ^ (- e)) d) (Z.to_pos (2 ^ (- e))).

Definition round64 (q : Q) : Q :=
  match Qnum q with
  | 0 => 0 # 1
  | Zpos n => round64_pos (Zpos n) (Zpos (Qden q))
  | Zneg n => Qopp (round64_pos (Zpos n) (Zpos (Qden q)))
  end.

(** ** Text helpers shared by the scrapers *)

(** [needle in hay] on Python strings. *)
Fixpoint contains (needle hay : string) : bool :=
  if String.prefix needle hay then true
  else match hay with
       | EmptyString => false
       | String _ rest => contains needle rest
       end.

(** [str.lower()], on the ASCII letters (the markers searched for in the
    lowered text are ASCII or contain no cased letter). *)
Definition lower_ascii (c : Ascii.ascii) : Ascii.ascii :=
  let n := Ascii.nat_of_ascii c in
  if ((65 <=? n)%nat && (n <=? 90)%nat)%bool then Ascii.ascii_of_nat (n + 32) else c.

Fixpoint lower (s : string) : string :=
  match s with
  | EmptyString => EmptyString
  | String c rest => String (lower_ascii c) (lower rest)
  end.

(** ** The calls a bot makes, and the platform that answers them *)

Inductive call : Type :=
  | GetMain
  | GetLoginPage
  | PostLogin (password_format : string) (key : option string)
  | Delay (min_seconds max_seconds : Z)
  | Sleep (seconds : Z)
  | GetCourses
  | GetChapters (course_id : Z)
  | GetResults (course_id : Z)
  | GetExam (exam_id : Z)
  | PostOracle (title : string)
  | PostSubmit (submit_url : string) (answer_data : list (string * string)).

(** What [get_csrf_token_and_key] sees of the login page: the status;
    the first group matched by its four patterns, if any (the group
    matches one or more characters, so it has a first one); and what the
    key it builds otherwise is made of: the reading of [int(time.time())]
    and the eight random characters. *)
Record login_page : Type := mkLoginPage {
  lp_status : Z;
  lp_found_key : option (Ascii.ascii * string);
  lp_timestamp : Z;
  lp_random : string
}.

(** [json.loads(response_text)] of a login reply. *)
Inductive login_json : Type :=
  | LJNotJson
  | LJNotDict
  | LJDict (code : option Z) (msg : option string) (url : option string).

Record login_response : Type := mkLoginResponse {
  lr_status : Z;
  lr_text : string;
  lr_json : login_json;
  lr_location : string
}.

Record course : Type := mkCourse { c_id : Z; c_name : string; c_href : string }.
Record chapter : Type := mkChapter { exam_id : Z; ch_name : string; ch_href : string }.

(** One [<ul class="list-unstyled question">] of an exam page: the title
    text, the options, and the [name] of its first radio/checkbox input
    ([None]: no such input). *)
Record question_ul : Type := mkQuestionUl {
  q_title : option string;
  q_options : list (string * string);
  q_input_name : option string
}.

(** An exam page: the status, the URL its form [post_form] submits to,
    which is [urljoin] of the base URL and the form's action ([None]: the
    page has no such form), and its questions. *)
Record exam_page : Type := mkExamPage {
  ep_status : Z;
  ep_form_action : option string;
  ep_questions : list question_ul
}.

(** The reply of the answer service. *)
Inductive oracle_data : Type :=
  | DataNotDict
  | DataDict (correctAnswer : option (option string)).

Record oracle_dict : Type := mkOracleDict {
  od_success : bool;
  od_data : option oracle_data;
  od_answer : option (option string);
  od_result : option (option string)
}.

Inductive oracle_body : Type :=
  | BodyNotJson
  | BodyNotDict
  | BodyDict (d : oracle_dict).

Inductive oracle_response : Type :=
  | OracleTimeout
  | OracleConnectionError
  | OracleOtherError
  | OracleHttp (status : Z) (body : oracle_body).

(** A completed-exam entry scraped from a course result page. *)
Record score_info : Type := mkScoreInfo {
  si_name : string;
  si_score : string;
  si_course_id : Z;
  si_course_name : string
}.

(** A course result page: status, final URL, and the (exam id, name,
    score) triples its links and table rows yield, in scanning order. *)
Record results_page : Type := mkResultsPage {
  rp_status : Z;
  rp_url : string;
  rp_entries : list (Z * string * string)
}.

(** The platform: every reply is a function of the calls made so far, the
    one being answered included; [None] (or [inl] with the exception text)
    stands for a raised exception. *)
Record platform : Type := mkPlatform {
  main_page : list call -> option string;
  login_page_of : list call -> option login_page;
  login_post : list call -> option login_response;
  courses_page : list call -> option (Z * list course);
  chapters_page : list call -> option (Z * list chapter);
  results_page_of : list call -> option results_page;
  exam_page_of : list call -> string + exam_page;
  oracle_post : list call -> oracle_response;
  submit_post : list call -> string + Z;
  cancel_is_set : list call -> bool
}.

(** One entry of the question bank file. *)
Record bank_question : Type := mkBankQuestion {
  bq_question_text : option string;
  bq_selected_answer : option string
}.

(** [QuizBot] with the fields of [SanSanZhiAutoLogin] it inherits, and the
    log of the calls made through [self.session] and [requests]. *)
Record bot : Type := mkBot {
  username : string;
  password : string;
  login_success_url : option string;
  question_bank : list (string * list bank_question);
  api_available : bool;
  api_error_count : nat;
  completed_chapters : list (Z * score_info);
  completed_chapters_loaded : bool;
  log : list call
}.

Definition new_bot (user pass : string) : bot :=
  mkBot user pass None [] true 0 [] false [].

Definition with_log (b : bot) (l : list call) : bot :=
  mkBot (username b) (password b) (login_success_url b) (question_bank b)
        (api_available b) (api_error_count b) (completed_chapters b)
        (completed_chapters_loaded b) l.

Definition emit (b : bot) (c : call) : bot := with_log b (log b ++ [c]).

(** [hashlib.X(s.encode()).hexdigest()] for the three digests used. *)
Record hashlib : Type := mkHashlib {
  md5 : string -> string;
  sha1 : string -> string;
  sha256 : string -> string
}.

(** ** auto_login.py: SanSanZhiAutoLogin *)

Module AutoLogin.

Section Hashlib.

Variable H : hashlib.

Definition get_csrf_token_and_key (P : platform) (b : bot) : bot * option string :=
  let b1 := emit b GetLoginPage in
  match login_page_of P (log b1) with
  | None => (b1, None)
  | Some page =>
      if negb (lp_status page =? 200) then (b1, None)
      else match lp_found_key page with
           | Some (c, rest) => (b1, Some (String c rest))
           | None => (b1, Some (pretty (lp_timestamp page) ++ "_" ++ lp_random page))
           end
  end.

(** [if key:] on an optional string. *)
Definition truthy (key : option string) : bool :=
  match key with
  | Some k => negb (String.eqb k "")
  | None => false
  end.

Definition generate_password_hash (password : string) (key : option string)
  : list string :=
  let candidates := [password; md5 H password; sha1 H password; sha256 H password] in
  match key with
  | Some k =>
      if truthy key then
        candidates ++ [md5 H (password ++ k); md5 H (k ++ password);
                       sha1 H (password ++ k); sha256 H (password ++ k)]
      else candidates
  | None => candidates
  end.

Definition human_like_delay (b : bot) (min_seconds max_seconds : Z) : bot :=
  emit b (Delay min_seconds max_seconds).

Definition success_indicators : list string :=
  ["成功"; "success"; "欢迎"; "dashboard"; "index"].
Definition failure_indicators : list string :=
  ["错误"; "error"; "失败"; "用户名"; "密码"; "验证码"].

Definition set_login_success_url (b : bot) (u : string) : bot :=
  mkBot (username b) (password b) (Some u) (question_bank b)
        (api_available b) (api_error_count b) (completed_chapters b)
        (completed_chapters_loaded b) (log b).

(** The part of [test_login_with_password_format] after the JSON branch:
    redirect, then success markers, then failure markers. *)
Definition classify_plain (b : bot) (r : login_response) : bot * bool :=
  if ((lr_status r =? 302) || (lr_status r =? 303))
     && negb (contains "login" (lower (lr_location r)))
  then (set_login_success_url b (lr_location r), true)
  else if existsb (fun i => contains i (lower (lr_text r))) success_indicators
  then (b, true)
  else if existsb (fun i => contains i (lr_text r)) failure_indicators
  then (b, false)
  else (b, false).

Definition test_login_with_password_format
    (P : platform) (b : bot) (password_format : string) (key : option string)
  : bot * bool :=
  let b1 := emit b (PostLogin password_format (if truthy key then key else None)) in
  match login_post P (log b1) with
  | None => (b1, false)
  | Some r =>
      match lr_json r with
      | LJNotJson => classify_plain b1 r
      | LJNotDict => (b1, false)
      | LJDict code msg url =>
          if bool_decide (code = Some 1) && contains "成功" (default "" msg)
          then (set_login_success_url b1 (default "/index/index/index.html" url), true)
          else if bool_decide (code = Some 0) then (b1, false)
          else classify_plain b1 r
      end
  end.

(** The [for i, password_format in enumerate(password_candidates)] loop. *)
Fixpoint try_candidates (P : platform) (key : option string) (b : bot)
    (candidates : list string) : bot * bool :=
  match candidates with
  | [] => (b, false)
  | password_format :: rest =>
      let '(b1, ok) := test_login_with_password_format P b password_format key in
      if ok then (b1, true)
      else
        let b2 := match rest with
                  | [] => b1
                  | _ :: _ => human_like_delay b1 2 4
                  end in
        try_candidates P key b2 rest
  end.

Definition analyze_network_request (P : platform) (b : bot) : bot * bool :=
  let '(b1, key) := get_csrf_token_and_key P b in
  let password_candidates := generate_password_hash (password b1) key in
  try_candidates P key b1 password_candidates.

Definition check_login_status (P : platform) (b : bot) : bot * bool :=
  let b1 := emit b GetMain in
  match main_page P (log b1) with
  | None => (b1, false)
  | Some text =>
      if contains "登录" text || contains "login" (lower text)
      then (b1, false) else (b1, true)
  end.

End Hashlib.

End AutoLogin.

(** ** smart_quiz_api.py: QuizBot *)

Module QuizBot.

Section Hashlib.

Variable H : hashlib.

Definition set_api (b : bot) (available : bool) (errors : nat) : bot :=
  mkBot (username b) (password b) (login_success_url b) (question_bank b)
        available errors (completed_chapters b)
        (completed_chapters_loaded b) (log b).

Definition set_completed (b : bot) (done : list (Z * score_info)) (loaded : bool) : bot :=
  mkBot (username b) (password b) (login_success_url b) (question_bank b)
        (api_available b) (api_error_count b) done loaded (log b).

Definition set_question_bank (b : bot) (bank : list (string * list bank_question)) : bot :=
  mkBot (username b) (password b) (login_success_url b) bank
        (api_available b) (api_error_count b) (completed_chapters b)
        (completed_chapters_loaded b) (log b).

(** [if answer:] on [None] or a string. *)
Definition answer_truthy (answer : option string) : bool :=
  match answer with
  | Some a => negb (String.eqb a "")
  | None => false
  end.

(** How the body of the [try] in [api_search] ends. *)
Inductive search_outcome : Type :=
  | Answered (answer : string)
  | Errored
  | NoAnswer.

Definition read_oracle_response (r : oracle_response) : search_outcome :=
  match r with
  | OracleHttp status body =>
      if status =? 200 then
        match body with
        | BodyNotJson => Errored
        | BodyNotDict => NoAnswer
        | BodyDict d =>
            if od_success d then
              match od_data d with
              | None => NoAnswer
              | Some DataNotDict => Errored
              | Some (DataDict correctAnswer) =>
                  match mjoin correctAnswer with
                  | Some a => if answer_truthy (Some a) then Answered a else NoAnswer
                  | None => NoAnswer
                  end
              end
            else NoAnswer
        end
      else Errored
  | OracleTimeout => Errored
  | OracleConnectionError => Errored
  | OracleOtherError => Errored
  end.

(** [options], [course_name] and [chapter] only travel in the payload. *)
Definition api_search (P : platform) (b : bot) (question_text : string)
  : bot * option string :=
  if negb (api_available b) then (b, None)
  else if (3 <=? api_error_count b)%nat then (b, None)
  else
    let b1 := emit b (PostOracle question_text) in
    match read_oracle_response (oracle_post P (log b1)) with
    | Answered answer => (set_api b1 (api_available b1) 0, Some answer)
    | outcome =>
        let b2 := match outcome with
                  | Errored => set_api b1 (api_available b1) (S (api_error_count b1))
                  | _ => b1
                  end in
        if (3 <=? api_error_count b2)%nat
        then (set_api b2 false (api_error_count b2), None)
        else (b2, None)
    end.

Fixpoint lookup_questions (questions : list bank_question) (question_text : string)
  : option string :=
  match questions with
  | [] => None
  | q :: rest =>
      if bool_decide (bq_question_text q = Some question_text)
         && answer_truthy (bq_selected_answer q)
      then bq_selected_answer q
      else lookup_questions rest question_text
  end.

Fixpoint lookup_bank (bank : list (string * list bank_question)) (question_text : string)
  : option string :=
  match bank with
  | [] => None
  | (_, questions) :: rest =>
      match lookup_questions questions question_text with
      | Some a => Some a
      | None => lookup_bank rest question_text
      end
  end.

Definition find_answer (P : platform) (b : bot) (question_text : string)
  : bot * option string :=
  match lookup_bank (question_bank b) question_text with
  | Some answer => (b, Some answer)
  | None => api_search P b question_text
  end.

Definition is_answer_in_local_bank (b : bot) (question_text : string) : bool :=
  existsb (fun chapter_data =>
             existsb (fun q => bool_decide (bq_question_text q = Some question_text))
                     chapter_data.2)
          (question_bank b).

(** [seen = set(); [c for c in xs if not (key(c) in seen or seen.add(key(c)))]]. *)
Fixpoint dedup_by {A : Type} (key : A -> Z) (seen : list Z) (xs : list A) : list A :=
  match xs with
  | [] => []
  | x :: rest =>
      if bool_decide (key x ∈ seen) then dedup_by key seen rest
      else x :: dedup_by key (key x :: seen) rest
  end.

Definition get_all_courses (P : platform) (b : bot) : bot * list course :=
  let b1 := emit b GetCourses in
  match courses_page P (log b1) with
  | None => (b1, [])
  | Some (status, found) =>
      if negb (status =? 200) then (b1, [])
      else (b1, dedup_by c_id [] found)
  end.

Definition get_chapters (P : platform) (b : bot) (course_id : Z) : bot * list chapter :=
  let b1 := emit b (GetChapters course_id) in
  match chapters_page P (log b1) with
  | None => (b1, [])
  | Some (status, found) =>
      if negb (status =? 200) then (b1, [])
      else (b1, dedup_by exam_id [] found)
  end.

Definition is_completed (done : list (Z * score_info)) (exam : Z) : bool :=
  existsb (fun e => e.1 =? exam) done.

Fixpoint add_entries (c : course) (entries : list (Z * string * string))
    (done : list (Z * score_info)) : list (Z * score_info) :=
  match entries with
  | [] => done
  | (exam, name, score) :: rest =>
      if is_completed done exam then add_entries c rest done
      else add_entries c rest
             (done ++ [(exam, mkScoreInfo name score (c_id c) (c_name c))])
  end.

(** [response.url.lower()]: the session is an [httpx.Client], so
    [response.url] is an [httpx.URL], which has no method [lower]; the
    call raises AttributeError whatever the URL is. *)
Definition url_lower (url : string) : pyresult string :=
  Raise (OtherError "'URL' object has no attribute 'lower'").

(** The [for course in courses] loop of [load_completed_chapters]. Its
    body is wrapped in [try ... except Exception: continue], so a course
    whose page raises is skipped. *)
Fixpoint scan_courses (P : platform) (b : bot) (courses : list course)
    (done : list (Z * score_info)) : bot * list (Z * score_info) :=
  match courses with
  | [] => (b, done)
  | c :: rest =>
      let b1 := emit b (GetResults (c_id c)) in
      match results_page_of P (log b1) with
      | None => scan_courses P b1 rest done
      | Some page =>
          if negb (rp_status page =? 200) then scan_courses P b1 rest done
          else match url_lower (rp_url page) with
               | Raise _ => scan_courses P b1 rest done
               | Ret url =>
                   if contains "login" url then scan_courses P b1 rest done
                   else scan_courses P b1 rest (add_entries c (rp_entries page) done)
               end
      end
  end.

Definition load_completed_chapters (P : platform) (b : bot) : bot :=
  let '(b1, logged_in) := AutoLogin.check_login_status P b in
  let '(b2, ok) := if logged_in then (b1, true)
                   else AutoLogin.analyze_network_request H P b1 in
  if negb ok then b2
  else
    let '(b3, courses) := get_all_courses P b2 in
    match courses with
    | [] => b3
    | _ :: _ =>
        let '(b4, done) := scan_courses P b3 courses [] in
        set_completed b4 done true
    end.

(** [d[k] = v] on a dict kept in insertion order. *)
Fixpoint dict_set (d : list (string * string)) (k v : string) : list (string * string) :=
  match d with
  | [] => [(k, v)]
  | (k', v') :: rest =>
      if String.eqb k' k then (k, v) :: rest else (k', v') :: dict_set rest k v
  end.

Record report : Type := mkReport {
  r_success : bool;
  r_status : string;
  r_message : string;
  r_total : nat;
  r_answered : nat;
  r_local : nat;
  r_api : nat;
  r_missing : nat;
  r_missing_samples : list string
}.

(** The locals of [auto_answer_with_report] while it walks the questions. *)
Record answering : Type := mkAnswering {
  a_bot : bot;
  answer_data : list (string * string);
  a_total : nat;
  a_answered : nat;
  local_count : nat;
  api_count : nat;
  failed_count : nat;
  missing_samples : list string
}.

(** [text[:n]]: the first [n] characters, a character being a byte that
    does not continue another one, with the bytes that continue it. *)
Definition is_continuation (c : Ascii.ascii) : bool :=
  let n := Ascii.nat_of_ascii c in
  (128 <=? n)%nat && (n <? 192)%nat.

Fixpoint take_chars (n : nat) (s : string) : string :=
  match s with
  | EmptyString => EmptyString
  | String c rest =>
      if is_continuation c then String c (take_chars n rest)
      else match n with
           | O => EmptyString
           | S m => String c (take_chars m rest)
           end
  end.

Definition answer_one (P : platform) (st : answering) (q_ul : question_ul) : answering :=
  match q_title q_ul with
  | None => st
  | Some question_text =>
      let '(b1, answer) := find_answer P (a_bot st) question_text in
      let total1 := S (a_total st) in
      if answer_truthy answer then
        match q_input_name q_ul with
        | Some input_name =>
            if negb (String.eqb input_name "") then
              let is_local := is_answer_in_local_bank b1 question_text in
              mkAnswering b1 (dict_set (answer_data st) input_name (default "" answer))
                          total1 (S (a_answered st))
                          (if is_local then S (local_count st) else local_count st)
                          (if is_local then api_count st else S (api_count st))
                          (failed_count st) (missing_samples st)
            else mkAnswering b1 (answer_data st) total1 (a_answered st)
                             (local_count st) (api_count st)
                             (failed_count st) (missing_samples st)
        | None => mkAnswering b1 (answer_data st) total1 (a_answered st)
                              (local_count st) (api_count st)
                              (failed_count st) (missing_samples st)
        end
      else
        mkAnswering b1 (answer_data st) total1 (a_answered st)
                    (local_count st) (api_count st) (S (failed_count st))
                    (if (length (missing_samples st) <? 5)%nat
                     then missing_samples st ++ [take_chars 60 question_text]
                     else missing_samples st)
  end.

(** The [for idx, q_ul in enumerate(question_uls)] loop. *)
Definition answer_questions (P : platform) (b : bot) (question_uls : list question_ul)
  : answering :=
  fold_left (answer_one P) question_uls (mkAnswering b [] 0 0 0 0 0 []).

Definition status_error : string := "error".
Definition status_insufficient : string := "insufficient_answers".
Definition status_prepared : string := "prepared".
Definition status_submitted : string := "submitted".

(** [answered_rate = answered / total] and
    [answered_rate < min_answer_rate], on floats as the code compares
    them: the quotient of the two counters is rounded to a float, and
    the configured rate has been turned into one by [float]. *)
Definition rate_below (answered total : nat) (min_answer_rate : Q) : bool :=
  negb (Qle_bool (round64 min_answer_rate)
          (round64 (Qmake (Z.of_nat answered) 1 / Qmake (Z.of_nat total) 1))).

(** [course_name] and [chapter_name] only travel in the Oracle payload. *)
Definition auto_answer_with_report (P : platform) (b : bot) (exam : Z)
    (submit strict : bool) (min_answer_rate : Q) : bot * report :=
  let b1 := emit b (GetExam exam) in
  match exam_page_of P (log b1) with
  | inl e => (b1, mkReport false status_error ("答题异常: " ++ e) 0 0 0 0 0 [])
  | inr page =>
      if negb (ep_status page =? 200) then
        (b1, mkReport false status_error
               ("访问失败: HTTP " ++ pretty (ep_status page)) 0 0 0 0 0 [])
      else
        match ep_form_action page with
        | None => (b1, mkReport false status_error "未找到答题表单" 0 0 0 0 0 [])
        | Some submit_url =>
            match ep_questions page with
            | [] => (b1, mkReport false status_error "未找到题目列表" 0 0 0 0 0 [])
            | question_uls =>
                let st := answer_questions P b1 question_uls in
                let b2 := a_bot st in
                let rep := fun success status message =>
                  mkReport success status message (a_total st) (a_answered st)
                           (local_count st) (api_count st) (failed_count st)
                           (missing_samples st) in
                if (a_total st =? 0)%nat then
                  (b2, rep false status_error "未解析到题目")
                else if strict && (0 <? failed_count st)%nat then
                  (b2, rep false status_insufficient "存在未找到答案的题目，已停止提交")
                else if rate_below (a_answered st) (a_total st) min_answer_rate then
                  (b2, rep false status_insufficient "答题覆盖率未达标，已停止提交")
                else if negb submit then
                  (b2, rep true status_prepared "已生成答案，未提交")
                else
                  match answer_data st with
                  | [] => (b2, rep false status_error "未生成任何答案")
                  | _ :: _ =>
                      let b3 := emit b2 (PostSubmit submit_url (answer_data st)) in
                      match submit_post P (log b3) with
                      | inl e => (b3, rep false status_error ("答题异常: " ++ e))
                      | inr code =>
                          if code =? 200 then
                            (set_completed b3 (completed_chapters b3) false,
                             rep true status_submitted "提交成功")
                          else
                            (b3, rep false status_error
                                   ("提交失败: HTTP " ++ pretty code))
                      end
                  end
            end
        end
  end.

End Hashlib.

End QuizBot.

(** ** api_client.py: APIClient *)

Module APIClient.

Record client : Type := mkClient {
  api_key : string;
  timeout : Z;
  retry_count : nat;
  request_count : nat;
  success_count : nat;
  clog : list call
}.

Definition new_client (key : string) : client := mkClient key 20 3 0 0 [].

Definition cemit (c : client) (e : call) : client :=
  mkClient (api_key c) (timeout c) (retry_count c) (request_count c)
           (success_count c) (clog c ++ [e]).

Definition count_request (c : client) : client :=
  mkClient (api_key c) (timeout c) (retry_count c) (S (request_count c))
           (success_count c) (clog c).

Definition count_success (c : client) : client :=
  mkClient (api_key c) (timeout c) (retry_count c) (request_count c)
           (S (success_count c)) (clog c).

(** The three accepted shapes of a 200 reply, tried in order; the outer
    [option] says whether a shape matched. *)
Definition recognised_answer (d : oracle_dict) : option (option string) :=
  match (if od_success d then od_data d else None) with
  | Some (DataDict (Some answer)) => Some answer
  | _ =>
      match od_answer d with
      | Some answer => Some answer
      | None => od_result d
      end
  end.

(** [for attempt in range(self.retry_count)], by the attempts left;
    [attempt < self.retry_count - 1] holds when more than one is left. *)
Fixpoint search_loop (P : platform) (c : client) (question_text : string)
    (remaining : nat) : client * option string :=
  match remaining with
  | O => (c, None)
  | S rest =>
      let retry := fun (c' : client) (pause : Z) (last : option string) =>
        match rest with
        | O => (c', last)
        | S _ => search_loop P (cemit c' (Sleep pause)) question_text rest
        end in
      let c1 := cemit c (PostOracle question_text) in
      match oracle_post P (clog c1) with
      | OracleTimeout => retry c1 1 None
      | OracleConnectionError => retry c1 1 None
      | OracleOtherError => retry c1 1 None
      | OracleHttp status body =>
          let c2 := count_request c1 in
          if status =? 200 then
            match body with
            | BodyNotJson => retry c2 1 None
            | BodyNotDict => (c2, None)
            | BodyDict d =>
                match recognised_answer d with
                | Some answer => (count_success c2, answer)
                | None => (c2, None)
                end
            end
          else if status =? 404 then retry c2 2 (Some "NOT_FOUND")
          else if status =? 401 then (c2, Some "UNAUTHORIZED")
          else if status =? 500 then retry c2 2 None
          else retry c2 1 None
      end
  end.

Definition search_answer (P : platform) (c : client) (question_text : string)
  : client * option string :=
  search_loop P c question_text (retry_count c).

End APIClient.

(** ** main.py: SmartQuizPlugin *)

Module Plugin.

(** The keys of [self.config] read by the scheduler and the pipeline,
    after their [int(...)] and [bool(...)] conversions. [min_answer_rate]
    is the number the configuration gives; [float(...)] rounds it where
    it is compared ([QuizBot.rate_below]). *)
Record config : Type := mkConfig {
  max_concurrency : Z;
  strict_mode : bool;
  auto_submit : bool;
  min_answer_rate : Q
}.

Definition default_config : config := mkConfig 3 false true (0 # 1).

Definition _max_concurrency (cfg : config) : Z :=
  let value := max_concurrency cfg in
  let value := if value <? 1 then 1 else value in
  let value := if 3 <? value then 3 else value in
  value.

(** *** Argument parsing *)

(** A Python [str] is kept as the bytes of its UTF-8 encoding. The
    methods below are those of [str] on ASCII text, where a character is
    a byte; on other text the builtins also know the digits and the white
    space of Unicode, which these definitions do not: the properties that
    speak of arbitrary text are stated for ASCII text. *)
Definition is_ascii (s : string) : bool :=
  forallb (fun c => (Ascii.nat_of_ascii c <? 128)%nat) (String.list_ascii_of_string s).

(** The ASCII characters [str.isspace] accepts: tab to carriage return,
    the four separators 28 to 31, and the space. *)
Definition is_space (c : Ascii.ascii) : bool :=
  let n := Ascii.nat_of_ascii c in
  ((9 <=? n)%nat && (n <=? 13)%nat) || ((28 <=? n)%nat && (n <=? 32)%nat).

Definition is_digit (c : Ascii.ascii) : bool :=
  let n := Ascii.nat_of_ascii c in
  (48 <=? n)%nat && (n <=? 57)%nat.

Fixpoint lstrip (s : string) : string :=
  match s with
  | String c rest => if is_space c then lstrip rest else s
  | EmptyString => EmptyString
  end.

Fixpoint rstrip (s : string) : string :=
  match s with
  | EmptyString => EmptyString
  | String c rest =>
      match rstrip rest with
      | EmptyString => if is_space c then EmptyString else String c EmptyString
      | kept => String c kept
      end
  end.

(** [str.strip()]. *)
Definition strip (s : string) : string := rstrip (lstrip s).

(** [str.isdigit()]. *)
Definition isdigit (s : string) : bool :=
  match s with
  | EmptyString => false
  | _ => forallb is_digit (String.list_ascii_of_string s)
  end.

Definition digits_value (s : string) : Z :=
  fold_left (fun acc c => 10 * acc + (Z.of_nat (Ascii.nat_of_ascii c) - 48))
            (String.list_ascii_of_string s) 0.

(** The white space [int] skips around a number: tab to carriage return
    and the space, not the separators 28 to 31. *)
Definition int_space (c : Ascii.ascii) : bool :=
  let n := Ascii.nat_of_ascii c in
  ((9 <=? n)%nat && (n <=? 13)%nat) || (n =? 32)%nat.

Fixpoint int_lstrip (s : string) : string :=
  match s with
  | String c rest => if int_space c then int_lstrip rest else s
  | EmptyString => EmptyString
  end.

Fixpoint int_rstrip (s : string) : string :=
  match s with
  | EmptyString => EmptyString
  | String c rest =>
      match int_rstrip rest with
      | EmptyString => if int_space c then EmptyString else String c EmptyString
      | kept => String c kept
      end
  end.

(** The digits of a number written with single underscores between
    digits, as [int] accepts them: [None] when the text is not of that
    form. *)
Fixpoint int_digits (s : string) : option string :=
  match s with
  | EmptyString => None
  | String c rest =>
      if is_digit c then
        match rest with
        | EmptyString => Some (String c EmptyString)
        | String "_"%char rest' => String c <$> int_digits rest'
        | String _ _ => String c <$> int_digits rest
        end
      else None
  end.

Definition double_quote : Ascii.ascii := Ascii.ascii_of_nat 34.

Definition hex_digit (n : nat) : Ascii.ascii :=
  if (n <? 10)%nat then Ascii.ascii_of_nat (48 + n) else Ascii.ascii_of_nat (87 + n).

Definition repr_char (quote c : Ascii.ascii) : string :=
  let n := Ascii.nat_of_ascii c in
  if Ascii.eqb c quote || Ascii.eqb c "\"%char then String "\"%char (String c EmptyString)
  else if (n =? 9)%nat then "\t"
  else if (n =? 10)%nat then "\n"
  else if (n =? 13)%nat then "\r"
  else if (n <? 32)%nat || (n =? 127)%nat then
    String "\"%char (String "x"%char
      (String (hex_digit (n / 16)) (String (hex_digit (n mod 16)) EmptyString)))
  else String c EmptyString.

(** [repr(s)], as it shows in the message of [int]: quoted with the
    apostrophe, or with the double quote when the text holds an
    apostrophe and no double quote; the quote, the backslash and the
    ASCII control characters escaped, every other byte kept. *)
Definition py_repr (s : string) : string :=
  let chars := String.list_ascii_of_string s in
  let quote :=
    if existsb (Ascii.eqb "'"%char) chars && negb (existsb (Ascii.eqb double_quote) chars)
    then double_quote else "'"%char in
  String quote (String.concat "" (repr_char quote <$> chars) ++ String quote EmptyString).

(** [int(s)] on decimal text: white space around, one optional sign, and
    digits with single underscores between them; anything else is the
    [ValueError] of the builtin. The limit some interpreters put on the
    number of digits (4300 unless configured otherwise) is left out. *)
Definition py_int (s : string) : pyresult Z :=
  let bad := Raise (ValueError ("invalid literal for int() with base 10: " ++ py_repr s)) in
  let number (negative : bool) (body : string) :=
    match int_digits body with
    | Some digits => Ret (if negative then - digits_value digits else digits_value digits)
    | None => bad
    end in
  match int_rstrip (int_lstrip s) with
  | String "+"%char body => number false body
  | String "-"%char body => number true body
  | body => number false body
  end.

(** [text.split(sep)] for a one-character separator. *)
Fixpoint split_on (sep : Ascii.ascii) (s : string) : list string :=
  match s with
  | EmptyString => [EmptyString]
  | String c rest =>
      if Ascii.eqb c sep then EmptyString :: split_on sep rest
      else match split_on sep rest with
           | [] => [String c EmptyString]
           | piece :: pieces => String c piece :: pieces
           end
  end.

Definition join_spaces (parts : list string) : string :=
  String.concat " " parts.

(** [sorted(set(result))] built by ordered insertion. *)
Fixpoint insert_sorted (n : Z) (l : list Z) : list Z :=
  match l with
  | [] => [n]
  | m :: rest =>
      if n <? m then n :: l
      else if n =? m then l
      else m :: insert_sorted n rest
  end.

Definition _parse_index_list (text : string) : list Z :=
  fold_left (fun result item =>
               let item := strip item in
               if isdigit item then insert_sorted (digits_value item) result
               else result)
            (split_on ","%char text) [].

Definition _parse_range (text : string) : pyresult (Z * Z) :=
  match split_on "-"%char text with
  | [first; second] =>
      pybind (py_int first) (fun start =>
      pybind (py_int second) (fun end_ =>
      if (start <=? 0) || (end_ <=? 0) || (end_ <? start)
      then Raise (ValueError "范围参数错误")
      else Ret (start, end_)))
  | _ => Raise (ValueError "范围格式错误，应为 1-5")
  end.

Definition mode_all : string := "全部".
Definition mode_incomplete : string := "未完成".
Definition mode_explicit : string := "指定".
Definition mode_range : string := "范围".

Definition str_in (x : string) (l : list string) : bool :=
  existsb (String.eqb x) l.

Definition _parse_mode (args : list string) : string * string :=
  match args with
  | [] => (mode_incomplete, "")
  | mode :: rest =>
      let spec := strip (join_spaces rest) in
      if str_in mode ["全部"; "所有"; "全"] then (mode_all, spec)
      else if str_in mode ["未完成"; "未答"; "未做"] then (mode_incomplete, spec)
      else if str_in mode ["指定"; "选择"; "选"] then (mode_explicit, spec)
      else if str_in mode ["范围"; "区间"] then (mode_range, spec)
      else if contains "," mode then (mode_explicit, mode)
      else if contains "-" mode then (mode_range, mode)
      else (mode_incomplete, strip (join_spaces args))
  end.

Definition _is_mode_token (token : string) : bool :=
  str_in token ["全部"; "所有"; "全"; "未完成"; "未答"; "未做";
                "指定"; "选择"; "选"; "范围"; "区间"]
  || contains "," token || contains "-" token.

(** *** Tasks *)

Inductive task_status : Type :=
  | queued | running | canceling | completed | failed | canceled.

#[global] Instance task_status_eq_dec : EqDecision task_status.
Proof. solve_decision. Defined.

Record summary : Type := mkSummary {
  s_success : nat;
  s_failed : nat;
  s_total : nat;
  s_skipped : nat;
  s_invalid : nat;
  s_submit_failed : nat;
  s_stopped : option string
}.

(** The dict [_execute_task_sync] returns. *)
Record result : Type := mkResult {
  res_success : bool;
  res_summary : option summary;
  res_error : option string;
  res_canceled : bool
}.

(** Times are the readings of [time.time()], kept as integers: only their
    order matters here. *)
Record QuizTask : Type := mkTask {
  task_id : string;
  qq_id : string;
  sender_name : string;
  umo : string;
  course_id : option Z;
  course_name : option string;
  mode : string;
  spec : string;
  status : task_status;
  created_at : Z;
  started_at : option Z;
  finished_at : option Z;
  cancel_event : bool;
  task_summary : option summary;
  error : option string
}.

(** *** The pipeline: [_execute_task_sync] *)

Definition set_course_name (t : QuizTask) (name : string) : QuizTask :=
  mkTask (task_id t) (qq_id t) (sender_name t) (umo t) (course_id t) (Some name)
         (mode t) (spec t) (status t) (created_at t) (started_at t)
         (finished_at t) (cancel_event t) (task_summary t) (error t).

(** The counters of the chapter loop. *)
Record tally : Type := mkTally {
  success_count : nat;
  fail_count : nat;
  skipped_count : nat;
  submit_failed : nat;
  invalid_count : nat;
  failure_examples : list string;
  stopped_reason : option string;
  was_canceled : bool
}.

Definition empty_tally : tally := mkTally 0 0 0 0 0 [] None false.

(** The loop body after [auto_answer_with_report] has returned; the flag
    says whether the loop breaks. A report carries neither an ["invalid"]
    statistic nor an ["http_status"], so those two counters stay put. *)
Definition record_report (cfg : config) (t : tally) (ch : chapter)
    (rep : QuizBot.report) : tally * bool :=
  let skipped := (skipped_count t + QuizBot.r_missing rep)%nat in
  if QuizBot.r_success rep then
    (mkTally (S (success_count t)) (fail_count t) skipped (submit_failed t)
             (invalid_count t) (failure_examples t) (stopped_reason t)
             (was_canceled t), false)
  else
    let examples :=
      if negb (String.eqb (QuizBot.r_message rep) "")
         && (length (failure_examples t) <? 3)%nat
      then (failure_examples t ++ [(ch_name ch ++ ": " ++ QuizBot.r_message rep)%string])%list
      else failure_examples t in
    if String.eqb (QuizBot.r_status rep) QuizBot.status_insufficient then
      (mkTally (success_count t) (S (fail_count t)) skipped (submit_failed t)
               (invalid_count t) examples (Some (QuizBot.r_message rep))
               (was_canceled t), strict_mode cfg)
    else
      (mkTally (success_count t) (S (fail_count t)) skipped (submit_failed t)
               (invalid_count t) examples (stopped_reason t)
               (was_canceled t), false).

(** [for ch in chapters]: the cancellation flag is the shared
    [task.cancel_event], read here through the platform. *)
Fixpoint run_chapters (cfg : config) (P : platform) (b : bot)
    (t : tally) (chapters : list chapter) : bot * tally :=
  match chapters with
  | [] => (b, t)
  | ch :: rest =>
      if cancel_is_set P (log b) then
        (b, mkTally (success_count t) (fail_count t) (skipped_count t)
                    (submit_failed t) (invalid_count t) (failure_examples t)
                    (Some "任务已取消") true)
      else
        let '(b1, rep) :=
          QuizBot.auto_answer_with_report P b (exam_id ch)
            (auto_submit cfg) (strict_mode cfg) (min_answer_rate cfg) in
        let '(t1, stop) := record_report cfg t ch rep in
        if stop then (b1, t1) else run_chapters cfg P b1 t1 rest
  end.

Definition reason_truthy (r : option string) : bool :=
  match r with
  | Some text => negb (String.eqb text "")
  | None => false
  end.

Definition finish (t : tally) : result :=
  let stopped :=
    if negb (reason_truthy (stopped_reason t)) && (0 <? fail_count t)%nat then
      match failure_examples t with
      | [] => Some ("有 " ++ pretty (fail_count t) ++ " 个章节失败")
      | examples => Some ("章节失败：" ++ String.concat "；" examples)
      end
    else stopped_reason t in
  mkResult ((fail_count t =? 0)%nat && negb (reason_truthy stopped))
           (Some (mkSummary (success_count t) (fail_count t)
                            (success_count t + fail_count t) (skipped_count t)
                            (invalid_count t) (submit_failed t) stopped))
           stopped (was_canceled t).

Definition fail_with (msg : string) : result := mkResult false None (Some msg) false.

(** The chapter selection, once the chapter list has been fetched:
    [inl] is the early [return] of the unknown-mode branch. *)
Definition select_chapters (H : hashlib) (P : platform) (b : bot) (task : QuizTask)
    (chapters : list chapter) : bot * pyresult (result + list chapter) :=
  if String.eqb (mode task) mode_incomplete then
    let b1 := QuizBot.load_completed_chapters H P b in
    (b1, Ret (inr (List.filter
                     (fun ch => negb (QuizBot.is_completed (completed_chapters b1)
                                                           (exam_id ch)))
                     chapters)))
  else if String.eqb (mode task) mode_explicit then
    (b, Ret (inr (omap (fun i => if (0 <? i) && (i <=? Z.of_nat (length chapters))
                                 then chapters !! Z.to_nat (i - 1) else None)
                       (_parse_index_list (spec task)))))
  else if String.eqb (mode task) mode_range then
    (b, pybind (_parse_range (spec task)) (fun '(start, end_) =>
          Ret (inr (drop (Z.to_nat (start - 1)) (take (Z.to_nat end_) chapters)))))
  else if String.eqb (mode task) mode_all then (b, Ret (inr chapters))
  else (b, Ret (inl (fail_with "未知模式"))).

(** [bank] is what [load_question_bank] reads from the bank file. The
    result comes with the calls made and the task as the run left it. *)
Definition _execute_task_sync (cfg : config) (H : hashlib) (P : platform)
    (bank : list (string * list bank_question)) (bindings : BindingStore.store)
    (task : QuizTask) : list call * QuizTask * pyresult result :=
  match BindingStore.get bindings (qq_id task) with
  | Raise e => ([], task, Raise e)
  | Ret None => ([], task, Ret (fail_with "未找到绑定账号"))
  | Ret (Some binding) =>
      let b0 := new_bot (BindingStore.cred_username binding)
                        (BindingStore.cred_password binding) in
      let '(b1, logged_in) := AutoLogin.check_login_status P b0 in
      let '(b2, ok) := if logged_in then (b1, true)
                       else AutoLogin.analyze_network_request H P b1 in
      if negb ok then (log b2, task, Ret (fail_with "登录失败"))
      else
        let b3 := QuizBot.set_question_bank b2 bank in
        let '(b4, courses) := QuizBot.get_all_courses P b3 in
        match course_id task,
              List.find (fun c => bool_decide (Some (c_id c) = course_id task)) courses with
        | Some cid, Some c =>
            let task1 := set_course_name task (c_name c) in
            let '(b5, chapters) := QuizBot.get_chapters P b4 cid in
            match chapters with
            | [] => (log b5, task1, Ret (fail_with "未获取到章节"))
            | _ :: _ =>
                match select_chapters H P b5 task1 chapters with
                | (b6, Raise e) => (log b6, task1, Raise e)
                | (b6, Ret (inl early)) => (log b6, task1, Ret early)
                | (b6, Ret (inr [])) => (log b6, task1, Ret (fail_with "未选中章节"))
                | (b6, Ret (inr selected)) =>
                    let '(b7, t) := run_chapters cfg P b6 empty_tally selected in
                    (log b7, task1, Ret (finish t))
                end
            end
        | _, _ => (log b4, task, Ret (fail_with "课程不存在或已变更"))
        end
  end.

(** *** The scheduler

    Task objects live in [heap] (a reference is a position in it); the
    index [_tasks], the queue and the workers' local [task] variables all
    hold references to the same objects. [now] is the reading
    [time.time()] gives; it never goes backwards. Each handler below is
    one uninterrupted stretch of the event loop.

    [workers] has one slot per coroutine [_ensure_workers] creates: the
    local [task] variable of [_worker_loop] from the moment [_run_task]
    starts the job until it has closed it. [ended] lists the workers
    whose coroutine is over: [_run_task] sends a notification when it
    starts a job and another when it has closed it, and when
    [_send_text] fails twice the exception leaves [_worker_loop];
    [_ensure_workers] never creates a worker again. *)

Record plugin : Type := mkPlugin {
  cfg : config;
  heap : list QuizTask;
  _tasks : gmap string nat;
  _queue : list nat;
  workers : list (option nat);
  now : Z;
  ended : list nat
}.

Definition init (c : config) (t0 : Z) : plugin :=
  mkPlugin c [] ∅ [] (replicate (Z.to_nat (_max_concurrency c)) None) t0 [].

Definition set_heap (s : plugin) (h : list QuizTask) : plugin :=
  mkPlugin (cfg s) h (_tasks s) (_queue s) (workers s) (now s) (ended s).

Definition set_status (t : QuizTask) (st : task_status) : QuizTask :=
  mkTask (task_id t) (qq_id t) (sender_name t) (umo t) (course_id t) (course_name t)
         (mode t) (spec t) st (created_at t) (started_at t)
         (finished_at t) (cancel_event t) (task_summary t) (error t).

Definition set_started_at (t : QuizTask) (time : Z) : QuizTask :=
  mkTask (task_id t) (qq_id t) (sender_name t) (umo t) (course_id t) (course_name t)
         (mode t) (spec t) (status t) (created_at t) (Some time)
         (finished_at t) (cancel_event t) (task_summary t) (error t).

Definition set_finished_at (t : QuizTask) (time : Z) : QuizTask :=
  mkTask (task_id t) (qq_id t) (sender_name t) (umo t) (course_id t) (course_name t)
         (mode t) (spec t) (status t) (created_at t) (started_at t)
         (Some time) (cancel_event t) (task_summary t) (error t).

Definition set_cancel_event (t : QuizTask) : QuizTask :=
  mkTask (task_id t) (qq_id t) (sender_name t) (umo t) (course_id t) (course_name t)
         (mode t) (spec t) (status t) (created_at t) (started_at t)
         (finished_at t) true (task_summary t) (error t).

Definition set_outcome (t : QuizTask) (sm : option summary) (err : option string)
  : QuizTask :=
  mkTask (task_id t) (qq_id t) (sender_name t) (umo t) (course_id t) (course_name t)
         (mode t) (spec t) (status t) (created_at t) (started_at t)
         (finished_at t) (cancel_event t) sm err.

Definition set_error (t : QuizTask) (err : option string) : QuizTask :=
  set_outcome t (task_summary t) err.

Definition is_active (t : QuizTask) : bool :=
  bool_decide (status t = queued) || bool_decide (status t = running).

Definition is_finished (t : QuizTask) : bool :=
  bool_decide (status t = completed) || bool_decide (status t = failed)
  || bool_decide (status t = canceled).

(** [self._tasks.values()], as the objects the index refers to. *)
Definition task_values (s : plugin) : list QuizTask :=
  omap (fun entry => heap s !! entry.2) (map_to_list (_tasks s)).

Definition _has_active_task (s : plugin) (qq : string) : bool :=
  existsb (fun task => String.eqb (qq_id task) qq && is_active task) (task_values s).

(** What [_handle_start] reads outside the scheduler: the event, the
    binding, the cached chapter list of the sender, what [_resolve_course]
    gives for the course token, and the identifier [uuid4] hands out. *)
Record start_event : Type := mkStartEvent {
  sender_id : string;
  sender : string;
  unified_msg_origin : string;
  args : list string;
  binding : option BindingStore.credentials;
  group_allowed : bool;
  chapter_cache : option (option Z * option string);
  resolved : string + (Z * string);
  uuid : string
}.

Definition nl : string := String (Ascii.ascii_of_nat 10) "".

Definition msg_unbound : string :=
  "你还没有绑定账号，请先私信 /答题 绑定 <用户名> <密码>".
Definition msg_group : string :=
  "请私信使用此命令，或由管理员在插件配置 allow_group_ids 中添加当前群号。".
Definition msg_start_usage : string :=
  "用法：/答题 开始 <课程序号或课程ID> <模式> [参数]，或 /答题 开始 <模式> [参数]".
Definition msg_need_chapters : string :=
  "请先使用 /答题 章节 <课程序号或课程ID> 获取章节列表".
Definition msg_need_spec : string :=
  "请提供章节参数，例如：/答题 开始 1 指定 1,3,5 或 /答题 开始 1 范围 1-5".
Definition msg_active : string :=
  "你已有进行中的任务，请等待完成或使用 /答题 状态 查看。".

Definition name_truthy (n : option string) : option string :=
  match n with
  | Some text => if String.eqb text "" then None else Some text
  | None => None
  end.

Definition msg_queued (task : QuizTask) (position : nat) : string :=
  "任务已加入队列，ID: " ++ task_id task ++ "，当前排队位置: " ++ pretty position ++ nl
  ++ "课程：" ++ default "" (course_name task) ++ " | 模式：" ++ mode task ++ " "
  ++ spec task ++ nl
  ++ "注意：默认跳过未识别题目并继续答题。".

(** [self._tasks[task_id] = task; await self._queue.put(task)]. *)
Definition enqueue (s : plugin) (task : QuizTask) : plugin :=
  let ref := length (heap s) in
  mkPlugin (cfg s) (heap s ++ [task]) (<[task_id task := ref]> (_tasks s))
           (_queue s ++ [ref]) (workers s) (now s) (ended s).

(** The course and the mode a start command names: [inl] is the reply of
    an early [return]. *)
Definition start_target (ev : start_event)
  : string + (option Z * string * (string * string)) :=
  match args ev with
  | [] => inl msg_start_usage
  | course_token :: rest =>
      if negb (isdigit course_token) && _is_mode_token course_token then
        match chapter_cache ev with
        | None => inl msg_need_chapters
        | Some (cid, cname) =>
            inr (cid, default "已选课程" (name_truthy cname), _parse_mode (args ev))
        end
      else
        match resolved ev with
        | inl e => inl ("课程解析失败：" ++ e)
        | inr (cid, cname) => inr (Some cid, cname, _parse_mode rest)
        end
  end.

Definition _handle_start (s : plugin) (ev : start_event) : plugin * string :=
  match binding ev with
  | None => (s, msg_unbound)
  | Some _ =>
      if negb (group_allowed ev) then (s, msg_group)
      else
        match start_target ev with
        | inl reply => (s, reply)
        | inr (cid, cname, (mode_, spec_)) =>
            if str_in mode_ [mode_explicit; mode_range] && String.eqb spec_ ""
            then (s, msg_need_spec)
            else if _has_active_task s (sender_id ev) then (s, msg_active)
            else
              let task := mkTask (uuid ev) (sender_id ev) (sender ev)
                                 (unified_msg_origin ev) cid (Some cname) mode_ spec_
                                 queued (now s) None None false None None in
              let s1 := enqueue s task in
              (s1, msg_queued task (length (_queue s1)))
        end
  end.

(** The shared body of [_handle_cancel] and [_admin_cancel], once the
    task object has been found and is not finished. *)
Definition request_cancel (s : plugin) (ref : nat) (task : QuizTask) : plugin * string :=
  let task1 := set_cancel_event task in
  if bool_decide (status task1 = queued) then
    (set_heap s (<[ref := set_finished_at (set_status task1 canceled) (now s)]> (heap s)),
     "已取消排队中的任务。")
  else
    (set_heap s (<[ref := set_status task1 canceling]> (heap s)),
     "已提交取消请求，任务将尽快停止。").

Definition lookup_task (s : plugin) (tid : string) : option (nat * QuizTask) :=
  match _tasks s !! tid with
  | Some ref => match heap s !! ref with
                | Some task => Some (ref, task)
                | None => None
                end
  | None => None
  end.

Definition _handle_cancel (s : plugin) (sender_id_ : string) (args_ : list string)
  : plugin * string :=
  match args_ with
  | [] => (s, "用法：/答题 取消 <任务ID>")
  | tid :: _ =>
      match lookup_task s tid with
      | None => (s, "未找到你的任务。")
      | Some (ref, task) =>
          if negb (String.eqb (qq_id task) sender_id_) then (s, "未找到你的任务。")
          else if is_finished task then (s, "该任务已结束，无法取消。")
          else request_cancel s ref task
      end
  end.

Definition _admin_cancel (s : plugin) (args_ : list string) : plugin * string :=
  match args_ with
  | [] => (s, "用法：/答题管理 取消 <任务ID>")
  | tid :: _ =>
      match lookup_task s tid with
      | None => (s, "未找到任务。")
      | Some (ref, task) =>
          if is_finished task then (s, "该任务已结束。")
          else request_cancel s ref task
      end
  end.

(** [task.finished_at and (now - task.finished_at) > expire_seconds]. *)
Definition is_stale (s : plugin) (ref : nat) : bool :=
  match heap s !! ref with
  | Some task =>
      match finished_at task with
      | Some f => negb (f =? 0) && (24 * 3600 <? now s - f)
      | None => false
      end
  | None => false
  end.

Definition _cleanup_tasks (s : plugin) : plugin :=
  mkPlugin (cfg s) (heap s)
           (filter (fun entry => is_stale s entry.2 = false) (_tasks s))
           (_queue s) (workers s) (now s) (ended s).

(** One turn of [_worker_loop] for worker [idx], up to the point where
    [_run_task] sends the notification that the job starts: the head of
    the queue is taken; a task whose cancel event is set is closed on
    the spot, any other starts running. A worker that holds a task, or
    an empty queue, leaves the state as it is. The notification is sent
    after the status and the start time are written; when it fails, the
    worker ends ([worker_ends]) with the job in its slot. *)
Definition worker_take (s : plugin) (idx : nat) : plugin :=
  match workers s !! idx, _queue s with
  | Some None, ref :: rest =>
      match heap s !! ref with
      | Some task =>
          if cancel_event task then
            mkPlugin (cfg s)
                     (<[ref := set_finished_at (set_status task canceled) (now s)]> (heap s))
                     (_tasks s) rest (workers s) (now s) (ended s)
          else
            mkPlugin (cfg s)
                     (<[ref := set_started_at (set_status task running) (now s)]> (heap s))
                     (_tasks s) rest (<[idx := Some ref]> (workers s)) (now s) (ended s)
      | None => s
      end
  | _, _ => s
  end.

(** The rest of [_run_task] for worker [idx], up to the point where it
    sends the notification of the result, given what
    [_execute_task_sync] produced: the course name it may have stored in
    the task, and its result or the exception it raised. The
    notification is sent after the status and the finish time are
    written; when it fails, the worker ends ([worker_ends]) with an
    empty slot. *)
Definition worker_finish (s : plugin) (idx : nat) (stored_name : option string)
    (outcome : pyresult result) : plugin :=
  match workers s !! idx with
  | Some (Some ref) =>
      match heap s !! ref with
      | Some task =>
          let task0 := match stored_name with
                       | Some n => set_course_name task n
                       | None => task
                       end in
          let task1 :=
            match outcome with
            | Ret res =>
                set_status (set_outcome task0 (res_summary res) (res_error res))
                  (if res_canceled res then canceled
                   else if res_success res then completed else failed)
            | Raise e =>
                set_error (set_status task0 failed)
                  (Some match e with
                        | InvalidToken => ""
                        | ValueError msg => msg
                        | OtherError msg => msg
                        end)
            end in
          mkPlugin (cfg s) (<[ref := set_finished_at task1 (now s)]> (heap s))
                   (_tasks s) (_queue s) (<[idx := None]> (workers s)) (now s) (ended s)
      | None => s
      end
  | _ => s
  end.

Definition tick (s : plugin) (elapsed : N) : plugin :=
  mkPlugin (cfg s) (heap s) (_tasks s) (_queue s) (workers s) (now s + Z.of_N elapsed)
           (ended s).

(** The coroutine of worker [idx] ends: the exception of a notification
    that failed twice leaves [_run_task] and [_worker_loop]. Nothing is
    written on the way out, so a job that was just started stays
    [running] in the slot of the worker. *)
Definition worker_ends (s : plugin) (idx : nat) : plugin :=
  if (idx <? length (workers s))%nat then
    mkPlugin (cfg s) (heap s) (_tasks s) (_queue s) (workers s) (now s) (idx :: ended s)
  else s.

(** What can happen to the scheduler between two suspension points. A
    worker that has ended takes and finishes nothing any more. *)
Inductive event : Type :=
  | Tick (elapsed : N)
  | Start (ev : start_event)
  | Cancel (sender_id_ : string) (args_ : list string)
  | AdminCancel (args_ : list string)
  | Cleanup
  | WorkerTake (idx : nat)
  | WorkerFinish (idx : nat) (stored_name : option string) (outcome : pyresult result)
  | WorkerEnds (idx : nat).

Definition exec (s : plugin) (e : event) : plugin :=
  match e with
  | Tick elapsed => tick s elapsed
  | Start ev => (_handle_start s ev).1
  | Cancel who args_ => (_handle_cancel s who args_).1
  | AdminCancel args_ => (_admin_cancel s args_).1
  | Cleanup => _cleanup_tasks s
  | WorkerTake idx =>
      if bool_decide (idx ∈ ended s) then s else worker_take s idx
  | WorkerFinish idx stored_name outcome =>
      if bool_decide (idx ∈ ended s) then s else worker_finish s idx stored_name outcome
  | WorkerEnds idx => worker_ends s idx
  end.

Definition run (s : plugin) (events : list event) : plugin :=
  fold_left exec events s.

Definition reachable (s : plugin) : Prop :=
  exists c t0 events, s = run (init c t0) events.

End Plugin.

(** ** Observations on call logs, and sample data *)

Definition is_oracle_post (c : call) : bool :=
  match c with PostOracle _ => true | _ => false end.
Definition is_submit_post (c : call) : bool :=
  match c with PostSubmit _ _ => true | _ => false end.

(** The passwords posted to the login form, in order. *)
Definition posted_passwords (l : list call) : list string :=
  omap (fun c => match c with PostLogin pw _ => Some pw | _ => None end) l.

Definition login_attempts (l : list call) : nat := length (posted_passwords l).
Definition oracle_calls (l : list call) : nat := length (List.filter is_oracle_post l).
Definition submit_calls (l : list call) : nat := length (List.filter is_submit_post l).

(** Calls that belong to chapter processing or to the completion fetch. *)
Definition beyond_discovery (c : call) : bool :=
  match c with
  | GetResults _ | GetExam _ | PostOracle _ | PostSubmit _ _ => true
  | _ => false
  end.

(** A hash library that only tags its input, to tell encodings apart. *)
Definition tagging_hashlib : hashlib :=
  mkHashlib (fun s => "md5(" ++ s ++ ")") (fun s => "sha1(" ++ s ++ ")")
            (fun s => "sha256(" ++ s ++ ")").

(** A key that lets every token through unchanged. *)
Definition transparent_fernet : BindingStore.Fernet :=
  BindingStore.mkFernet (fun _ text => text) (fun token => Some token).

(** A key under which no token decrypts. *)
Definition foreign_fernet : BindingStore.Fernet :=
  BindingStore.mkFernet (fun _ text => text) (fun _ => None).

Definition sample_binding : gmap string string :=
  <["updated_at" := "2026-01-30 08:00:00"]>
    (<["bound_at" := "2026-01-30 08:00:00"]>
      (<["password" := "secret"]> (<["username" := "alice"]> ∅))).

Definition sample_store (f : BindingStore.Fernet) : BindingStore.store :=
  BindingStore.mkStore f 1 (<["10001" := sample_binding]> ∅).

Definition sample_bind_env : BindingStore.bind_env :=
  BindingStore.mkBindEnv "iv" "2026-02-01 09:00:00" "2026-02-01 09:00:01".

(** The digests of [hashlib], by name. *)
Inductive digest : Type := MD5 | SHA1 | SHA256.

Definition hexdigest (H : hashlib) (d : digest) : string -> string :=
  match d with
  | MD5 => md5 H
  | SHA1 => sha1 H
  | SHA256 => sha256 H
  end.

(** The four secret/key combinations as the specification words them:
    secret-then-key and key-then-secret under each of two digests. *)
Definition spec_key_combinations (H : hashlib) (d1 d2 : digest) (secret key : string)
  : list string :=
  [hexdigest H d1 (secret ++ key); hexdigest H d1 (key ++ secret);
   hexdigest H d2 (secret ++ key); hexdigest H d2 (key ++ secret)].

(** A platform that is down: every request raises. *)
Definition down_platform : platform :=
  mkPlatform (fun _ => None) (fun _ => None) (fun _ => None) (fun _ => None)
             (fun _ => None) (fun _ => None) (fun _ => inl "down")
             (fun _ => OracleTimeout) (fun _ => inl "down") (fun _ => false).

(** A platform whose login page carries the key ["k"] and whose login
    form turns every password down. *)
Definition rejecting_platform : platform :=
  mkPlatform (fun _ => Some "请登录")
             (fun _ => Some (mkLoginPage 200 (Some ("k"%char, "")) 0 "abcdefgh"))
             (fun _ => Some (mkLoginResponse 200 "" (LJDict (Some 0) (Some "密码错误") None) ""))
             (fun _ => None) (fun _ => None) (fun _ => None) (fun _ => inl "down")
             (fun _ => OracleTimeout) (fun _ => inl "down") (fun _ => false).

(** The same platform with a login page that holds no key: the bot
    builds one from the time and the random characters. *)
Definition keyless_platform : platform :=
  mkPlatform (fun _ => Some "请登录")
             (fun _ => Some (mkLoginPage 200 None 1769900000 "abcdefgh"))
             (fun _ => Some (mkLoginResponse 200 "" (LJDict (Some 0) (Some "密码错误") None) ""))
             (fun _ => None) (fun _ => None) (fun _ => None) (fun _ => inl "down")
             (fun _ => OracleTimeout) (fun _ => inl "down") (fun _ => false).

(** ... and with a login page that cannot be fetched. *)
Definition pageless_platform : platform :=
  mkPlatform (fun _ => Some "请登录")
             (fun _ => None)
             (fun _ => Some (mkLoginResponse 200 "" (LJDict (Some 0) (Some "密码错误") None) ""))
             (fun _ => None) (fun _ => None) (fun _ => None) (fun _ => inl "down")
             (fun _ => OracleTimeout) (fun _ => inl "down") (fun _ => false).

(** The key [get_csrf_token_and_key] returns for a login page fetched
    with status 200: the one found in the page, or else the one the bot
    builds itself. *)
Definition page_key (page : login_page) : string :=
  match lp_found_key page with
  | Some (c, rest) => String c rest
  | None => pretty (lp_timestamp page) ++ "_" ++ lp_random page
  end.

(** The key the negotiation works with, read off the reply to the
    request for the login page. *)
Definition key_of_reply (reply : option login_page) : option string :=
  match reply with
  | Some page => if lp_status page =? 200 then Some (page_key page) else None
  | None => None
  end.

(** The bot as it stands before the attempt at position [i] of the
    candidate loop, when no earlier attempt has ended the loop. *)
Fixpoint bot_before (P : platform) (key : option string) (b : bot)
    (candidates : list string) (i : nat) : bot :=
  match i, candidates with
  | S j, password_format :: rest =>
      let b1 := (AutoLogin.test_login_with_password_format P b password_format key).1 in
      bot_before P key
                 (match rest with
                  | [] => b1
                  | _ :: _ => AutoLogin.human_like_delay b1 2 4
                  end)
                 rest j
  | _, _ => b
  end.

(** How the attempt at position [i] is classified, at the state the loop
    makes it in. *)
Definition verdict (P : platform) (key : option string) (b : bot)
    (candidates : list string) (i : nat) : option bool :=
  (fun password_format =>
     (AutoLogin.test_login_with_password_format
        P (bot_before P key b candidates i) password_format key).2)
  <$> candidates !! i.

(** The two guards at the head of [api_search]: when either holds, the
    Oracle is off and no request is sent. *)
Definition oracle_disabled (b : bot) : bool :=
  negb (api_available b) || (3 <=? api_error_count b)%nat.

(** The reply the Oracle would give to a lookup of [question_text] made
    by [b] counts as an Oracle-level error. *)
Definition oracle_fails (P : platform) (b : bot) (question_text : string) : Prop :=
  QuizBot.read_oracle_response (oracle_post P (log b ++ [PostOracle question_text]))
  = QuizBot.Errored.

(** A platform whose Oracle answers every question with ["A"]. *)
Definition answering_platform : platform :=
  mkPlatform (fun _ => None) (fun _ => None) (fun _ => None) (fun _ => None)
             (fun _ => None) (fun _ => None) (fun _ => inl "down")
             (fun _ => OracleHttp 200
                         (BodyDict (mkOracleDict true (Some (DataDict (Some (Some "A"))))
                                                 None None)))
             (fun _ => inl "down") (fun _ => false).



(** A chapter of five questions of which the bank knows four, on a
    platform whose Oracle has no answer to give. *)
Definition five_question_bank : list (string * list bank_question) :=
  [("第一章", [mkBankQuestion (Some "q1") (Some "A"); mkBankQuestion (Some "q2") (Some "B");
               mkBankQuestion (Some "q3") (Some "C"); mkBankQuestion (Some "q4") (Some "D")])].

Definition five_question_page : exam_page :=
  mkExamPage 200 (Some "/index/exam/submit.html")
    [mkQuestionUl (Some "q1") [("A", "A"); ("B", "B")] (Some "answer[1]");
     mkQuestionUl (Some "q2") [("A", "A"); ("B", "B")] (Some "answer[2]");
     mkQuestionUl (Some "q3") [("A", "A"); ("C", "C")] (Some "answer[3]");
     mkQuestionUl (Some "q4") [("A", "A"); ("D", "D")] (Some "answer[4]");
     mkQuestionUl (Some "q5") [("A", "A"); ("B", "B")] (Some "answer[5]")].

Definition no_answer_reply : oracle_response :=
  OracleHttp 200 (BodyDict (mkOracleDict false None None None)).

Definition five_question_platform : platform :=
  mkPlatform (fun _ => Some "欢迎") (fun _ => None) (fun _ => None)
             (fun _ => Some (200, [mkCourse 7 "马克思主义基本原理" "/index/exam/lists/course_id/7"]))
             (fun _ => Some (200, [mkChapter 71 "第一章" "/index/exam/show/id/71";
                                   mkChapter 72 "第二章" "/index/exam/show/id/72"]))
             (fun _ => None)
             (fun _ => inr five_question_page)
             (fun _ => no_answer_reply)
             (fun _ => inr 200) (fun _ => false).

Definition banked_bot : bot :=
  QuizBot.set_question_bank (new_bot "alice" "secret") five_question_bank.

(** A chapter whose only question nobody can answer. *)
Definition lone_question_platform : platform :=
  mkPlatform (fun _ => Some "欢迎") (fun _ => None) (fun _ => None)
             (fun _ => None) (fun _ => None) (fun _ => None)
             (fun _ => inr (mkExamPage 200 (Some "/index/exam/submit.html")
                              [mkQuestionUl (Some "q1") [("A", "A")] (Some "answer[1]")]))
             (fun _ => no_answer_reply)
             (fun _ => inr 200) (fun _ => false).

Definition strict_config : Plugin.config := Plugin.mkConfig 3 true true (0 # 1).

(** What the question loop keeps true: it posts no submission, and it
    has counted an answer only if [answer_data] holds one. *)
Definition answering_ok (n : nat) (st : QuizBot.answering) : Prop :=
  submit_calls (log (QuizBot.a_bot st)) = n
  /\ (QuizBot.answer_data st = [] -> QuizBot.a_answered st = 0%nat).

(** A job of user 10001 on course 7 in range mode with bounds 5-2. *)
Definition backwards_range_task : Plugin.QuizTask :=
  Plugin.mkTask "a1b2c3d4" "10001" "Alice" "qq:private:10001" (Some 7)
                (Some "马克思主义基本原理") Plugin.mode_range "5-2" Plugin.running
                100 (Some 101) None false None None.

(** No call of the log belongs to the completion fetch or to chapter
    processing. *)
Definition quiet (l : list call) : Prop :=
  Forall (fun c => beyond_discovery c = false) l.

(** ** What the scheduler keeps true *)

(** The task at [ref] is in the slot of a worker: the worker is
    between the first and the last assignment of [_run_task] for it, or
    its loop ended there. *)
Definition held (s : Plugin.plugin) (ref : nat) : Prop :=
  exists idx, Plugin.workers s !! idx = Some (Some ref).

(** How the status, the cancel event and the timestamps of the task
    object at [ref] fit the queue, the workers and the clock. *)
Record task_ok (s : Plugin.plugin) (ref : nat) (t : Plugin.QuizTask) : Prop := mkTaskOk {
  ok_queued :
    Plugin.status t = Plugin.queued ->
    ref ∈ Plugin._queue s /\ Plugin.cancel_event t = false;
  ok_in_queue :
    ref ∈ Plugin._queue s ->
    (Plugin.status t = Plugin.queued
     \/ (Plugin.status t = Plugin.canceled /\ Plugin.cancel_event t = true))
    /\ Plugin.started_at t = None;
  ok_busy :
    Plugin.status t = Plugin.running \/ Plugin.status t = Plugin.canceling -> held s ref;
  ok_held :
    held s ref -> Plugin.status t = Plugin.running \/ Plugin.status t = Plugin.canceling;
  ok_created : Plugin.created_at t <= Plugin.now s;
  ok_started :
    forall x, Plugin.started_at t = Some x -> Plugin.created_at t <= x <= Plugin.now s;
  ok_finished :
    forall f, Plugin.finished_at t = Some f ->
      Plugin.created_at t <= f <= Plugin.now s
      /\ (forall x, Plugin.started_at t = Some x -> x <= f);
  ok_terminal :
    Plugin.is_finished t = true -> Plugin.finished_at t <> None;
  ok_unfinished :
    Plugin.is_finished t = false -> Plugin.finished_at t = None
}.

Record scheduler_ok (s : Plugin.plugin) : Prop := mkSchedulerOk {
  inv_index : forall tid ref, Plugin._tasks s !! tid = Some ref ->
                (ref < length (Plugin.heap s))%nat;
  inv_queue : forall ref, ref ∈ Plugin._queue s -> (ref < length (Plugin.heap s))%nat;
  inv_workers : forall ref, held s ref -> (ref < length (Plugin.heap s))%nat;
  inv_inj : forall tid1 tid2 ref,
              Plugin._tasks s !! tid1 = Some ref -> Plugin._tasks s !! tid2 = Some ref ->
              tid1 = tid2;
  inv_nodup : NoDup (Plugin._queue s);
  inv_worker_inj : forall i j ref,
                     Plugin.workers s !! i = Some (Some ref) ->
                     Plugin.workers s !! j = Some (Some ref) -> i = j;
  inv_tasks : forall ref t, Plugin.heap s !! ref = Some t -> task_ok s ref t;
  inv_single : forall tid1 tid2 ref1 ref2 t1 t2,
                 Plugin._tasks s !! tid1 = Some ref1 ->
                 Plugin._tasks s !! tid2 = Some ref2 ->
                 Plugin.heap s !! ref1 = Some t1 -> Plugin.heap s !! ref2 = Some t2 ->
                 Plugin.qq_id t1 = Plugin.qq_id t2 ->
                 Plugin.is_active t1 = true -> Plugin.is_active t2 = true ->
                 ref1 = ref2
}.

(** From [s] to [s'] every task object keeps its place, its owner and its
    creation time, keeps its start time once it has one, and keeps its
    status once that is final. *)
Definition settled (s s' : Plugin.plugin) : Prop :=
  forall ref t, Plugin.heap s !! ref = Some t ->
    exists t', Plugin.heap s' !! ref = Some t'
      /\ Plugin.qq_id t' = Plugin.qq_id t
      /\ Plugin.created_at t' = Plugin.created_at t
      /\ (forall x, Plugin.started_at t = Some x -> Plugin.started_at t' = Some x)
      /\ (Plugin.is_finished t = true -> Plugin.status t' = Plugin.status t).

(** A task has a start time when a worker started it, and only then: a
    queued task has none, and a task that is running, being canceled,
    completed or failed has one. (A canceled task has one when it was
    canceled after a worker started it, and none when it was canceled
    while it waited.) *)
Definition start_ok (t : Plugin.QuizTask) : Prop :=
  match Plugin.status t with
  | Plugin.queued => Plugin.started_at t = None
  | Plugin.canceled => True
  | _ => Plugin.started_at t <> None
  end.

(** What the event [e] does to the task object at [ref] when it rewrites
    it from [t] to [t']: a cancel command closes a queued task and marks
    any other as being canceled; a live free worker takes it from the
    head of the queue and either drops it (cancel flag up) or starts it;
    the live worker that has it closes it. *)
Definition task_step (s : Plugin.plugin) (e : Plugin.event) (ref : nat)
    (t t' : Plugin.QuizTask) : Prop :=
  (((exists who args_, e = Plugin.Cancel who args_)
    \/ (exists args_, e = Plugin.AdminCancel args_))
   /\ Plugin.is_finished t = false
   /\ t' = if bool_decide (Plugin.status t = Plugin.queued)
           then Plugin.set_finished_at
                  (Plugin.set_status (Plugin.set_cancel_event t) Plugin.canceled)
                  (Plugin.now s)
           else Plugin.set_status (Plugin.set_cancel_event t) Plugin.canceling)
  \/ ((exists idx rest,
         e = Plugin.WorkerTake idx /\ idx ∉ Plugin.ended s
         /\ Plugin.workers s !! idx = Some None /\ Plugin._queue s = ref :: rest)
      /\ t' = if Plugin.cancel_event t
              then Plugin.set_finished_at (Plugin.set_status t Plugin.canceled)
                     (Plugin.now s)
              else Plugin.set_started_at (Plugin.set_status t Plugin.running)
                     (Plugin.now s))
  \/ (exists idx name outcome t1,
        e = Plugin.WorkerFinish idx name outcome /\ idx ∉ Plugin.ended s
        /\ Plugin.workers s !! idx = Some (Some ref)
        /\ Plugin.started_at t1 = Plugin.started_at t
        /\ Plugin.is_finished t1 = true
        /\ t' = Plugin.set_finished_at t1 (Plugin.now s)).

(** User 10001 asks for every chapter of course 7. *)
Definition sample_start : Plugin.start_event :=
  Plugin.mkStartEvent "10001" "Alice" "qq:private:10001" ["7"; "全部"]
    (Some (BindingStore.mkCredentials "alice" "secret" "" "")) true None
    (inr (7, "马克思主义基本原理")) "a1b2c3d4".

(** The scheduler after user 10001 has queued a job. *)
Definition queued_run : Plugin.plugin :=
  Plugin.run (Plugin.init Plugin.default_config 0) [Plugin.Start sample_start].

(** ... and has canceled it before any worker took it. *)
Definition canceled_run : Plugin.plugin :=
  Plugin.run queued_run [Plugin.Cancel "10001" ["a1b2c3d4"]].

(** The same job taken by worker 0 three seconds after it was queued and
    completed ten seconds later. *)
Definition finished_run : Plugin.plugin :=
  Plugin.run queued_run
    [Plugin.Tick 3; Plugin.WorkerTake 0; Plugin.Tick 10;
     Plugin.WorkerFinish 0 None (Ret (Plugin.mkResult true None None false))].

(** Every task object that is not finished can be found through the
    task index. *)
Definition indexed (s : Plugin.plugin) : Prop :=
  forall ref t, Plugin.heap s !! ref = Some t -> Plugin.is_finished t = false ->
    exists tid, Plugin._tasks s !! tid = Some ref.

(** The identifier [uuid4] hands to a start request is not in use. *)
Definition fresh_uuid (s : Plugin.plugin) (e : Plugin.event) : Prop :=
  match e with
  | Plugin.Start ev => Plugin._tasks s !! Plugin.uuid ev = None
  | _ => True
  end.

Fixpoint fresh_ids (s : Plugin.plugin) (events : list Plugin.event) : Prop :=
  match events with
  | [] => True
  | e :: rest => fresh_uuid s e /\ fresh_ids (Plugin.exec s e) rest
  end.

(** A job of user 10001 on every chapter of course 7, as a worker holds
    it. *)
Definition sample_task : Plugin.QuizTask :=
  Plugin.mkTask "a1b2c3d4" "10001" "Alice" "qq:private:10001" (Some 7)
                (Some "马克思主义基本原理") Plugin.mode_all "" Plugin.running
                100 (Some 101) None false None None.

(** ** main.py: the rest of the credential store, and the masked view *)

(** [_mask_text(text, keep)] on a text given as its characters; [star] is
    the character ["*"], and [keep] a count (the plugin passes 2). *)
Definition _mask_text {A : Type} (star : A) (text : list A) (keep : nat) : list A :=
  match text with
  | [] => []
  | _ :: _ =>
      if (length text <=? keep)%nat then replicate (length text) star
      else take keep text ++ replicate (length text - keep) star
  end.

(** One dict of [list_safe]. *)
Definition safe_entry (qq_id : string) (info : gmap string string) : gmap string string :=
  <["updated_at" := default "" (info !! "updated_at")]>
    (<["bound_at" := default "" (info !! "bound_at")]>
      (<["username" := default "" (info !! "username")]>
        (<["qq_id" := qq_id]> ∅))).

(** [list_safe]: one dict per binding. The dict of bindings is a finite
    map here, so the entries come in the order of the map rather than in
    the order the bindings were made. *)
Definition list_safe (st : BindingStore.store) : list (gmap string string) :=
  (fun entry => safe_entry entry.1 entry.2) <$> map_to_list (BindingStore.bindings st).

(** The arguments of one call of [bind], with what the call reads from
    outside. *)
Record bind_call : Type := mkBindCall {
  bc_env : BindingStore.bind_env;
  bc_qq_id : string;
  bc_username : string;
  bc_password : string
}.

(** The store after a series of [bind] calls. *)
Definition bind_all (st : BindingStore.store) (calls : list bind_call) : BindingStore.store :=
  fold_left (fun st c =>
               (BindingStore.bind st (bc_env c) (bc_qq_id c) (bc_username c)
                                  (bc_password c)).1)
            calls st.

(** ** main.py: what the scheduler's handlers leave alone *)

(** The four modes [_execute_task_sync] knows. *)
Definition known_mode (m : string) : bool :=
  Plugin.str_in m [Plugin.mode_all; Plugin.mode_incomplete; Plugin.mode_explicit;
                   Plugin.mode_range].

(** [t'] is the task [t] at a later time: the fields given to the
    constructor of [QuizTask], other than the course name, are the same. *)
Definition same_job (t t' : Plugin.QuizTask) : Prop :=
  Plugin.task_id t' = Plugin.task_id t
  /\ Plugin.qq_id t' = Plugin.qq_id t
  /\ Plugin.sender_name t' = Plugin.sender_name t
  /\ Plugin.umo t' = Plugin.umo t
  /\ Plugin.course_id t' = Plugin.course_id t
  /\ Plugin.mode t' = Plugin.mode t
  /\ Plugin.spec t' = Plugin.spec t
  /\ Plugin.created_at t' = Plugin.created_at t.

(** The task with its finish time blanked. *)
Definition without_finish (t : Plugin.QuizTask) : Plugin.QuizTask :=
  Plugin.mkTask (Plugin.task_id t) (Plugin.qq_id t) (Plugin.sender_name t) (Plugin.umo t)
                (Plugin.course_id t) (Plugin.course_name t) (Plugin.mode t) (Plugin.spec t)
                (Plugin.status t) (Plugin.created_at t) (Plugin.started_at t) None
                (Plugin.cancel_event t) (Plugin.task_summary t) (Plugin.error t).

(** How one event changes the task objects and the queue: nothing, or
    one object rewritten in place as the same job (with the head of the
    queue possibly taken), or one new queued job appended to both. *)
Definition step_shape (s s' : Plugin.plugin) : Prop :=
  ((Plugin.heap s' = Plugin.heap s
    \/ exists ref t t', Plugin.heap s !! ref = Some t
                        /\ Plugin.heap s' = <[ref := t']> (Plugin.heap s)
                        /\ same_job t t')
   /\ (Plugin._queue s' = Plugin._queue s
       \/ exists ref, Plugin._queue s = ref :: Plugin._queue s'))
  \/ (exists task,
        Plugin.heap s' = (Plugin.heap s ++ [task])%list
        /\ Plugin._queue s' = (Plugin._queue s ++ [length (Plugin.heap s)])%list
        /\ Plugin.status task = Plugin.queued
        /\ Plugin.created_at task = Plugin.now s
        /\ known_mode (Plugin.mode task) = true).

(** User 10002 asks for the chapters of course 7 that are not done yet. *)
Definition second_start : Plugin.start_event :=
  Plugin.mkStartEvent "10002" "Bob" "qq:private:10002" ["7"; "未完成"]
    (Some (BindingStore.mkCredentials "bob" "hunter2" "" "")) true None
    (inr (7, "马克思主义基本原理")) "e5f6a7b8".

(** Jobs leave the queue in the order they were created in: the
    references in the queue ascend, and so do the creation times along
    the task objects. *)
Definition first_come (s : Plugin.plugin) : Prop :=
  StronglySorted lt (Plugin._queue s)
  /\ forall i j ti tj, (i < j)%nat ->
       Plugin.heap s !! i = Some ti -> Plugin.heap s !! j = Some tj ->
       Plugin.created_at ti <= Plugin.created_at tj.

(** Jobs of user 10001 on course 7: chapters 2, 1 and 2 again by number,
    and the range from 2 to 5. *)
Definition explicit_task : Plugin.QuizTask :=
  Plugin.mkTask "a1b2c3d4" "10001" "Alice" "qq:private:10001" (Some 7)
                (Some "马克思主义基本原理") Plugin.mode_explicit "2,1,2" Plugin.running
                100 (Some 101) None false None None.

Definition forward_range_task : Plugin.QuizTask :=
  Plugin.mkTask "a1b2c3d4" "10001" "Alice" "qq:private:10001" (Some 7)
                (Some "马克思主义基本原理") Plugin.mode_range "2-5" Plugin.running
                100 (Some 101) None false None None.

Definition two_chapters : list chapter :=
  [mkChapter 71 "第一章" "/index/exam/show/id/71";
   mkChapter 72 "第二章" "/index/exam/show/id/72"].

(** ** smart_quiz_api.py: what the question loop keeps true of its counters *)

(** Every counted answer came from the bank or from the Oracle, no
    question is counted twice, the samples are the first five questions
    left open, and [answer_data] has no more entries than answers were
    counted. *)
Definition counts_ok (st : QuizBot.answering) : Prop :=
  (QuizBot.local_count st + QuizBot.api_count st = QuizBot.a_answered st)%nat
  /\ (QuizBot.a_answered st + QuizBot.failed_count st <= QuizBot.a_total st)%nat
  /\ length (QuizBot.missing_samples st) = Nat.min 5 (QuizBot.failed_count st)
  /\ (length (QuizBot.answer_data st) <= QuizBot.a_answered st)%nat.

(** The platform of the five questions once the first chapter is done:
    the result page of course 7 lists exam 71 with a score of 100. *)
Definition graded_platform : platform :=
  mkPlatform (fun _ => Some "欢迎") (fun _ => None) (fun _ => None)
             (fun _ => Some (200, [mkCourse 7 "马克思主义基本原理" "/index/exam/lists/course_id/7"]))
             (fun _ => Some (200, [mkChapter 71 "第一章" "/index/exam/show/id/71";
                                   mkChapter 72 "第二章" "/index/exam/show/id/72"]))
             (fun _ => Some (mkResultsPage 200 "/index/exam/exam_list/course_id/7.html"
                               [(71, "第一章", "100")]))
             (fun _ => inr five_question_page)
             (fun _ => no_answer_reply)
             (fun _ => inr 200) (fun _ => false).

(** A job of user 10001 on the chapters of course 7 that are not done
    yet. *)
Definition incomplete_task : Plugin.QuizTask :=
  Plugin.mkTask "a1b2c3d4" "10001" "Alice" "qq:private:10001" (Some 7)
                (Some "马克思主义基本原理") Plugin.mode_incomplete "" Plugin.running
                100 (Some 101) None false None None.

(** ** api_client.py and auto_login.py: traces *)

(** The client after looking the questions up one after the other. *)
Definition search_all (P : platform) (c : APIClient.client) (questions : list string)
  : APIClient.client :=
  fold_left (fun c q => (APIClient.search_answer P c q).1) questions c.

(** [n] requests for the same question with a sleep of [pause] seconds
    between consecutive ones. *)
Fixpoint paced_trace (pause : Z) (question_text : string) (n : nat) : list call :=
  match n with
  | O => []
  | S m =>
      PostOracle question_text
      :: match m with
         | O => []
         | S _ => Sleep pause :: paced_trace pause question_text m
         end
  end.

(** A platform whose answer service has moved away: every request gets
    status 404. *)
Definition missing_platform : platform :=
  mkPlatform (fun _ => None) (fun _ => None) (fun _ => None) (fun _ => None)
             (fun _ => None) (fun _ => None) (fun _ => inl "down")
             (fun _ => OracleHttp 404 BodyNotJson)
             (fun _ => inl "down") (fun _ => false).

(** The login form posted with each of the passwords in turn, with a
    delay of two to four seconds between consecutive posts. *)
Fixpoint attempt_trace (key : option string) (passwords : list string) : list call :=
  match passwords with
  | [] => []
  | pw :: rest =>
      PostLogin pw key
      :: match rest with
         | [] => []
         | _ :: _ => Delay 2 4 :: attempt_trace key rest
         end
  end.

(** The form data of a submission fits the page: no input name twice,
    no empty name, no empty answer, and every name is the input name of a
    question on the page. *)
Definition entries_ok (questions : list question_ul) (data : list (string * string)) : Prop :=
  NoDup data.*1
  /\ forall k v, (k, v) ∈ data ->
       k <> "" /\ v <> ""
       /\ exists q_ul, q_ul ∈ questions /\ q_input_name q_ul = Some k.

(** ** main.py: course resolution *)

(** [_fetch_courses_sync] for a binding that holds both strings: the
    calls made, and the course list or the exception raised. The source
    also returns the bot's [target_courses], which [_resolve_course]
    drops. *)
Definition _fetch_courses_sync (H : hashlib) (P : platform) (username password : string)
  : list call * pyresult (list course) :=
  let b0 := new_bot username password in
  let '(b1, logged_in) := AutoLogin.check_login_status P b0 in
  let '(b2, ok) := if logged_in then (b1, true)
                   else AutoLogin.analyze_network_request H P b1 in
  if negb ok then (log b2, Raise (OtherError "登录失败"))
  else
    let '(b3, courses) := QuizBot.get_all_courses P b2 in
    (log b3, Ret courses).

(** [_resolve_course]: [cached] is the sender's entry of [_course_cache]
    (its course list), [token] the course argument. A token of digits is
    read as a course id first and as a position in the cached list
    second; any other token is looked for in the course names. The
    courses are fetched only when the cache does not settle it. *)
Definition _resolve_course (H : hashlib) (P : platform) (cached : option (list course))
    (token : string) (binding : BindingStore.credentials)
  : list call * pyresult (Z * string) :=
  let from_fetch := fun (pick : list course -> option course) (missing : string) =>
    match _fetch_courses_sync H P (BindingStore.cred_username binding)
                              (BindingStore.cred_password binding) with
    | (l, Raise e) => (l, Raise e)
    | (l, Ret courses) =>
        match pick courses with
        | Some c => (l, Ret (c_id c, c_name c))
        | None => (l, Raise (ValueError missing))
        end
    end in
  if Plugin.isdigit token then
    let course_id := Plugin.digits_value token in
    let by_id := List.find (fun c => c_id c =? course_id) in
    match cached with
    | Some courses =>
        match by_id courses with
        | Some c => ([], Ret (c_id c, c_name c))
        | None =>
            if (1 <=? course_id) && (course_id <=? Z.of_nat (length courses)) then
              match courses !! Z.to_nat (course_id - 1) with
              | Some c => ([], Ret (c_id c, c_name c))
              | None => ([], Raise (OtherError "list index out of range"))
              end
            else from_fetch by_id "课程ID不存在"
        end
    | None => from_fetch by_id "课程ID不存在"
    end
  else
    let by_name := List.find (fun c => contains token (c_name c)) in
    match cached with
    | Some courses =>
        match by_name courses with
        | Some c => ([], Ret (c_id c, c_name c))
        | None => from_fetch by_name "未找到匹配课程"
        end
    | None => from_fetch by_name "未找到匹配课程"
    end.

(** Two cached courses whose ids are small numbers. *)
Definition small_id_courses : list course :=
  [mkCourse 2 "马克思主义基本原理" "/index/exam/lists/course_id/2";
   mkCourse 9 "中华民族共同体概论" "/index/exam/lists/course_id/9"].

(** ** main.py: who may use which command *)

Module Access.

(** What the access checks read of an event: the group id ([None]: the
    attribute cannot be read; [Some None]: it is [None]), the sender id
    ([None]: not available) and the sender's role. *)
Record message_event : Type := mkMessageEvent {
  ev_group_id : option (option string);
  ev_sender_id : option string;
  ev_sender_role : option string
}.

(** The configuration keys and the context attribute the checks read,
    with their entries already turned into strings. *)
Record access_config : Type := mkAccessConfig {
  admin_ids : list string;
  context_admins : list string;
  allow_group_ids : list string;
  allow_group_commands : bool
}.

Definition _is_private (ev : message_event) : bool :=
  match ev_group_id ev with
  | Some None => true
  | Some (Some g) => Plugin.str_in g [""; "0"]
  | None => false
  end.

Definition _allow_group_commands (cfg : access_config) (ev : message_event) : bool :=
  if _is_private ev then true
  else
    let group_id := match ev_group_id ev with
                    | Some (Some g) => Some g
                    | Some None => Some "None"
                    | None => None
                    end in
    if match group_id with
       | Some g => negb (String.eqb g "") && Plugin.str_in g (allow_group_ids cfg)
       | None => false
       end
    then true
    else allow_group_commands cfg.

Definition _is_admin (cfg : access_config) (ev : message_event) : bool :=
  (match ev_sender_id ev with
   | Some s => negb (String.eqb s "") && Plugin.str_in s (admin_ids cfg)
   | None => false
   end)
  || (match ev_sender_id ev with
      | Some s => Plugin.str_in s (context_admins cfg)
      | None => false
      end)
  || (match ev_sender_role ev with
      | Some r => Plugin.str_in r ["admin"; "owner"]
      | None => false
      end).

(** What an admin command answers: a text given here in full, or the
    text one of the listing functions builds. *)
Inductive admin_reply : Type :=
  | PlainText (text : string)
  | AdminHelp
  | AdminTaskList
  | AdminTaskDetail (args : list string)
  | AdminBindings.

Definition on_admin_command (cfg : access_config) (s : Plugin.plugin) (ev : message_event)
    (args : list string) : Plugin.plugin * admin_reply :=
  let s1 := Plugin._cleanup_tasks s in
  if negb (_is_private ev) then (s1, PlainText "管理命令仅支持私信使用。")
  else if negb (_is_admin cfg ev) then (s1, PlainText "仅管理员可用该命令。")
  else
    match args with
    | [] => (s1, AdminHelp)
    | cmd :: rest =>
        if Plugin.str_in cmd ["帮助"; "help"; "?"] then (s1, AdminHelp)
        else if Plugin.str_in cmd ["状态"; "列表"] then (s1, AdminTaskList)
        else if String.eqb cmd "详情" then (s1, AdminTaskDetail rest)
        else if String.eqb cmd "取消" then
          let '(s2, text) := Plugin._admin_cancel s1 rest in (s2, PlainText text)
        else if String.eqb cmd "绑定" then (s1, AdminBindings)
        else (s1, AdminHelp)
    end.

End Access.

(** * Properties *)

(** Case analysis on the conditions of the goal. *)
Ltac break_if :=
  match goal with
  | |- context [if ?c then _ else _] => destruct c
  end.

Section BindingStoreFacts.

Import BindingStore.

(** What [list_safe] shows of a binding names its identity. *)
Lemma safe_entry_qq_id (qq : string) (info : gmap string string) :
  safe_entry qq info !! "qq_id" = Some qq.
Proof.
  unfold safe_entry. rewrite !lookup_insert_ne by discriminate. apply lookup_insert_eq.
Qed.

(** C9. Binding again under an identity that already has a binding: with
    another username the call fails and the store is left exactly as it
    was; with the same username it succeeds, the binding stored for the
    identity afterwards is the old one with the secret replaced by the
    new token and [updated_at] by the current time, and every other field
    of that binding (username and [bound_at] among them), every other
    binding, the version and the key are unchanged. *)
Theorem bind_existing_binding
    (st : store) (env : bind_env) (qq username password : string)
    (existing : gmap string string) :
  bindings st !! qq = Some existing ->
  (existing !! "username" <> Some username ->
     bind st env qq username password = (st, (false, msg_bound_other)))
  /\ (existing !! "username" = Some username ->
      exists updated,
        bind st env qq username password
          = (set_bindings st (<[qq := updated]> (bindings st)), (true, msg_password_updated))
        /\ bindings (bind st env qq username password).1 !! qq = Some updated
        /\ updated !! "password" = Some (_encrypt st (iv env) password)
        /\ updated !! "updated_at" = Some (now_first env)
        /\ updated !! "username" = Some username
        /\ updated !! "bound_at" = existing !! "bound_at"
        /\ (forall field, field <> "password" -> field <> "updated_at" ->
              updated !! field = existing !! field)
        /\ (forall other, other <> qq ->
              bindings (bind st env qq username password).1 !! other
              = bindings st !! other)
        /\ version (bind st env qq username password).1 = version st
        /\ _fernet (bind st env qq username password).1 = _fernet st).
Proof.
  intros Hqq. unfold bind. rewrite Hqq. split.
  - intros Hne. destruct (decide _) as [Heq|_]; [contradiction|reflexivity].
  - intros Heq. destruct (decide _) as [_|Hne]; [|contradiction].
    eexists. split; [reflexivity|].
    repeat split.
    + cbn [fst set_bindings bindings]. apply lookup_insert_eq.
    + rewrite lookup_insert_ne by discriminate. apply lookup_insert_eq.
    + apply lookup_insert_eq.
    + rewrite !lookup_insert_ne by discriminate. exact Heq.
    + rewrite !lookup_insert_ne by discriminate. reflexivity.
    + intros field Hp Hu. rewrite !lookup_insert_ne by congruence. reflexivity.
    + intros other Ho. simpl. rewrite lookup_insert_ne by congruence. reflexivity.
Qed.

Lemma bind_existing_binding_witness :
  bind (sample_store transparent_fernet) sample_bind_env "10001" "bob" "pw"
    = (sample_store transparent_fernet, (false, msg_bound_other))
  /\ exists updated,
       bindings (bind (sample_store transparent_fernet) sample_bind_env
                   "10001" "alice" "pw").1 !! "10001" = Some updated
       /\ (bind (sample_store transparent_fernet) sample_bind_env "10001" "alice" "pw").2
          = (true, msg_password_updated)
       /\ updated !! "password" = Some "pw"
       /\ updated !! "updated_at" = Some "2026-02-01 09:00:00"
       /\ updated !! "bound_at" = Some "2026-01-30 08:00:00"
       /\ sample_binding !! "password" = Some "secret"
       /\ sample_binding !! "updated_at" = Some "2026-01-30 08:00:00".
Proof.
  assert (Hqq : bindings (sample_store transparent_fernet) !! "10001" = Some sample_binding)
    by (vm_compute; reflexivity).
  split.
  - apply (proj1 (bind_existing_binding _ sample_bind_env "10001" "bob" "pw" _ Hqq)).
    vm_compute. discriminate.
  - destruct (proj2 (bind_existing_binding _ sample_bind_env "10001" "alice" "pw" _ Hqq))
      as (updated & Hb & Hstored & Hp & Hu & _ & Hba & _).
    + vm_compute. reflexivity.
    + exists updated. split; [exact Hstored|]. split; [rewrite Hb; reflexivity|].
      split; [exact Hp|]. split; [exact Hu|].
      split; [rewrite Hba; vm_compute; reflexivity|].
      split; vm_compute; reflexivity.
Defined.

(** C10, as the code has it. When the stored secret of a binding does not
    decrypt under the current key, [get] returns [None] without raising:
    the very answer it gives for an identity that has no binding at all.
    So every caller of [get] treats such a user as one who never bound an
    account: a job of such a user ends, before any call is made, with the
    reply for a missing binding, and the start command answers that no
    account is bound. The rest of the interface still tells the two
    apart: [bind] never answers such a user with the message of a first
    binding, which it gives once the binding is gone, and [list_safe]
    lists the binding. *)
Theorem get_undecryptable_is_absent
    (st : store) (qq : string) (data : gmap string string) :
  bindings st !! qq = Some data ->
  fernet_decrypt (_fernet st) (default "" (data !! "password")) = None ->
  let unbound := set_bindings st (delete qq (bindings st)) in
  get st qq = Ret None
  /\ get st qq = get unbound qq
  /\ (forall (c : Plugin.config) (H : hashlib) (P : platform)
             (bank : list (string * list bank_question)) (task : Plugin.QuizTask),
        Plugin.qq_id task = qq ->
        Plugin._execute_task_sync c H P bank st task
        = ([], task, Ret (Plugin.fail_with "未找到绑定账号"))
        /\ Plugin._execute_task_sync c H P bank st task
           = Plugin._execute_task_sync c H P bank unbound task)
  /\ (forall (s : Plugin.plugin) (ev : Plugin.start_event),
        Plugin.sender_id ev = qq ->
        get st (Plugin.sender_id ev) = Ret (Plugin.binding ev) ->
        Plugin._handle_start s ev = (s, Plugin.msg_unbound))
  /\ (forall (env : bind_env) (username password : string),
        (bind st env qq username password).2 <> (true, msg_bound_ok)
        /\ (bind unbound env qq username password).2 = (true, msg_bound_ok))
  /\ safe_entry qq data ∈ list_safe st
  /\ safe_entry qq data ∉ list_safe unbound.
Proof.
  intros Hqq Hdec unbound.
  assert (Hnone : get st qq = Ret None).
  { unfold get, _decrypt. rewrite Hqq, Hdec. destruct (dict_is_empty data); reflexivity. }
  assert (Hgone : get unbound qq = Ret None).
  { unfold get, unbound. simpl. rewrite lookup_delete_eq. reflexivity. }
  split; [exact Hnone|]. split; [congruence|]. split; [|split; [|split; [|split]]].
  - intros c H P bank task Htask. unfold Plugin._execute_task_sync.
    rewrite Htask, Hnone, Hgone. split; reflexivity.
  - intros s ev Hsender Hget. rewrite Hsender, Hnone in Hget. inversion Hget as [Hbinding].
    unfold Plugin._handle_start. rewrite <- Hbinding. reflexivity.
  - intros env username password. split.
    + unfold bind. rewrite Hqq. destruct (decide _); cbn [snd]; intros Heq;
        inversion Heq.
    + unfold bind, unbound. cbn [set_bindings bindings]. rewrite lookup_delete_eq.
      reflexivity.
  - unfold list_safe. apply list_elem_of_fmap. exists (qq, data). split; [reflexivity|].
    apply elem_of_map_to_list. exact Hqq.
  - unfold list_safe, unbound. cbn [set_bindings bindings]. intros Hin.
    apply list_elem_of_fmap in Hin as ([k info] & Heq & Hin). cbn [fst snd] in Heq.
    apply elem_of_map_to_list in Hin.
    assert (Hk : Some qq = Some k).
    { rewrite <- (safe_entry_qq_id qq data), <- (safe_entry_qq_id k info), Heq.
      reflexivity. }
    inversion Hk; subst k. rewrite lookup_delete_eq in Hin. discriminate.
Qed.

Lemma get_undecryptable_is_absent_witness :
  get (sample_store foreign_fernet) "10001" = Ret None
  /\ get (sample_store foreign_fernet) "10001"
     = get (set_bindings (sample_store foreign_fernet)
              (delete "10001" (bindings (sample_store foreign_fernet)))) "10001"
  /\ safe_entry "10001" sample_binding ∈ list_safe (sample_store foreign_fernet).
Proof.
  destruct (get_undecryptable_is_absent (sample_store foreign_fernet) "10001" sample_binding)
    as (Hnone & Hsame & _ & _ & _ & Hlisted & _).
  - vm_compute. reflexivity.
  - reflexivity.
  - split; [exact Hnone|]. split; [exact Hsame|exact Hlisted].
Defined.

(** C10 as stated fails: a user whose stored secret does not decrypt is
    told apart from one who never bound an account. [get] answers the
    same for both, but binding another username is refused for the first
    and accepted for the second, and the list of bindings shows the first
    and not the second. *)
Lemma undecryptable_binding_is_visible :
  bindings (sample_store foreign_fernet) !! "10001" = Some sample_binding
  /\ fernet_decrypt foreign_fernet (default "" (sample_binding !! "password")) = None
  /\ bindings (empty_store foreign_fernet) !! "10001" = None
  /\ get (sample_store foreign_fernet) "10001" = get (empty_store foreign_fernet) "10001"
  /\ (bind (sample_store foreign_fernet) sample_bind_env "10001" "bob" "pw").2
     = (false, msg_bound_other)
  /\ (bind (empty_store foreign_fernet) sample_bind_env "10001" "bob" "pw").2
     = (true, msg_bound_ok)
  /\ list_safe (sample_store foreign_fernet) = [safe_entry "10001" sample_binding]
  /\ list_safe (empty_store foreign_fernet) = [].
Proof.
  repeat split; vm_compute; reflexivity.
Qed.

End BindingStoreFacts.

Section AutoLoginFacts.

Import AutoLogin.

Lemma posted_passwords_app (l1 l2 : list call) :
  posted_passwords (l1 ++ l2) = (posted_passwords l1 ++ posted_passwords l2)%list.
Proof. apply omap_app. Qed.

Lemma classify_plain_log (b : bot) (r : login_response) :
  log (classify_plain b r).1 = log b.
Proof.
  unfold classify_plain.
  repeat match goal with |- context [if ?c then _ else _] => destruct c end; reflexivity.
Qed.

Lemma test_login_log (P : platform) (b : bot) (pf : string) (key : option string) :
  log (test_login_with_password_format P b pf key).1
  = (log b ++ [PostLogin pf (if truthy key then key else None)])%list.
Proof.
  unfold test_login_with_password_format.
  destruct (login_post P _) as [r|]; [|reflexivity].
  destruct (lr_json r) as [| |code msg url]; [apply classify_plain_log|reflexivity|].
  destruct (_ && _); [reflexivity|].
  destruct (bool_decide _); [reflexivity|apply classify_plain_log].
Qed.

(** What the candidate loop does: it posts a prefix of the candidates, in
    order; it stops at the first attempt classified as successful, and
    gives up only after the whole list. *)
Lemma try_candidates_spec (P : platform) (key : option string) (candidates : list string) :
  forall (b b' : bot) (ok : bool),
    try_candidates P key b candidates = (b', ok) ->
    exists (made : list call) (n : nat),
      log b' = (log b ++ made)%list
      /\ posted_passwords made = take n candidates
      /\ (n <= length candidates)%nat
      /\ (ok = false -> n = length candidates)
      /\ (ok = true ->
          exists (b_pre : bot) (pf : string),
            (1 <= n)%nat /\ candidates !! (n - 1)%nat = Some pf
            /\ test_login_with_password_format P b_pre pf key = (b', true)).
Proof.
  induction candidates as [|pf rest IH]; intros b b' ok Hrun; simpl in Hrun.
  - inversion Hrun; subst. exists [], 0%nat.
    rewrite app_nil_r. repeat split; auto; discriminate.
  - pose proof (test_login_log P b pf key) as Hlog.
    destruct (test_login_with_password_format P b pf key) as [b1 ok1] eqn:Htest.
    simpl in Hlog. destruct ok1.
    + inversion Hrun; subst.
      exists [PostLogin pf (if truthy key then key else None)], 1%nat.
      repeat split; auto; simpl; try lia; try discriminate.
      intros _. exists b, pf. repeat split; auto.
    + set (b2 := match rest with [] => b1 | _ :: _ => human_like_delay b1 2 4 end) in Hrun.
      assert (Hb2 : exists pause, log b2 = (log b1 ++ pause)%list /\ posted_passwords pause = []).
      { subst b2. destruct rest.
        - exists []. rewrite app_nil_r. auto.
        - exists [Delay 2 4]. auto. }
      destruct Hb2 as (pause & Hb2 & Hpause).
      destruct (IH _ _ _ Hrun) as (made & n & Hmade & Hposted & Hle & Hfail & Hwin).
      exists ([PostLogin pf (if truthy key then key else None)] ++ pause ++ made)%list, (S n).
      split; [|split; [|split; [|split]]].
      * rewrite Hmade, Hb2, Hlog. rewrite <- !app_assoc. reflexivity.
      * rewrite !posted_passwords_app, Hpause, Hposted. reflexivity.
      * simpl. lia.
      * intros Hok. simpl. f_equal. auto.
      * intros Hok. destruct (Hwin Hok) as (b_pre & pf' & Hn & Hlook & Hlast).
        exists b_pre, pf'. split; [lia|]. split; [|exact Hlast].
        replace (S n - 1)%nat with (S (n - 1)) by lia. exact Hlook.
Qed.

Lemma get_csrf_token_and_key_log (P : platform) (b : bot) :
  log (get_csrf_token_and_key P b).1 = (log b ++ [GetLoginPage])%list
  /\ password (get_csrf_token_and_key P b).1 = password b.
Proof.
  unfold get_csrf_token_and_key.
  destruct (login_page_of P _) as [page|]; [|auto].
  destruct (negb _); [auto|]. destruct (lp_found_key page) as [[c rest]|]; auto.
Qed.

Lemma append_nonempty (a b : string) : b <> "" -> (a ++ b)%string <> "".
Proof.
  intros Hb. destruct a as [|c rest]; [exact Hb|discriminate].
Qed.

Lemma page_key_nonempty (page : login_page) : page_key page <> "".
Proof.
  unfold page_key. destruct (lp_found_key page) as [[c rest]|]; [discriminate|].
  apply append_nonempty. discriminate.
Qed.

(** The key is read off the reply to the one request for the login page:
    a page fetched with status 200 always yields one (its own, or one the
    bot builds), anything else yields none. *)
Lemma get_csrf_token_and_key_key (P : platform) (b : bot) :
  (get_csrf_token_and_key P b).2
  = key_of_reply (login_page_of P (log b ++ [GetLoginPage])).
Proof.
  unfold get_csrf_token_and_key, key_of_reply, page_key. cbn [emit with_log log].
  destruct (login_page_of P _) as [page|]; [|reflexivity].
  destruct (lp_status page =? 200); cbn [negb]; [|reflexivity].
  destruct (lp_found_key page) as [[c rest]|]; reflexivity.
Qed.

Lemma key_of_reply_truthy (reply : option login_page) :
  truthy (key_of_reply reply)
  = match key_of_reply reply with Some _ => true | None => false end.
Proof.
  unfold key_of_reply. destruct reply as [page|]; [|reflexivity].
  destruct (lp_status page =? 200); [|reflexivity].
  cbn [truthy]. apply negb_true_iff, String.eqb_neq, page_key_nonempty.
Qed.

(** The candidate loop, attempt by attempt: every attempt before the last
    one posted was classified as a failure; the loop fails only when
    every candidate was, and succeeds with the state of the first attempt
    classified as a success. *)
Lemma try_candidates_verdicts (P : platform) (key : option string)
    (candidates : list string) :
  forall (b b' : bot) (ok : bool),
    try_candidates P key b candidates = (b', ok) ->
    exists (made : list call) (n : nat),
      log b' = (log b ++ made)%list
      /\ posted_passwords made = take n candidates
      /\ (n <= length candidates)%nat
      /\ (forall i, (S i < n)%nat -> verdict P key b candidates i = Some false)
      /\ (ok = false ->
          n = length candidates
          /\ forall i, (i < n)%nat -> verdict P key b candidates i = Some false)
      /\ (ok = true ->
          exists pf : string,
            (1 <= n)%nat /\ candidates !! (n - 1)%nat = Some pf
            /\ test_login_with_password_format
                 P (bot_before P key b candidates (n - 1)) pf key = (b', true)).
Proof.
  induction candidates as [|pf rest IH]; intros b b' ok Hrun; cbn [try_candidates] in Hrun.
  - inversion Hrun; subst. exists [], 0%nat. rewrite app_nil_r.
    split; [reflexivity|]. split; [reflexivity|]. split; [cbn; lia|].
    split; [intros i Hi; lia|]. split; [|discriminate].
    intros _. split; [reflexivity|]. intros i Hi. lia.
  - pose proof (test_login_log P b pf key) as Hlog.
    destruct (test_login_with_password_format P b pf key) as [b1 ok1] eqn:Htest.
    cbn [fst] in Hlog. destruct ok1.
    + inversion Hrun; subst.
      exists [PostLogin pf (if truthy key then key else None)], 1%nat.
      split; [exact Hlog|]. split; [reflexivity|]. split; [cbn; lia|].
      split; [intros i Hi; lia|]. split; [discriminate|].
      intros _. exists pf. split; [lia|]. split; [reflexivity|]. exact Htest.
    + set (b2 := match rest with [] => b1 | _ :: _ => human_like_delay b1 2 4 end) in Hrun.
      assert (Hb2 : exists pause, log b2 = (log b1 ++ pause)%list /\ posted_passwords pause = []).
      { subst b2. destruct rest.
        - exists []. rewrite app_nil_r. auto.
        - exists [Delay 2 4]. auto. }
      destruct Hb2 as (pause & Hb2 & Hpause).
      destruct (IH _ _ _ Hrun) as (made & n & Hmade & Hposted & Hle & Hbefore & Hfail & Hwin).
      assert (Hhead : verdict P key b (pf :: rest) 0 = Some false).
      { unfold verdict. cbn. rewrite Htest. reflexivity. }
      assert (Htail : forall j, verdict P key b (pf :: rest) (S j) = verdict P key b2 rest j).
      { intros j. unfold verdict. cbn [bot_before]. rewrite Htest. reflexivity. }
      exists ([PostLogin pf (if truthy key then key else None)] ++ pause ++ made)%list, (S n).
      split; [rewrite Hmade, Hb2, Hlog, <- !app_assoc; reflexivity|].
      split; [rewrite !posted_passwords_app, Hpause, Hposted; reflexivity|].
      split; [cbn; lia|].
      split; [|split].
      * intros [|j] Hj; [exact Hhead|]. rewrite Htail. apply Hbefore. lia.
      * intros Hok. destruct (Hfail Hok) as [Hn Hall]. split; [cbn; lia|].
        intros [|j] Hj; [exact Hhead|]. rewrite Htail. apply Hall. lia.
      * intros Hok. destruct (Hwin Hok) as (pf' & Hn & Hlook & Hlast).
        exists pf'. split; [lia|].
        replace (S n - 1)%nat with (S (n - 1)) by lia.
        split; [exact Hlook|]. cbn [bot_before]. rewrite Htest. exact Hlast.
Qed.

Lemma generate_password_hash_length (H : hashlib) (pw : string) (key : option string) :
  length (generate_password_hash H pw key) = if truthy key then 8%nat else 4%nat.
Proof.
  unfold generate_password_hash. destruct key as [k|]; [|reflexivity].
  destruct (truthy (Some k)); reflexivity.
Qed.

(** One negotiation: at most eight posts of the login form, and exactly
    as many as there are candidates when it fails. *)
Lemma analyze_network_request_attempts (H : hashlib) (P : platform) (b : bot) :
  exists made : list call,
    log (analyze_network_request H P b).1 = (log b ++ made)%list
    /\ (login_attempts made <= 8)%nat
    /\ ((analyze_network_request H P b).2 = false ->
        login_attempts made
        = if truthy (get_csrf_token_and_key P b).2 then 8%nat else 4%nat).
Proof.
  unfold analyze_network_request.
  destruct (get_csrf_token_and_key_log P b) as [Hlog Hpw].
  destruct (get_csrf_token_and_key P b) as [b1 key]. simpl in *.
  destruct (try_candidates P key b1 (generate_password_hash H (password b1) key))
    as [b' ok] eqn:Hrun.
  destruct (try_candidates_spec _ _ _ _ _ _ Hrun) as (made & n & Hmade & Hposted & Hle & Hfail & _).
  rewrite generate_password_hash_length in Hle, Hfail.
  exists ([GetLoginPage] ++ made)%list. simpl.
  split; [|split].
  - rewrite Hmade, Hlog, <- app_assoc. reflexivity.
  - unfold login_attempts. simpl. rewrite Hposted, length_take.
    destruct (truthy key); lia.
  - intros Hok. unfold login_attempts. simpl. rewrite Hposted, length_take.
    rewrite generate_password_hash_length, (Hfail Hok). destruct (truthy key); lia.
Qed.

(** C5, as the code has it. The key is the one [get_csrf_token_and_key]
    returns: a login page fetched with status 200 always yields one (the
    key found in it or, when it holds none, the one the bot builds from
    the time and random characters), and it is never empty; no page or
    another status yields none. The candidates are, in this order: the
    plaintext, its MD5, SHA-1 and SHA-256 digests and, only when there is
    a key, MD5 of secret-then-key, MD5 of key-then-secret, SHA-1 of
    secret-then-key and SHA-256 of secret-then-key. The negotiation posts
    a prefix of that list in order. The first attempt classified as
    successful wins: every attempt before it was classified as a
    failure, the negotiation ends in the state of that attempt, and
    nothing is posted after it. The negotiation fails only once every
    candidate has been posted and classified as a failure. *)
Theorem negotiation_tries_candidates_in_order (H : hashlib) (P : platform) (b : bot) :
  let start := get_csrf_token_and_key P b in
  let key := start.2 in
  let candidates := generate_password_hash H (password b) key in
  key = key_of_reply (login_page_of P (log b ++ [GetLoginPage]))
  /\ (forall k, key = Some k -> k <> "")
  /\ candidates
     = ([password b; md5 H (password b); sha1 H (password b); sha256 H (password b)]
        ++ match key with
           | Some k =>
               [md5 H (password b ++ k); md5 H (k ++ password b);
                sha1 H (password b ++ k); sha256 H (password b ++ k)]
           | None => []
           end)%list
  /\ exists (made : list call) (n : nat),
       log (analyze_network_request H P b).1 = (log b ++ GetLoginPage :: made)%list
       /\ posted_passwords made = take n candidates
       /\ (forall i, (S i < n)%nat -> verdict P key start.1 candidates i = Some false)
       /\ ((analyze_network_request H P b).2 = false ->
           n = length candidates
           /\ forall i, (i < n)%nat -> verdict P key start.1 candidates i = Some false)
       /\ ((analyze_network_request H P b).2 = true ->
           exists pf : string,
             (1 <= n)%nat /\ candidates !! (n - 1)%nat = Some pf
             /\ verdict P key start.1 candidates (n - 1) = Some true
             /\ test_login_with_password_format
                  P (bot_before P key start.1 candidates (n - 1)) pf key
                = ((analyze_network_request H P b).1, true)).
Proof.
  intros start key candidates.
  assert (Hkey : key = key_of_reply (login_page_of P (log b ++ [GetLoginPage])))
    by apply get_csrf_token_and_key_key.
  assert (Hne : forall k, key = Some k -> k <> "").
  { intros k Hk. rewrite Hkey in Hk. unfold key_of_reply in Hk.
    destruct (login_page_of P _) as [page|]; [|discriminate].
    destruct (lp_status page =? 200); [|discriminate].
    inversion Hk. apply page_key_nonempty. }
  split; [exact Hkey|]. split; [exact Hne|]. split.
  - subst candidates. unfold generate_password_hash.
    destruct key as [k|] eqn:Hk; [|reflexivity].
    cbn [truthy]. specialize (Hne k eq_refl).
    apply String.eqb_neq in Hne. rewrite Hne. reflexivity.
  - subst candidates key start. unfold analyze_network_request.
    destruct (get_csrf_token_and_key_log P b) as [Hlog Hpw].
    destruct (get_csrf_token_and_key P b) as [b1 key]. cbn [fst snd] in *.
    rewrite Hpw.
    destruct (try_candidates P key b1 (generate_password_hash H (password b) key))
      as [b' ok] eqn:Hrun.
    destruct (try_candidates_verdicts _ _ _ _ _ _ Hrun)
      as (made & n & Hmade & Hposted & Hle & Hbefore & Hfail & Hwin).
    exists made, n. cbn [fst snd]. split; [|split; [|split; [|split]]].
    + rewrite Hmade, Hlog, <- app_assoc. reflexivity.
    + exact Hposted.
    + exact Hbefore.
    + exact Hfail.
    + intros Hok. destruct (Hwin Hok) as (pf & Hn & Hlook & Hlast).
      exists pf. split; [exact Hn|]. split; [exact Hlook|]. split; [|exact Hlast].
      unfold verdict. rewrite Hlook. cbn. rewrite Hlast. reflexivity.
Qed.

(** C5 as stated fails: the four key combinations the code builds are not
    secret-then-key and key-then-secret under two digests, whichever two
    digests are chosen. *)
Lemma key_combinations_not_two_digests :
  ~ exists d1 d2 : digest,
      forall c : string,
        c ∈ drop 4 (generate_password_hash tagging_hashlib "secret" (Some "k")) ->
        c ∈ spec_key_combinations tagging_hashlib d1 d2 "secret" "k".
Proof.
  intros (d1 & d2 & Hsub).
  assert (Hmd5 := Hsub "md5(secretk)").
  assert (Hsha1 := Hsub "sha1(secretk)").
  assert (Hsha256 := Hsub "sha256(secretk)").
  rewrite !list_elem_of_In in Hmd5, Hsha1, Hsha256.
  specialize (Hmd5 ltac:(simpl; tauto)).
  specialize (Hsha1 ltac:(simpl; tauto)).
  specialize (Hsha256 ltac:(simpl; tauto)).
  destruct d1, d2; simpl in Hmd5, Hsha1, Hsha256; intuition discriminate.
Qed.

End AutoLoginFacts.

Section OracleFacts.

Import QuizBot.

Lemma api_search_disabled (P : platform) (b : bot) (q : string) :
  oracle_disabled b = true -> api_search P b q = (b, None).
Proof.
  unfold oracle_disabled, api_search. intros Hoff.
  destruct (negb (api_available b)); [reflexivity|].
  rewrite orb_false_l in Hoff. rewrite Hoff. reflexivity.
Qed.

Lemma api_search_bank (P : platform) (b : bot) (q : string) :
  question_bank (api_search P b q).1 = question_bank b.
Proof.
  unfold api_search.
  destruct (negb (api_available b)); [reflexivity|].
  destruct (3 <=? api_error_count b)%nat; [reflexivity|].
  destruct (read_oracle_response _); repeat break_if; reflexivity.
Qed.

Lemma find_answer_bank (P : platform) (b : bot) (q : string) :
  question_bank (find_answer P b q).1 = question_bank b.
Proof.
  unfold find_answer. destruct (lookup_bank _ _); [reflexivity|apply api_search_bank].
Qed.

(** A lookup leaves the log alone or adds one Oracle request to it. *)
Lemma find_answer_log (P : platform) (b : bot) (q : string) :
  log (find_answer P b q).1 = log b
  \/ log (find_answer P b q).1 = (log b ++ [PostOracle q])%list.
Proof.
  unfold find_answer, api_search.
  destruct (lookup_bank _ _); [left; reflexivity|].
  destruct (negb (api_available b)); [left; reflexivity|].
  destruct (3 <=? api_error_count b)%nat; [left; reflexivity|].
  right. destruct (read_oracle_response _); repeat break_if; reflexivity.
Qed.

Lemma find_answer_disabled (P : platform) (b : bot) (q : string) :
  oracle_disabled b = true ->
  find_answer P b q = (b, lookup_bank (question_bank b) q).
Proof.
  intros Hoff. unfold find_answer.
  destruct (lookup_bank _ _); [reflexivity|apply api_search_disabled, Hoff].
Qed.

(** One failed lookup: either the Oracle was off already, or the error
    count went up by one and the Oracle is switched off at three. *)
Lemma find_answer_failure (P : platform) (b : bot) (q : string) :
  lookup_bank (question_bank b) q = None ->
  oracle_fails P b q ->
  (oracle_disabled b = true /\ (find_answer P b q).1 = b)
  \/ (oracle_disabled b = false
      /\ api_error_count (find_answer P b q).1 = S (api_error_count b)
      /\ api_available (find_answer P b q).1 = negb (3 <=? S (api_error_count b))%nat).
Proof.
  intros Hbank Hfail. destruct (oracle_disabled b) eqn:Hoff.
  - left. rewrite find_answer_disabled by exact Hoff. auto.
  - right. split; [reflexivity|].
    unfold find_answer, api_search. rewrite Hbank.
    unfold oracle_disabled in Hoff. apply orb_false_iff in Hoff as [Hav Hcnt].
    rewrite Hav, Hcnt. unfold oracle_fails in Hfail.
    cbn -[Nat.leb]. rewrite Hfail. cbn -[Nat.leb].
    apply negb_false_iff in Hav.
    destruct (3 <=? S (api_error_count b))%nat; cbn -[Nat.leb]; rewrite ?Hav; auto.
Qed.

Lemma find_answer_failure_strikes (P : platform) (b : bot) (q : string) :
  lookup_bank (question_bank b) q = None ->
  oracle_fails P b q ->
  oracle_disabled (find_answer P b q).1 = true
  \/ (S (api_error_count b) <= api_error_count (find_answer P b q).1)%nat.
Proof.
  intros Hbank Hfail.
  destruct (find_answer_failure P b q Hbank Hfail) as [[Hoff Heq]|(_ & Hcnt & _)].
  - left. rewrite Heq. exact Hoff.
  - right. lia.
Qed.

Lemma find_answer_failure_keeps_off (P : platform) (b : bot) (q : string) :
  lookup_bank (question_bank b) q = None ->
  oracle_fails P b q ->
  (api_error_count b < 3)%nat \/ api_available b = false ->
  (api_error_count (find_answer P b q).1 < 3)%nat
  \/ api_available (find_answer P b q).1 = false.
Proof.
  intros Hbank Hfail Hwf.
  destruct (find_answer_failure P b q Hbank Hfail) as [[Hoff Heq]|(_ & Hcnt & Hav)].
  - rewrite Heq. exact Hwf.
  - rewrite Hcnt, Hav. destruct (3 <=? S (api_error_count b))%nat eqn:Hle.
    + right. reflexivity.
    + left. apply Nat.leb_gt in Hle. lia.
Qed.

Lemma answer_one_disabled (P : platform) (st : answering) (q_ul : question_ul) :
  oracle_disabled (a_bot st) = true -> a_bot (answer_one P st q_ul) = a_bot st.
Proof.
  intros Hoff. unfold answer_one. destruct (q_title q_ul) as [text|]; [|reflexivity].
  rewrite find_answer_disabled by exact Hoff.
  destruct (answer_truthy _); [|reflexivity].
  destruct (q_input_name q_ul) as [name|]; [|reflexivity].
  destruct (negb _); reflexivity.
Qed.

Lemma fold_answer_one_disabled (P : platform) (question_uls : list question_ul) :
  forall st : answering,
    oracle_disabled (a_bot st) = true ->
    a_bot (fold_left (answer_one P) question_uls st) = a_bot st.
Proof.
  induction question_uls as [|q_ul rest IH]; intros st Hoff; simpl; [reflexivity|].
  rewrite IH; rewrite answer_one_disabled; auto.
Qed.

Lemma oracle_calls_app (l1 l2 : list call) :
  oracle_calls (l1 ++ l2) = (oracle_calls l1 + oracle_calls l2)%nat.
Proof. unfold oracle_calls. rewrite List.filter_app, length_app. reflexivity. Qed.

Lemma oracle_calls_emit (b : bot) (c : call) :
  is_oracle_post c = false -> oracle_calls (log (emit b c)) = oracle_calls (log b).
Proof.
  intros Hc. unfold emit, with_log. cbn [log]. rewrite oracle_calls_app.
  unfold oracle_calls at 2. cbn [List.filter]. rewrite Hc. cbn [length]. lia.
Qed.

Lemma auto_answer_with_report_disabled
    (P : platform) (b : bot) (exam : Z) (submit strict : bool) (rate : Q) :
  oracle_disabled b = true ->
  oracle_calls (log (auto_answer_with_report P b exam submit strict rate).1)
  = oracle_calls (log b)
  /\ oracle_disabled (auto_answer_with_report P b exam submit strict rate).1 = true.
Proof.
  intros Hoff.
  pose proof (oracle_calls_emit b (GetExam exam) eq_refl) as Hcalls.
  assert (Hoff1 : oracle_disabled (emit b (GetExam exam)) = true) by exact Hoff.
  unfold auto_answer_with_report.
  set (b1 := emit b (GetExam exam)) in *.
  destruct (exam_page_of P _) as [e|page]; [auto|].
  destruct (negb _); [auto|].
  destruct (ep_form_action page) as [url|]; [|auto].
  destruct (ep_questions page) as [|q_ul rest] eqn:Hqs; [auto|].
  unfold answer_questions.
  set (st := fold_left _ _ _).
  assert (Hbot : a_bot st = b1).
  { subst st. rewrite fold_answer_one_disabled; [reflexivity|exact Hoff1]. }
  rewrite Hbot.
  repeat break_if; try (split; assumption).
  match goal with
  | |- context [emit b1 ?c] => pose proof (oracle_calls_emit b1 c eq_refl) as Hcalls2
  end.
  destruct (submit_post P _) as [e|code]; [|destruct (code =? 200)];
    cbn [fst]; (split; [cbn [log set_completed] in *; lia | exact Hoff]).
Qed.

Lemma run_chapters_disabled (c : Plugin.config) (P : platform) (chapters : list chapter) :
  forall (b : bot) (t : Plugin.tally),
    oracle_disabled b = true ->
    oracle_calls (log (Plugin.run_chapters c P b t chapters).1) = oracle_calls (log b)
    /\ oracle_disabled (Plugin.run_chapters c P b t chapters).1 = true.
Proof.
  induction chapters as [|ch rest IH]; intros b t Hoff; simpl; [auto|].
  destruct (cancel_is_set P (log b)); [auto|].
  destruct (auto_answer_with_report_disabled P b (exam_id ch) (Plugin.auto_submit c)
              (Plugin.strict_mode c) (Plugin.min_answer_rate c) Hoff) as [Hcalls Hoff1].
  destruct (auto_answer_with_report _ _ _ _ _ _) as [b1 rep]. simpl in *.
  destruct (Plugin.record_report c t ch rep) as [t1 stop].
  destruct stop; simpl; [auto|].
  destruct (IH b1 t1 Hoff1) as [Hcalls2 Hoff2]. split; [lia|exact Hoff2].
Qed.

(** C6. Three lookups in a row that end in an Oracle-level error switch
    the Oracle off. From then on, whatever the platform does and however
    many chapters the loop goes through, no further Oracle request is
    sent, the Oracle stays off, and a question absent from the bank
    resolves to [None] with no call made. An Oracle answer, on the other
    hand, puts the error count back to zero. *)
Theorem oracle_disabled_after_three_failures
    (P : platform) (b : bot) (q1 q2 q3 : string) :
  let b1 := (find_answer P b q1).1 in
  let b2 := (find_answer P b1 q2).1 in
  let b3 := (find_answer P b2 q3).1 in
  lookup_bank (question_bank b) q1 = None ->
  lookup_bank (question_bank b) q2 = None ->
  lookup_bank (question_bank b) q3 = None ->
  oracle_fails P b q1 -> oracle_fails P b1 q2 -> oracle_fails P b2 q3 ->
  oracle_disabled b3 = true
  /\ ((api_error_count b < 3)%nat \/ api_available b = false -> api_available b3 = false)
  /\ (forall (P' : platform) (c : Plugin.config) (t : Plugin.tally)
             (chapters : list chapter),
        let b4 := (Plugin.run_chapters c P' b3 t chapters).1 in
        oracle_calls (log b4) = oracle_calls (log b3)
        /\ oracle_disabled b4 = true
        /\ (forall (P'' : platform) (q : string),
              lookup_bank (question_bank b4) q = None ->
              find_answer P'' b4 q = (b4, None)))
  /\ (forall (P' : platform) (b' : bot) (q answer : string),
        oracle_disabled b' = false ->
        lookup_bank (question_bank b') q = None ->
        read_oracle_response (oracle_post P' (log b' ++ [PostOracle q])) = Answered answer ->
        (find_answer P' b' q).2 = Some answer
        /\ api_error_count (find_answer P' b' q).1 = 0%nat
        /\ oracle_disabled (find_answer P' b' q).1 = false).
Proof.
  intros b1 b2 b3 Hq1 Hq2 Hq3 Hf1 Hf2 Hf3.
  assert (Hbank1 : question_bank b1 = question_bank b) by apply find_answer_bank.
  assert (Hbank2 : question_bank b2 = question_bank b)
    by (subst b2; rewrite find_answer_bank; exact Hbank1).
  rewrite <- Hbank1 in Hq2. rewrite <- Hbank2 in Hq3.
  assert (Hoff3 : oracle_disabled b3 = true).
  { destruct (find_answer_failure_strikes P b q1 Hq1 Hf1) as [Hoff|Hc1].
    - fold b1 in Hoff. subst b3 b2.
      rewrite (find_answer_disabled P b1 q2 Hoff). simpl.
      rewrite (find_answer_disabled P b1 q3 Hoff). exact Hoff.
    - fold b1 in Hc1.
      destruct (find_answer_failure_strikes P b1 q2 Hq2 Hf2) as [Hoff|Hc2].
      + fold b2 in Hoff. subst b3. rewrite (find_answer_disabled P b2 q3 Hoff). exact Hoff.
      + fold b2 in Hc2.
        destruct (find_answer_failure_strikes P b2 q3 Hq3 Hf3) as [Hoff|Hc3]; [exact Hoff|].
        fold b3 in Hc3. unfold oracle_disabled. apply orb_true_iff. right.
        apply Nat.leb_le. lia. }
  split; [exact Hoff3|]. split; [|split].
  - intros Hwf.
    pose proof (find_answer_failure_keeps_off P b q1 Hq1 Hf1 Hwf) as Hwf1. fold b1 in Hwf1.
    pose proof (find_answer_failure_keeps_off P b1 q2 Hq2 Hf2 Hwf1) as Hwf2. fold b2 in Hwf2.
    pose proof (find_answer_failure_keeps_off P b2 q3 Hq3 Hf3 Hwf2) as Hwf3. fold b3 in Hwf3.
    unfold oracle_disabled in Hoff3. apply orb_true_iff in Hoff3 as [Hav|Hcnt].
    + apply negb_true_iff in Hav. exact Hav.
    + apply Nat.leb_le in Hcnt. destruct Hwf3; [lia|assumption].
  - intros P' c t chapters b4.
    destruct (run_chapters_disabled c P' chapters b3 t Hoff3) as [Hcalls Hoff4].
    split; [exact Hcalls|]. split; [exact Hoff4|].
    intros P'' q Hq. rewrite find_answer_disabled by exact Hoff4. rewrite Hq. reflexivity.
  - intros P' b' q answer Hon Hq Hans.
    unfold find_answer, api_search. rewrite Hq.
    unfold oracle_disabled in Hon. apply orb_false_iff in Hon as [Hav Hcnt].
    rewrite Hav, Hcnt. simpl. rewrite Hans. simpl.
    repeat split. unfold oracle_disabled. simpl.
    apply negb_false_iff in Hav. rewrite Hav. reflexivity.
Qed.

Lemma oracle_disabled_after_three_failures_witness :
  let b3 :=
    (find_answer down_platform
       (find_answer down_platform
          (find_answer down_platform (new_bot "alice" "secret") "q1").1 "q2").1 "q3").1 in
  oracle_disabled b3 = true
  /\ api_available b3 = false
  /\ find_answer answering_platform b3 "q4" = (b3, None)
  /\ (find_answer answering_platform
        (find_answer down_platform (new_bot "alice" "secret") "q1").1 "q2").2 = Some "A"
  /\ api_error_count
       (find_answer answering_platform
          (find_answer down_platform (new_bot "alice" "secret") "q1").1 "q2").1 = 0%nat.
Proof.
  destruct (oracle_disabled_after_three_failures down_platform (new_bot "alice" "secret")
              "q1" "q2" "q3" eq_refl eq_refl eq_refl eq_refl eq_refl eq_refl)
    as (Hoff & Havailable & Hlater & Hreset).
  cbv zeta. split; [exact Hoff|]. split; [apply Havailable; left; cbn; lia|].
  destruct (Hlater answering_platform Plugin.default_config Plugin.empty_tally [])
    as (_ & _ & Hnone).
  split; [apply (Hnone answering_platform "q4"); reflexivity|].
  destruct (Hreset answering_platform
              (find_answer down_platform (new_bot "alice" "secret") "q1").1 "q2" "A"
              eq_refl eq_refl eq_refl) as (Hanswer & Hcount & _).
  split; [exact Hanswer|exact Hcount].
Defined.

End OracleFacts.
Section RetryFacts.

Import APIClient.






End RetryFacts.
Section AcceptanceFacts.

Import QuizBot Plugin.

Lemma submit_calls_app (l1 l2 : list call) :
  submit_calls (l1 ++ l2) = (submit_calls l1 + submit_calls l2)%nat.
Proof. unfold submit_calls. rewrite List.filter_app, length_app. reflexivity. Qed.

Lemma find_answer_submit_calls (P : platform) (b : bot) (q : string) :
  submit_calls (log (find_answer P b q).1) = submit_calls (log b).
Proof.
  destruct (find_answer_log P b q) as [Hlog|Hlog]; rewrite Hlog; [reflexivity|].
  rewrite submit_calls_app. unfold submit_calls at 2. simpl. lia.
Qed.

Lemma dict_set_nonempty (d : list (string * string)) (k v : string) :
  dict_set d k v <> [].
Proof. destruct d as [|[k' v'] rest]; simpl; [|destruct (String.eqb k' k)]; discriminate. Qed.

Lemma answer_one_ok (P : platform) (n : nat) (st : answering) (q_ul : question_ul) :
  answering_ok n st -> answering_ok n (answer_one P st q_ul).
Proof.
  intros [Hcalls Hdata]. unfold answer_one.
  destruct (q_title q_ul) as [text|]; [|split; assumption].
  pose proof (find_answer_submit_calls P (a_bot st) text) as Hfind.
  destruct (find_answer P (a_bot st) text) as [b1 answer]. simpl in Hfind.
  destruct (answer_truthy answer).
  - destruct (q_input_name q_ul) as [name|].
    + destruct (negb (String.eqb name "")); split; simpl; try lia; auto.
      intros Habs. exfalso. exact (dict_set_nonempty _ _ _ Habs).
    + split; simpl; [lia|auto].
  - split; simpl; [lia|auto].
Qed.

Lemma fold_answer_one_ok (P : platform) (n : nat) (question_uls : list question_ul) :
  forall st : answering,
    answering_ok n st -> answering_ok n (fold_left (answer_one P) question_uls st).
Proof.
  induction question_uls as [|q_ul rest IH]; intros st Hok; simpl; [exact Hok|].
  apply IH, answer_one_ok, Hok.
Qed.

Lemma round_half_even_nonneg (n d : Z) :
  0 <= n -> 0 < d -> 0 <= round_half_even n d.
Proof.
  intros Hn Hd. unfold round_half_even.
  pose proof (Z.div_pos n d Hn Hd) as Hq.
  destruct (_ ?= _); [destruct (Z.even _)| |]; lia.
Qed.

Lemma round64_pos_nonneg (n d : Z) :
  0 < n -> 0 < d -> 0 <= Qnum (round64_pos n d).
Proof.
  intros Hn Hd. unfold round64_pos.
  set (e := Z.max (binade n d - 52) (-1074)).
  destruct (0 <=? e) eqn:He; cbn [Qnum].
  - apply Z.leb_le in He. apply Z.mul_nonneg_nonneg.
    + apply round_half_even_nonneg; [lia|].
      apply Z.mul_pos_pos; [exact Hd|]. apply Z.pow_pos_nonneg; lia.
    + apply Z.pow_nonneg. lia.
  - apply round_half_even_nonneg; [|exact Hd].
    apply Z.mul_nonneg_nonneg; [lia|]. apply Z.pow_nonneg. lia.
Qed.

Lemma round64_nonneg (q : Q) : 0 <= Qnum q -> 0 <= Qnum (round64 q).
Proof.
  intros Hq. unfold round64. destruct (Qnum q) as [|n|n] eqn:Hn.
  - cbn. lia.
  - apply round64_pos_nonneg; lia.
  - lia.
Qed.

Lemma rate_below_zero (answered total : nat) :
  rate_below answered total (0 # 1) = false.
Proof.
  unfold rate_below. apply negb_false_iff, Qle_bool_iff.
  change (round64 (0 # 1)) with (0 # 1).
  assert (Hrate : 0 <= Qnum (round64 (Qmake (Z.of_nat answered) 1
                                      / Qmake (Z.of_nat total) 1))).
  { apply round64_nonneg. unfold Qdiv, Qmult, Qinv. simpl.
    destruct total; simpl; lia. }
  unfold Qle. cbn [Qnum Qden]. lia.
Qed.

Lemma submit_calls_emit (b : bot) (c : call) :
  submit_calls (log (emit b c))
  = (submit_calls (log b) + if is_submit_post c then 1 else 0)%nat.
Proof.
  unfold emit, with_log. cbn [log]. rewrite submit_calls_app.
  unfold submit_calls at 2. cbn [List.filter]. destruct (is_submit_post c); reflexivity.
Qed.

(** The state of the question loop behind a report that counted at least
    one question. *)
Lemma auto_answer_with_report_answered
    (P : platform) (b : bot) (exam : Z) (submit strict : bool) (rate : Q) :
  (0 < r_total (auto_answer_with_report P b exam submit strict rate).2)%nat ->
  exists (page : exam_page) (url : string),
    exam_page_of P (log (emit b (GetExam exam))) = inr page
    /\ (ep_status page =? 200) = true
    /\ ep_form_action page = Some url
    /\ ep_questions page <> []
    /\ answering_ok (submit_calls (log b))
         (answer_questions P (emit b (GetExam exam)) (ep_questions page)).
Proof.
  unfold auto_answer_with_report.
  destruct (exam_page_of P _) as [e|page] eqn:Hpage; [simpl; lia|].
  destruct (ep_status page =? 200) eqn:Hstatus; [|simpl; lia].
  destruct (ep_form_action page) as [url|] eqn:Hform; [|simpl; lia].
  destruct (ep_questions page) as [|q_ul rest] eqn:Hqs; [simpl; lia|].
  intros _. exists page, url.
  split; [reflexivity|]. split; [exact Hstatus|]. split; [exact Hform|].
  split; [rewrite Hqs; discriminate|]. rewrite Hqs.
  unfold answer_questions. apply fold_answer_one_ok. split; [|reflexivity].
  cbn [a_bot]. rewrite submit_calls_emit. simpl. lia.
Qed.

(** Opens [auto_answer_with_report] on a page whose questions were
    counted, leaving the policy decisions in the goal. *)
Ltac open_report Hrun st :=
  let page := fresh "page" in
  let url := fresh "url" in
  let Hpage := fresh "Hpage" in
  let Hstatus := fresh "Hstatus" in
  let Hform := fresh "Hform" in
  let Hqs := fresh "Hqs" in
  let Hok := fresh "Hok" in
  destruct (auto_answer_with_report_answered _ _ _ _ _ _ Hrun)
    as (page & url & Hpage & Hstatus & Hform & Hqs & Hok);
  revert Hrun; unfold auto_answer_with_report;
  rewrite Hpage, Hstatus, Hform; cbn [negb];
  destruct (ep_questions page); [contradiction|];
  set (st := answer_questions _ _ _) in *;
  let Hzero := fresh "Hzero" in
  destruct (a_total st =? 0)%nat eqn:Hzero;
    [apply Nat.eqb_eq in Hzero; cbn [snd r_total]; intros; lia|].

(** C2, as the code has it. For a chapter of which at least one question
    was counted: in strict mode with an unanswered question the report
    says [insufficient_answers], nothing is submitted, and the chapter
    loop stops there, whatever chapters remain; without strict mode and
    with the answered share not below the minimum rate (which a rate of 0
    never is), the answers are submitted, once, provided submission is
    switched on and at least one answer was recorded. *)
Theorem chapter_acceptance_policy
    (c : config) (P : platform) (b : bot) (t : tally) (ch : chapter)
    (rest : list chapter) :
  let run := auto_answer_with_report P b (exam_id ch) (auto_submit c) (strict_mode c)
               (min_answer_rate c) in
  (0 < r_total run.2)%nat ->
  (strict_mode c = true -> (0 < r_missing run.2)%nat ->
     r_status run.2 = status_insufficient
     /\ r_success run.2 = false
     /\ submit_calls (log run.1) = submit_calls (log b)
     /\ run_chapters c P b t (ch :: rest) = run_chapters c P b t [ch])
  /\ (strict_mode c = false ->
      rate_below (r_answered run.2) (r_total run.2) (min_answer_rate c) = false ->
      auto_submit c = true -> (0 < r_answered run.2)%nat ->
      submit_calls (log run.1) = S (submit_calls (log b))
      /\ exists (url : string) (data : list (string * string)),
           last (log run.1) = Some (PostSubmit url data) /\ data <> [])
  /\ (forall answered total : nat, rate_below answered total (0 # 1) = false).
Proof.
  intros run Htotal. split; [|split; [|apply rate_below_zero]].
  - intros Hstrict Hmissing.
    assert (Hrep : r_status run.2 = status_insufficient /\ r_success run.2 = false
                   /\ submit_calls (log run.1) = submit_calls (log b)).
    { revert Hmissing. subst run. open_report Htotal st. rewrite Hstrict.
      cbn [andb]. destruct (0 <? failed_count st)%nat eqn:Hfailed.
      - intros _ _. cbn [fst snd r_status r_success]. destruct Hok as [Hcalls _]. auto.
      - intros _. apply Nat.ltb_ge in Hfailed.
        repeat break_if; try (cbn [snd r_missing]; intros; lia);
          destruct (submit_post P _); repeat break_if; cbn [snd r_missing]; intros; lia. }
    destruct Hrep as (Hstatus & Hsuccess & Hcalls). repeat split; auto.
    cbn [run_chapters]. destruct (cancel_is_set P (log b)); [reflexivity|].
    fold run. destruct run as [b1 rep]. cbn [snd] in Hstatus, Hsuccess.
    unfold record_report. rewrite Hsuccess, Hstatus. rewrite String.eqb_refl, Hstrict.
    reflexivity.
  - intros Hstrict Hrate Hsubmit Hanswered.
    revert Hrate Hanswered. subst run. open_report Htotal st. rewrite Hstrict, Hsubmit.
    cbn [andb negb].
    destruct (rate_below (a_answered st) (a_total st) (min_answer_rate c)) eqn:Hbelow.
    + intros _ Hr. cbn [snd r_answered r_total] in Hr. congruence.
    + destruct Hok as [Hcalls Hdata].
      destruct (answer_data st) as [|entry entries] eqn:Hentries.
      * intros _ _ Hans. cbn [snd r_answered] in Hans. specialize (Hdata eq_refl). lia.
      * intros _ _ _.
        assert (Hlog : forall r : bot * report,
                  log r.1 = log (emit (a_bot st) (PostSubmit url (entry :: entries))) ->
                  submit_calls (log r.1) = S (submit_calls (log b))
                  /\ exists (u : string) (data : list (string * string)),
                       last (log r.1) = Some (PostSubmit u data) /\ data <> []).
        { intros r Hr. rewrite Hr. split.
          - rewrite submit_calls_emit, Hcalls. simpl. lia.
          - exists url, (entry :: entries). split; [|discriminate].
            unfold emit, with_log. cbn [log]. apply last_snoc. }
        destruct (submit_post P _) as [e|code]; [|destruct (code =? 200)];
          apply Hlog; reflexivity.
Qed.

Lemma chapter_acceptance_policy_witness :
  (r_status (auto_answer_with_report five_question_platform banked_bot 71 true true (0 # 1)).2
   = status_insufficient
   /\ submit_calls
        (log (auto_answer_with_report five_question_platform banked_bot 71 true true (0 # 1)).1)
      = 0%nat
   /\ run_chapters strict_config five_question_platform banked_bot empty_tally
        [mkChapter 71 "第一章" ""; mkChapter 72 "第二章" ""]
      = run_chapters strict_config five_question_platform banked_bot empty_tally
          [mkChapter 71 "第一章" ""])
  /\ submit_calls
       (log (auto_answer_with_report five_question_platform banked_bot 71 true false (0 # 1)).1)
     = 1%nat.
Proof.
  split.
  - destruct (chapter_acceptance_policy strict_config five_question_platform banked_bot
                empty_tally (mkChapter 71 "第一章" "") [mkChapter 72 "第二章" ""])
      as (Hstrict & _ & _); [vm_compute; lia|].
    destruct Hstrict as (Hstatus & _ & Hcalls & Hstop);
      [reflexivity|vm_compute; lia|].
    split; [exact Hstatus|]. split; [exact Hcalls|exact Hstop].
  - destruct (chapter_acceptance_policy default_config five_question_platform banked_bot
                empty_tally (mkChapter 71 "第一章" "") [])
      as (_ & Hlenient & _); [vm_compute; lia|].
    destruct Hlenient as (Hcalls & _);
      [reflexivity|vm_compute; reflexivity|reflexivity|vm_compute; lia|].
    exact Hcalls.
Defined.

(** C2 as stated fails in its second half: with strict mode off, the
    default minimum rate of 0 and submission switched on, a chapter none
    of whose questions found an answer is not submitted. *)
Lemma lenient_chapter_without_answers_not_submitted :
  let run := auto_answer_with_report lone_question_platform (new_bot "alice" "secret") 71
               (auto_submit default_config) (strict_mode default_config)
               (min_answer_rate default_config) in
  strict_mode default_config = false
  /\ (0 < r_total run.2)%nat
  /\ rate_below (r_answered run.2) (r_total run.2) (min_answer_rate default_config) = false
  /\ submit_calls (log run.1) = 0%nat
  /\ r_success run.2 = false.
Proof.
  cbv zeta. split; [reflexivity|]. split; [vm_compute; lia|].
  split; [vm_compute; reflexivity|]. split; vm_compute; reflexivity.
Qed.

End AcceptanceFacts.
Section SelectionFacts.

Import AutoLogin QuizBot Plugin.

Lemma quiet_emit (b : bot) (c : call) :
  quiet (log b) -> beyond_discovery c = false -> quiet (log (emit b c)).
Proof.
  intros Hq Hc. unfold emit, with_log, quiet. cbn [log].
  apply Forall_app. split; [exact Hq|]. constructor; [exact Hc|constructor].
Qed.

Lemma test_login_quiet (P : platform) (b : bot) (pf : string) (key : option string) :
  quiet (log b) -> quiet (log (test_login_with_password_format P b pf key).1).
Proof.
  intros Hq. rewrite test_login_log. apply Forall_app. split; [exact Hq|].
  constructor; [reflexivity|constructor].
Qed.

Lemma try_candidates_quiet (P : platform) (key : option string) (candidates : list string) :
  forall b : bot, quiet (log b) -> quiet (log (try_candidates P key b candidates).1).
Proof.
  induction candidates as [|pf rest IH]; intros b Hq; simpl; [exact Hq|].
  pose proof (test_login_quiet P b pf key Hq) as Hq1.
  destruct (test_login_with_password_format P b pf key) as [b1 ok]. simpl in Hq1.
  destruct ok; [exact Hq1|]. apply IH.
  destruct rest; [exact Hq1|]. apply quiet_emit; [exact Hq1|reflexivity].
Qed.

Lemma analyze_network_request_quiet (H : hashlib) (P : platform) (b : bot) :
  quiet (log b) -> quiet (log (analyze_network_request H P b).1).
Proof.
  intros Hq. unfold analyze_network_request.
  destruct (get_csrf_token_and_key_log P b) as [Hlog _].
  destruct (get_csrf_token_and_key P b) as [b1 key]. simpl in Hlog.
  apply try_candidates_quiet. rewrite Hlog.
  apply Forall_app. split; [exact Hq|]. constructor; [reflexivity|constructor].
Qed.

Lemma check_login_status_log (P : platform) (b : bot) :
  log (check_login_status P b).1 = (log b ++ [GetMain])%list.
Proof.
  unfold check_login_status. destruct (main_page P _); [|reflexivity].
  break_if; reflexivity.
Qed.

Lemma get_all_courses_log (P : platform) (b : bot) :
  log (get_all_courses P b).1 = (log b ++ [GetCourses])%list.
Proof.
  unfold get_all_courses. destruct (courses_page P _) as [[status found]|]; [|reflexivity].
  break_if; reflexivity.
Qed.

Lemma get_chapters_log (P : platform) (b : bot) (cid : Z) :
  log (get_chapters P b cid).1 = (log b ++ [GetChapters cid])%list.
Proof.
  unfold get_chapters. destruct (chapters_page P _) as [[status found]|]; [|reflexivity].
  break_if; reflexivity.
Qed.

(** Bounds that parse but are non-positive or out of order make
    [_parse_range] raise. *)
Lemma _parse_range_bad_bounds (text first second : string) (start end_ : Z) :
  split_on "-" text = [first; second] ->
  py_int first = Ret start -> py_int second = Ret end_ ->
  start <= 0 \/ end_ <= 0 \/ end_ < start ->
  _parse_range text = Raise (ValueError "范围参数错误").
Proof.
  intros Hsplit Hfirst Hsecond Hbad. unfold _parse_range.
  rewrite Hsplit, Hfirst, Hsecond. simpl.
  destruct (start <=? 0) eqn:H1; [reflexivity|].
  destruct (end_ <=? 0) eqn:H2; [reflexivity|].
  destruct (end_ <? start) eqn:H3; [reflexivity|]. lia.
Qed.

Lemma get_never_raises (store : BindingStore.store) (qq : string) (e : exn) :
  BindingStore.get store qq <> Raise e.
Proof.
  unfold BindingStore.get, BindingStore._decrypt.
  destruct (BindingStore.bindings store !! qq) as [data|]; [|discriminate].
  destruct (BindingStore.dict_is_empty data); [discriminate|].
  destruct (BindingStore.fernet_decrypt _ _); discriminate.
Qed.

(** C3, as the code has it. A range job whose bounds parse but are
    non-positive or out of order never reaches the completion fetch nor
    any chapter: its log holds login and discovery calls only. The job
    ends in the range error or in an earlier failure, and the range error
    is raised only after the course list and the chapter list have been
    fetched. *)
Theorem bad_range_rejected_at_selection
    (c : config) (H : hashlib) (P : platform)
    (bank : list (string * list bank_question)) (store : BindingStore.store)
    (task : QuizTask) (first second : string) (start end_ : Z) :
  mode task = mode_range ->
  split_on "-" (spec task) = [first; second] ->
  py_int first = Ret start -> py_int second = Ret end_ ->
  start <= 0 \/ end_ <= 0 \/ end_ < start ->
  let run := _execute_task_sync c H P bank store task in
  quiet run.1.1
  /\ (run.2 = Raise (ValueError "范围参数错误") \/ exists msg, run.2 = Ret (fail_with msg))
  /\ (run.2 = Raise (ValueError "范围参数错误") ->
      GetCourses ∈ run.1.1 /\ exists cid, GetChapters cid ∈ run.1.1).
Proof.
  intros Hmode Hsplit Hfirst Hsecond Hbad run.
  pose proof (_parse_range_bad_bounds _ _ _ _ _ Hsplit Hfirst Hsecond Hbad) as Hrange.
  subst run. unfold _execute_task_sync.
  pose proof (get_never_raises store (qq_id task)) as Hget.
  destruct (BindingStore.get store (qq_id task)) as [[creds|]|e];
    [| |exfalso; exact (Hget e eq_refl)].
  2: { cbn. split; [constructor|]. split; [right; eauto|discriminate]. }
  set (b0 := new_bot _ _).
  assert (Hq0 : quiet (log b0)) by constructor.
  pose proof (check_login_status_log P b0) as Hlog1.
  destruct (check_login_status P b0) as [b1 logged_in]. cbn [fst] in Hlog1.
  assert (Hq1 : quiet (log b1)).
  { rewrite Hlog1. apply Forall_app. split; [exact Hq0|]. constructor; [reflexivity|constructor]. }
  assert (Hq2 : quiet (log (if logged_in then (b1, true)
                            else analyze_network_request H P b1).1)).
  { destruct logged_in; [exact Hq1|apply analyze_network_request_quiet, Hq1]. }
  destruct (if logged_in then (b1, true) else analyze_network_request H P b1) as [b2 ok].
  cbn [fst] in Hq2.
  destruct ok; cbn [negb].
  2: { cbn. split; [exact Hq2|]. split; [right; eauto|discriminate]. }
  set (b3 := set_question_bank b2 bank).
  pose proof (get_all_courses_log P b3) as Hlog4.
  destruct (get_all_courses P b3) as [b4 courses]. cbn [fst] in Hlog4.
  assert (Hq4 : quiet (log b4)).
  { rewrite Hlog4. apply Forall_app. split; [exact Hq2|]. constructor; [reflexivity|constructor]. }
  destruct (course_id task) as [cid|].
  2: { cbn. split; [exact Hq4|]. split; [right; eauto|discriminate]. }
  destruct (List.find _ courses) as [found|].
  2: { cbn. split; [exact Hq4|]. split; [right; eauto|discriminate]. }
  pose proof (get_chapters_log P b4 cid) as Hlog5.
  destruct (get_chapters P b4 cid) as [b5 chapters]. cbn [fst] in Hlog5.
  assert (Hq5 : quiet (log b5)).
  { rewrite Hlog5. apply Forall_app. split; [exact Hq4|]. constructor; [reflexivity|constructor]. }
  destruct chapters as [|ch chapters].
  { cbn. split; [exact Hq5|]. split; [right; eauto|discriminate]. }
  unfold select_chapters. cbn [mode spec set_course_name]. rewrite Hmode, Hrange.
  cbn. split; [exact Hq5|]. split; [left; reflexivity|].
  intros _. rewrite Hlog5, Hlog4. split.
  - apply elem_of_app. left. apply elem_of_app. right. constructor.
  - exists cid. apply elem_of_app. right. constructor.
Qed.

Lemma bad_range_rejected_at_selection_witness :
  quiet (_execute_task_sync default_config tagging_hashlib five_question_platform
           five_question_bank (sample_store transparent_fernet) backwards_range_task).1.1.
Proof.
  apply (bad_range_rejected_at_selection default_config tagging_hashlib five_question_platform
           five_question_bank (sample_store transparent_fernet) backwards_range_task
           "5" "2" 5 2); try reflexivity.
  right. right. lia.
Defined.

(** C3 as stated fails: a range job with bounds 5-2 is turned down only
    after the course list and the chapter list have been fetched. *)
Lemma bad_range_after_discovery :
  (_execute_task_sync default_config tagging_hashlib five_question_platform
     five_question_bank (sample_store transparent_fernet) backwards_range_task).1.1
  = [GetMain; GetCourses; GetChapters 7]
  /\ (_execute_task_sync default_config tagging_hashlib five_question_platform
        five_question_bank (sample_store transparent_fernet) backwards_range_task).2
     = Raise (ValueError "范围参数错误").
Proof. split; vm_compute; reflexivity. Qed.

End SelectionFacts.
Section SchedulerFacts.

Import Plugin.

Lemma is_active_queued_or_running (t : QuizTask) :
  is_active t = true <-> status t = queued \/ status t = running.
Proof.
  unfold is_active. rewrite orb_true_iff, !bool_decide_eq_true. reflexivity.
Qed.

Lemma is_finished_spec (t : QuizTask) :
  is_finished t = true
  <-> status t = completed \/ status t = failed \/ status t = canceled.
Proof.
  unfold is_finished. rewrite !orb_true_iff, !bool_decide_eq_true. tauto.
Qed.

Lemma _has_active_task_spec (s : plugin) (qq : string) :
  _has_active_task s qq = true
  <-> exists tid ref t, _tasks s !! tid = Some ref /\ heap s !! ref = Some t
                        /\ qq_id t = qq /\ is_active t = true.
Proof.
  unfold _has_active_task, task_values. rewrite existsb_exists. split.
  - intros (t & Hin & Hcond). apply andb_true_iff in Hcond as [Hqq Hact].
    apply String.eqb_eq in Hqq.
    apply list_elem_of_In, list_elem_of_omap in Hin as ([tid ref] & Hentry & Hheap).
    apply elem_of_map_to_list in Hentry. exists tid, ref, t. auto.
  - intros (tid & ref & t & Hidx & Hheap & Hqq & Hact). exists t. split.
    + apply list_elem_of_In, list_elem_of_omap. exists (tid, ref). split; [|exact Hheap].
      apply elem_of_map_to_list. exact Hidx.
    + apply andb_true_iff. split; [apply String.eqb_eq, Hqq|exact Hact].
Qed.

Lemma scheduler_ok_init (c : config) (t0 : Z) : scheduler_ok (init c t0).
Proof.
  assert (Hnot : forall ref, ~ held (init c t0) ref).
  { intros ref [idx Hidx]. simpl in Hidx. apply lookup_replicate in Hidx as [Heq _].
    discriminate. }
  constructor; simpl.
  - intros tid ref Hl. rewrite lookup_empty in Hl. discriminate.
  - intros ref Hin. apply elem_of_nil in Hin. contradiction.
  - intros ref Hh. exfalso. exact (Hnot ref Hh).
  - intros tid1 tid2 ref Hl. rewrite lookup_empty in Hl. discriminate.
  - constructor.
  - intros i j ref Hi. apply lookup_replicate in Hi as [Heq _]. discriminate.
  - intros ref t Hl. rewrite lookup_nil in Hl. discriminate.
  - intros tid1 tid2 ref1 ref2 t1 t2 Hl. rewrite lookup_empty in Hl. discriminate.
Qed.

Lemma settled_refl (s : plugin) : settled s s.
Proof. intros ref t Hl. exists t. auto. Qed.

Lemma settled_trans (s1 s2 s3 : plugin) :
  settled s1 s2 -> settled s2 s3 -> settled s1 s3.
Proof.
  intros H12 H23 ref t Hl.
  destruct (H12 ref t Hl) as (t2 & Hl2 & Hqq2 & Hc2 & Hs2 & Hf2).
  destruct (H23 ref t2 Hl2) as (t3 & Hl3 & Hqq3 & Hc3 & Hs3 & Hf3).
  exists t3. split; [exact Hl3|]. split; [congruence|]. split; [congruence|].
  split; [auto|]. intros Hfin. rewrite Hf3, Hf2; auto.
  unfold is_finished in *. rewrite Hf2; auto.
Qed.

Lemma task_ok_transfer (s s' : plugin) (ref : nat) (t : QuizTask) :
  (ref ∈ _queue s' <-> ref ∈ _queue s) -> (held s' ref <-> held s ref) ->
  now s <= now s' -> task_ok s ref t -> task_ok s' ref t.
Proof.
  intros Hq Hh Hnow [Hqd Hiq Hbusy Hheld Hcr Hst Hfi Hte Hun].
  constructor; rewrite ?Hq, ?Hh; auto.
  - lia.
  - intros x Hx. specialize (Hst x Hx). lia.
  - intros f Hf. destruct (Hfi f Hf) as [Hb Hs]. split; [lia|exact Hs].
Qed.

(** An event that rewrites one task object in place and may drop
    references from the queue keeps the scheduler in order, as long as
    the rewritten object fits its new surroundings and was not made
    active out of nothing. *)
Lemma update_ok (s : plugin) (ref : nat) (t t' : QuizTask)
    (q' : list nat) (w' : list (option nat)) :
  scheduler_ok s -> heap s !! ref = Some t ->
  let s' := mkPlugin (cfg s) (<[ref := t']> (heap s)) (_tasks s) q' w' (now s) (ended s) in
  NoDup q' ->
  (forall r, r ∈ q' -> r ∈ _queue s) ->
  (forall r, r <> ref -> r ∈ _queue s -> r ∈ q') ->
  (forall r, r <> ref -> (held s' r <-> held s r)) ->
  (forall i j r, w' !! i = Some (Some r) -> w' !! j = Some (Some r) -> i = j) ->
  task_ok s' ref t' ->
  qq_id t' = qq_id t ->
  (is_active t' = true -> is_active t = true) ->
  created_at t' = created_at t ->
  (forall x, started_at t = Some x -> started_at t' = Some x) ->
  (is_finished t = true -> status t' = status t) ->
  scheduler_ok s' /\ settled s s'.
Proof.
  intros Hok Hl s' Hnd Hsub Hkeep Hheld Hwinj Hnew Hqq Hact Hcreated Hstarted Hfin.
  assert (Hlen : (ref < length (heap s))%nat) by (eapply lookup_lt_Some; eauto).
  destruct Hok as [Hidx Hqueue Hworkers Hinj Hnodup Hworker_inj Htasks Hsingle]. split.
  - constructor; cbn [heap _tasks _queue workers now s']; rewrite ?length_insert; auto.
    + intros r Hr. destruct (decide (r = ref)) as [->|Hne]; [exact Hlen|].
      apply Hworkers, Hheld; auto.
    + intros r u Hu. destruct (decide (r = ref)) as [->|Hne].
      * rewrite list_lookup_insert_eq in Hu by exact Hlen. inversion Hu; subst. exact Hnew.
      * rewrite list_lookup_insert_ne in Hu by congruence.
        apply (task_ok_transfer s s'); [| |cbn; lia|auto].
        -- cbn. split; [apply Hsub|apply Hkeep, Hne].
        -- apply Hheld, Hne.
    + intros tid1 tid2 r1 r2 u1 u2 Hi1 Hi2 Hu1 Hu2 Hsame Ha1 Ha2.
      assert (Hold : forall r u, <[ref := t']> (heap s) !! r = Some u ->
                exists v, heap s !! r = Some v /\ qq_id v = qq_id u
                          /\ (is_active u = true -> is_active v = true)).
      { intros r u Hu. destruct (decide (r = ref)) as [->|Hne].
        - rewrite list_lookup_insert_eq in Hu by exact Hlen. inversion Hu; subst.
          exists t. auto.
        - rewrite list_lookup_insert_ne in Hu by congruence. exists u. auto. }
      destruct (Hold _ _ Hu1) as (v1 & Hv1 & Hq1 & Hav1).
      destruct (Hold _ _ Hu2) as (v2 & Hv2 & Hq2 & Hav2).
      eapply (Hsingle tid1 tid2 r1 r2 v1 v2); eauto. congruence.
  - intros r u Hu. cbn [heap s']. destruct (decide (r = ref)) as [->|Hne].
    + rewrite list_lookup_insert_eq by exact Hlen. exists t'.
      assert (u = t) by congruence. subst u. auto.
    + rewrite list_lookup_insert_ne by congruence. exists u. auto.
Qed.

Lemma not_finished_cases (t : QuizTask) :
  is_finished t = false ->
  status t = queued \/ status t = running \/ status t = canceling.
Proof.
  unfold is_finished. destruct (status t); simpl; auto; discriminate.
Qed.

Lemma request_cancel_ok (s : plugin) (ref : nat) (t : QuizTask) :
  scheduler_ok s -> heap s !! ref = Some t -> is_finished t = false ->
  scheduler_ok (request_cancel s ref t).1 /\ settled s (request_cancel s ref t).1.
Proof.
  intros Hok Hl Hfin.
  destruct (inv_tasks s Hok ref t Hl) as [Hqd Hiq Hbusy Hheld Hcr Hst Hfi Hte Hun].
  pose proof (inv_nodup s Hok) as Hnd. pose proof (inv_worker_inj s Hok) as Hwinj.
  unfold request_cancel. cbn [status set_cancel_event].
  destruct (bool_decide (status t = queued)) eqn:Hstatus; cbn [fst]; unfold set_heap.
  - apply bool_decide_eq_true in Hstatus. destruct (Hqd Hstatus) as [Hin Hev].
    destruct (Hiq Hin) as [_ Hnone].
    apply (update_ok s ref t); auto; try reflexivity; try (intros; reflexivity).
    + constructor; cbn.
      * discriminate.
      * intros _. split; [right; auto|exact Hnone].
      * intros [?|?]; discriminate.
      * intros Hh. destruct (Hheld Hh); congruence.
      * exact Hcr.
      * intros x Hx. congruence.
      * intros f Hf. inversion Hf; subst. split; [lia|]. intros x Hx. congruence.
      * discriminate.
      * discriminate.
    + cbn. discriminate.
    + rewrite Hfin. discriminate.
  - apply bool_decide_eq_false in Hstatus.
    assert (Hrun : status t = running \/ status t = canceling)
      by (destruct (not_finished_cases t Hfin) as [?|?]; tauto).
    apply (update_ok s ref t); auto; try reflexivity; try (intros; reflexivity).
    + constructor; cbn.
      * discriminate.
      * intros Hin. destruct (Hiq Hin) as [[?|[? _]] _]; destruct Hrun; congruence.
      * intros _. apply Hbusy, Hrun.
      * auto.
      * exact Hcr.
      * exact Hst.
      * exact Hfi.
      * discriminate.
      * intros _. apply Hun, Hfin.
    + cbn. discriminate.
    + rewrite Hfin. discriminate.
Qed.

Lemma lookup_task_Some (s : plugin) (tid : string) (ref : nat) (t : QuizTask) :
  lookup_task s tid = Some (ref, t) -> heap s !! ref = Some t.
Proof.
  unfold lookup_task. destruct (_tasks s !! tid) as [r|]; [|discriminate].
  destruct (heap s !! r) as [u|] eqn:Hu; [|discriminate].
  intros Heq. inversion Heq; subst. exact Hu.
Qed.

Lemma _handle_cancel_ok (s : plugin) (who : string) (args_ : list string) :
  scheduler_ok s ->
  scheduler_ok (_handle_cancel s who args_).1 /\ settled s (_handle_cancel s who args_).1.
Proof.
  intros Hok. unfold _handle_cancel.
  destruct args_ as [|tid rest]; [split; [exact Hok|apply settled_refl]|].
  destruct (lookup_task s tid) as [[ref t]|] eqn:Hfind;
    [|split; [exact Hok|apply settled_refl]].
  destruct (negb _); [split; [exact Hok|apply settled_refl]|].
  destruct (is_finished t) eqn:Hfin; [split; [exact Hok|apply settled_refl]|].
  apply request_cancel_ok; auto. eapply lookup_task_Some; eauto.
Qed.

Lemma _admin_cancel_ok (s : plugin) (args_ : list string) :
  scheduler_ok s ->
  scheduler_ok (_admin_cancel s args_).1 /\ settled s (_admin_cancel s args_).1.
Proof.
  intros Hok. unfold _admin_cancel.
  destruct args_ as [|tid rest]; [split; [exact Hok|apply settled_refl]|].
  destruct (lookup_task s tid) as [[ref t]|] eqn:Hfind;
    [|split; [exact Hok|apply settled_refl]].
  destruct (is_finished t) eqn:Hfin; [split; [exact Hok|apply settled_refl]|].
  apply request_cancel_ok; auto. eapply lookup_task_Some; eauto.
Qed.

Lemma tick_ok (s : plugin) (elapsed : N) :
  scheduler_ok s -> scheduler_ok (tick s elapsed) /\ settled s (tick s elapsed).
Proof.
  intros [Hidx Hqueue Hworkers Hinj Hnodup Hworker_inj Htasks Hsingle].
  split; [|intros ref t Hl; exists t; auto].
  constructor; cbn [tick heap _tasks _queue workers now]; auto.
  intros ref t Hl. apply (task_ok_transfer s); [reflexivity|reflexivity|cbn; lia|auto].
Qed.

Lemma _cleanup_tasks_ok (s : plugin) :
  scheduler_ok s -> scheduler_ok (_cleanup_tasks s) /\ settled s (_cleanup_tasks s).
Proof.
  intros [Hidx Hqueue Hworkers Hinj Hnodup Hworker_inj Htasks Hsingle].
  split; [|intros ref t Hl; exists t; auto].
  constructor; cbn [_cleanup_tasks heap _tasks _queue workers now]; auto.
  - intros tid ref Hl. apply map_lookup_filter_Some in Hl as [Hl _]. eauto.
  - intros tid1 tid2 ref Hl1 Hl2.
    apply map_lookup_filter_Some in Hl1 as [Hl1 _].
    apply map_lookup_filter_Some in Hl2 as [Hl2 _]. eauto.
  - intros ref t Hl. apply (task_ok_transfer s); [reflexivity|reflexivity|cbn; lia|auto].
  - intros tid1 tid2 ref1 ref2 t1 t2 Hl1 Hl2.
    apply map_lookup_filter_Some in Hl1 as [Hl1 _].
    apply map_lookup_filter_Some in Hl2 as [Hl2 _]. eauto.
Qed.

Lemma enqueue_ok (s : plugin) (tid who name origin mode_ spec_ : string)
    (cid : option Z) (cname : option string) :
  scheduler_ok s -> _has_active_task s who = false ->
  let task := mkTask tid who name origin cid cname mode_ spec_ queued (now s)
                     None None false None None in
  scheduler_ok (enqueue s task) /\ settled s (enqueue s task).
Proof.
  intros [Hidx Hqueue Hworkers Hinj Hnodup Hworker_inj Htasks Hsingle] Hidle task.
  assert (Hnone : forall tid' ref t, _tasks s !! tid' = Some ref -> heap s !! ref = Some t ->
                    qq_id t = who -> is_active t = false).
  { intros tid' ref t Hl Hh Hqq. destruct (is_active t) eqn:Hact; [|reflexivity].
    assert (Hsome : _has_active_task s who = true)
      by (apply _has_active_task_spec; eauto 8).
    congruence. }
  assert (Hfresh : forall ref t, (heap s ++ [task])%list !! ref = Some t ->
                     (heap s !! ref = Some t /\ (ref < length (heap s))%nat)
                     \/ (ref = length (heap s) /\ t = task)).
  { intros ref t Hl. apply lookup_app_Some in Hl as [Hl|[Hge Hl]].
    - left. split; [exact Hl|]. eapply lookup_lt_Some; eauto.
    - right. apply list_lookup_singleton_Some in Hl as [Heq ->]. split; [lia|reflexivity]. }
  split.
  - constructor; cbn [enqueue heap _tasks _queue workers now task_id task];
      rewrite ?length_app; cbn [length].
    + intros tid' ref Hl. apply lookup_insert_Some in Hl as [[_ <-]|[_ Hl]]; [lia|].
      specialize (Hidx _ _ Hl). lia.
    + intros ref Hin. apply elem_of_app in Hin as [Hin|Hin].
      * specialize (Hqueue _ Hin). lia.
      * apply list_elem_of_singleton in Hin. lia.
    + intros ref Hh. specialize (Hworkers ref Hh). lia.
    + intros tid1 tid2 ref Hl1 Hl2.
      apply lookup_insert_Some in Hl1 as [[<- <-]|[Hne1 Hl1]];
        apply lookup_insert_Some in Hl2 as [[Heq2 Href2]|[Hne2 Hl2]]; auto.
      * specialize (Hidx _ _ Hl2). lia.
      * subst. specialize (Hidx _ _ Hl1). lia.
      * eauto.
    + apply NoDup_app. split; [exact Hnodup|]. split; [|apply NoDup_singleton].
      intros ref Hin Hin2. apply list_elem_of_singleton in Hin2. subst.
      specialize (Hqueue _ Hin). lia.
    + exact Hworker_inj.
    + intros ref t Hl. destruct (Hfresh ref t Hl) as [[Hold Hlt]|[-> ->]].
      * apply (task_ok_transfer s); [|reflexivity|cbn; lia|auto].
        cbn. rewrite elem_of_app, list_elem_of_singleton. split; [|auto].
        intros [?|?]; [assumption|lia].
      * constructor; cbn; try discriminate.
        -- intros _. split; [|reflexivity]. apply elem_of_app. right. constructor.
        -- intros _. auto.
        -- intros [?|?]; discriminate.
        -- intros Hh. specialize (Hworkers _ Hh). lia.
        -- lia.
        -- auto.
    + intros tid1 tid2 ref1 ref2 t1 t2 Hl1 Hl2 Hh1 Hh2 Hqq Ha1 Ha2.
      destruct (Hfresh _ _ Hh1) as [[Ho1 Hlt1]|[-> ->]];
        destruct (Hfresh _ _ Hh2) as [[Ho2 Hlt2]|[-> ->]]; auto.
      * apply lookup_insert_Some in Hl1 as [[_ <-]|[_ Hl1]]; [lia|].
        apply lookup_insert_Some in Hl2 as [[_ <-]|[_ Hl2]]; [lia|]. eauto.
      * apply lookup_insert_Some in Hl1 as [[_ <-]|[_ Hl1]]; [lia|].
        cbn in Hqq. rewrite (Hnone _ _ _ Hl1 Ho1 Hqq) in Ha1. discriminate.
      * apply lookup_insert_Some in Hl2 as [[_ <-]|[_ Hl2]]; [lia|].
        cbn in Hqq. symmetry in Hqq. rewrite (Hnone _ _ _ Hl2 Ho2 Hqq) in Ha2. discriminate.
  - intros ref t Hl. exists t. split; [|auto].
    cbn. apply lookup_app_l_Some, Hl.
Qed.

Lemma _handle_start_ok (s : plugin) (ev : start_event) :
  scheduler_ok s ->
  scheduler_ok (_handle_start s ev).1 /\ settled s (_handle_start s ev).1.
Proof.
  intros Hok. unfold _handle_start.
  destruct (binding ev); [|split; [exact Hok|apply settled_refl]].
  destruct (negb (group_allowed ev)); [split; [exact Hok|apply settled_refl]|].
  destruct (start_target ev) as [reply|[[cid cname] [mode_ spec_]]];
    [split; [exact Hok|apply settled_refl]|].
  destruct (_ && _); [split; [exact Hok|apply settled_refl]|].
  destruct (_has_active_task s (sender_id ev)) eqn:Hidle;
    [split; [exact Hok|apply settled_refl]|].
  cbn [fst]. apply enqueue_ok; auto.
Qed.

Lemma worker_take_ok (s : plugin) (idx : nat) :
  scheduler_ok s -> scheduler_ok (worker_take s idx) /\ settled s (worker_take s idx).
Proof.
  intros Hok. unfold worker_take.
  destruct (workers s !! idx) as [[held_ref|]|] eqn:Hw;
    try (split; [exact Hok|apply settled_refl]).
  destruct (_queue s) as [|ref rest] eqn:Hq; [split; [exact Hok|apply settled_refl]|].
  destruct (heap s !! ref) as [task|] eqn:Hl; [|split; [exact Hok|apply settled_refl]].
  destruct (inv_tasks s Hok ref task Hl) as [Hqd Hiq Hbusy Hheld Hcr Hst Hfi Hte Hun].
  pose proof (inv_nodup s Hok) as Hnd. pose proof (inv_worker_inj s Hok) as Hwinj.
  rewrite Hq in Hnd, Hqd, Hiq. apply NoDup_cons in Hnd as [Hnotin Hnd].
  destruct (Hiq ltac:(left)) as [Hstatus Hnone].
  assert (Hrest : forall r, r ∈ rest -> r ∈ ref :: rest) by (intros; right; assumption).
  assert (Hkeep : forall r, r <> ref -> r ∈ ref :: rest -> r ∈ rest).
  { intros r Hne Hin. apply elem_of_cons in Hin as [?|?]; [congruence|assumption]. }
  destruct (cancel_event task) eqn:Hev.
  - assert (Hcanceled : status task = canceled).
    { destruct Hstatus as [Hqueued|[? _]]; [|assumption].
      destruct (Hqd Hqueued) as [_ ?]. congruence. }
    apply (update_ok s ref task); auto; try rewrite Hq; auto; try (intros; reflexivity).
    + constructor; cbn.
      * discriminate.
      * intros Hin. contradiction.
      * intros [?|?]; discriminate.
      * intros Hh. destruct (Hheld Hh); congruence.
      * exact Hcr.
      * intros x Hx. congruence.
      * intros f Hf. inversion Hf; subst. split; [lia|]. intros x Hx. congruence.
      * discriminate.
      * discriminate.
    + cbn. discriminate.
  - assert (Hqueued : status task = queued).
    { destruct Hstatus as [?|[_ ?]]; [assumption|congruence]. }
    assert (Hidle : ~ held s ref).
    { intros Hh. destruct (Hheld Hh); congruence. }
    assert (Hlt : (idx < length (workers s))%nat) by (eapply lookup_lt_Some; eauto).
    apply (update_ok s ref task); auto; try rewrite Hq; auto.
    + intros r Hne. unfold held. cbn. split.
      * intros [j Hj]. apply list_lookup_insert_Some in Hj as [(_ & Heq & _)|[_ Hj]].
        -- congruence.
        -- eauto.
      * intros [j Hj]. exists j. rewrite list_lookup_insert_ne; [exact Hj|].
        intros ->. congruence.
    + intros i j r Hi Hj.
      apply list_lookup_insert_Some in Hi as [(<- & Hri & _)|[Hnei Hi]];
        apply list_lookup_insert_Some in Hj as [(Hjdx & Hrj & _)|[Hnej Hj]]; auto.
      * exfalso. apply Hidle. exists j. congruence.
      * exfalso. apply Hidle. exists i. congruence.
      * eauto.
    + constructor; cbn.
      * discriminate.
      * intros Hin. contradiction.
      * intros _. exists idx. cbn. apply list_lookup_insert_eq, Hlt.
      * auto.
      * exact Hcr.
      * intros x Hx. inversion Hx; subst. lia.
      * intros f Hf. rewrite Hun in Hf; [discriminate|].
        unfold is_finished. rewrite Hqueued. reflexivity.
      * discriminate.
      * intros _. apply Hun. unfold is_finished. rewrite Hqueued. reflexivity.
    + intros _. unfold is_active. rewrite Hqueued. reflexivity.
    + intros x Hx. congruence.
    + unfold is_finished. rewrite Hqueued. discriminate.
Qed.

Lemma worker_finish_ok (s : plugin) (idx : nat) (stored_name : option string)
    (outcome : pyresult result) :
  scheduler_ok s ->
  scheduler_ok (worker_finish s idx stored_name outcome)
  /\ settled s (worker_finish s idx stored_name outcome).
Proof.
  intros Hok. unfold worker_finish.
  destruct (workers s !! idx) as [[ref|]|] eqn:Hw;
    try (split; [exact Hok|apply settled_refl]).
  destruct (heap s !! ref) as [task|] eqn:Hl; [|split; [exact Hok|apply settled_refl]].
  destruct (inv_tasks s Hok ref task Hl) as [Hqd Hiq Hbusy Hheld Hcr Hst Hfi Hte Hun].
  pose proof (inv_nodup s Hok) as Hnd. pose proof (inv_worker_inj s Hok) as Hwinj.
  assert (Hrun : status task = running \/ status task = canceling)
    by (apply Hheld; exists idx; exact Hw).
  set (t' := set_finished_at _ (now s)).
  assert (Hfacts : is_finished t' = true /\ finished_at t' = Some (now s)
                   /\ started_at t' = started_at task
                   /\ created_at t' = created_at task /\ qq_id t' = qq_id task).
  { subst t'. destruct stored_name, outcome as [res|e];
      try destruct (res_canceled res); try destruct (res_success res); cbn; auto. }
  destruct Hfacts as (Hfin' & Hfinished' & Hstarted' & Hcreated' & Hqq').
  apply is_finished_spec in Hfin'.
  assert (Hlt : (idx < length (workers s))%nat) by (eapply lookup_lt_Some; eauto).
  apply (update_ok s ref task); auto.
  - intros r Hne. unfold held. cbn. split.
    + intros [j Hj]. apply list_lookup_insert_Some in Hj as [(_ & Heq & _)|[_ Hj]].
      * discriminate.
      * eauto.
    + intros [j Hj]. exists j. rewrite list_lookup_insert_ne; [exact Hj|].
      intros ->. congruence.
  - intros i j r Hi Hj.
    apply list_lookup_insert_Some in Hi as [(_ & Hri & _)|[Hnei Hi]]; [discriminate|].
    apply list_lookup_insert_Some in Hj as [(_ & Hrj & _)|[Hnej Hj]]; [discriminate|].
    eauto.
  - constructor; cbn [_queue now].
    + intros Hq. rewrite Hq in Hfin'. intuition discriminate.
    + intros Hin. destruct (Hiq Hin) as [[?|[? _]] _]; destruct Hrun; congruence.
    + intros Hbad. exfalso. destruct Hbad as [Hb|Hb]; rewrite Hb in Hfin'; intuition discriminate.
    + intros [j Hj]. cbn in Hj.
      apply list_lookup_insert_Some in Hj as [(_ & Heq & _)|[Hne Hj]]; [discriminate|].
      exfalso. apply Hne. eapply Hwinj; eauto.
    + rewrite Hcreated'. exact Hcr.
    + intros x Hx. rewrite Hcreated'. apply Hst. congruence.
    + intros f Hf. rewrite Hfinished' in Hf. inversion Hf; subst f.
      rewrite Hcreated'. split; [lia|]. intros x Hx. rewrite Hstarted' in Hx.
      specialize (Hst x Hx). lia.
    + intros _. rewrite Hfinished'. discriminate.
    + intros Hnot. apply is_finished_spec in Hfin'. congruence.
  - intros Hact. apply is_active_queued_or_running in Hact.
    destruct Hact as [Ha|Ha]; rewrite Ha in Hfin'; intuition discriminate.
  - intros x Hx. congruence.
  - intros Hfin. apply is_finished_spec in Hfin. destruct Hrun as [Hr|Hr]; rewrite Hr in Hfin;
      intuition discriminate.
Qed.

(** The end of a worker writes nothing but the list of ended workers,
    which no invariant of the scheduler reads. *)
Lemma worker_ends_ok (s : plugin) (idx : nat) :
  scheduler_ok s -> scheduler_ok (worker_ends s idx) /\ settled s (worker_ends s idx).
Proof.
  intros Hok. unfold worker_ends.
  destruct (idx <? length (workers s))%nat; [|split; [exact Hok|apply settled_refl]].
  split; [|intros ref t Hl; exists t; auto].
  destruct Hok as [Hindex Hqueue Hworkers Hinj Hnodup Hwinj Htasks Hsingle].
  constructor; try assumption.
  intros ref t Hl. destruct (Htasks ref t Hl). constructor; assumption.
Qed.

Lemma exec_ok (s : plugin) (e : event) :
  scheduler_ok s -> scheduler_ok (exec s e) /\ settled s (exec s e).
Proof.
  intros Hok. destruct e; cbn [exec].
  - apply tick_ok, Hok.
  - apply _handle_start_ok, Hok.
  - apply _handle_cancel_ok, Hok.
  - apply _admin_cancel_ok, Hok.
  - apply _cleanup_tasks_ok, Hok.
  - destruct (bool_decide _); [split; [exact Hok|apply settled_refl]|].
    apply worker_take_ok, Hok.
  - destruct (bool_decide _); [split; [exact Hok|apply settled_refl]|].
    apply worker_finish_ok, Hok.
  - apply worker_ends_ok, Hok.
Qed.

Lemma run_ok (events : list event) :
  forall s : plugin, scheduler_ok s -> scheduler_ok (run s events) /\ settled s (run s events).
Proof.
  induction events as [|e rest IH]; intros s Hok; cbn [run fold_left].
  - split; [exact Hok|apply settled_refl].
  - destruct (exec_ok s e Hok) as [Hok1 Hset1].
    destruct (IH (exec s e) Hok1) as [Hok2 Hset2].
    split; [exact Hok2|]. eapply settled_trans; eauto.
Qed.

Lemma reachable_ok (s : plugin) : reachable s -> scheduler_ok s.
Proof.
  intros (c & t0 & events & ->). apply run_ok, scheduler_ok_init.
Qed.

Lemma reachable_run (s : plugin) (events : list event) :
  reachable s -> reachable (run s events).
Proof.
  intros (c & t0 & before & ->). exists c, t0, (before ++ events)%list.
  unfold run. rewrite fold_left_app. reflexivity.
Qed.

(** How one event changes the task objects: not at all, or one of them
    is rewritten in place as [task_step] says, or a start command adds a
    new queued task that has neither start nor finish time. *)
Lemma exec_heap_shape (s : plugin) (e : event) :
  heap (exec s e) = heap s
  \/ (exists ref t t',
        heap s !! ref = Some t /\ heap (exec s e) = <[ref := t']> (heap s)
        /\ task_step s e ref t t')
  \/ (exists task,
        heap (exec s e) = (heap s ++ [task])%list
        /\ status task = queued /\ created_at task = now s
        /\ started_at task = None /\ finished_at task = None).
Proof.
  assert (Hcancel : forall ref t,
            ((exists who args_, e = Cancel who args_) \/ (exists args_, e = AdminCancel args_)) ->
            heap s !! ref = Some t -> is_finished t = false ->
            exists ref0 t0 t',
              heap s !! ref0 = Some t0
              /\ heap (request_cancel s ref t).1 = <[ref0 := t']> (heap s)
              /\ task_step s e ref0 t0 t').
  { intros ref t He Hl Hopen. exists ref, t. unfold request_cancel.
    change (status (set_cancel_event t)) with (status t).
    destruct (bool_decide (status t = queued)) eqn:Hq; cbn [fst set_heap heap];
      eexists; (split; [exact Hl|]); (split; [reflexivity|]);
      left; (split; [exact He|]); (split; [exact Hopen|]); rewrite Hq; reflexivity. }
  destruct e as [elapsed|ev|who args_|args_| |idx|idx name outcome|idx]; cbn [exec].
  - left. reflexivity.
  - unfold _handle_start. destruct (binding ev); [|left; reflexivity].
    destruct (negb (group_allowed ev)); [left; reflexivity|].
    destruct (start_target ev) as [reply|[[cid cname] [mode_ spec_]]]; [left; reflexivity|].
    destruct (_ && _); [left; reflexivity|].
    destruct (_has_active_task s (sender_id ev)); [left; reflexivity|].
    right. right. eexists. cbn [fst enqueue heap]. split; [reflexivity|].
    repeat split.
  - unfold _handle_cancel. destruct args_ as [|tid rest]; [left; reflexivity|].
    destruct (lookup_task s tid) as [[ref t]|] eqn:Hfind; [|left; reflexivity].
    destruct (negb _); [left; reflexivity|].
    destruct (is_finished t) eqn:Hopen; [left; reflexivity|].
    right. left. apply Hcancel; [left; eauto|eapply lookup_task_Some; exact Hfind|exact Hopen].
  - unfold _admin_cancel. destruct args_ as [|tid rest]; [left; reflexivity|].
    destruct (lookup_task s tid) as [[ref t]|] eqn:Hfind; [|left; reflexivity].
    destruct (is_finished t) eqn:Hopen; [left; reflexivity|].
    right. left. apply Hcancel; [right; eauto|eapply lookup_task_Some; exact Hfind|exact Hopen].
  - left. reflexivity.
  - destruct (bool_decide (idx ∈ ended s)) eqn:Hended; [left; reflexivity|].
    apply bool_decide_eq_false in Hended. unfold worker_take.
    destruct (workers s !! idx) as [[held_ref|]|] eqn:Hw; try (left; reflexivity).
    destruct (_queue s) as [|ref rest] eqn:Hq; [left; reflexivity|].
    destruct (heap s !! ref) as [task|] eqn:Hl; [|left; reflexivity].
    right. left. exists ref, task.
    destruct (cancel_event task) eqn:Hflag; cbn [heap];
      eexists; (split; [exact Hl|]); (split; [reflexivity|]);
      right; left; (split; [exists idx, rest; auto|]); rewrite Hflag; reflexivity.
  - destruct (bool_decide (idx ∈ ended s)) eqn:Hended; [left; reflexivity|].
    apply bool_decide_eq_false in Hended. unfold worker_finish.
    destruct (workers s !! idx) as [[ref|]|] eqn:Hw; try (left; reflexivity).
    destruct (heap s !! ref) as [task|] eqn:Hl; [|left; reflexivity].
    right. left. exists ref, task. cbn [heap].
    eexists. split; [exact Hl|]. split; [reflexivity|].
    right. right. exists idx, name, outcome. eexists.
    split; [reflexivity|]. split; [exact Hended|]. split; [exact Hw|].
    split; [|split; [|reflexivity]].
    + destruct name, outcome as [res|err]; reflexivity.
    + destruct name, outcome as [res|err];
        try destruct (res_canceled res); try destruct (res_success res); reflexivity.
  - unfold worker_ends. destruct (_ <? _)%nat; left; reflexivity.
Qed.

(** The same, seen from one task object. *)
Lemma exec_task (s : plugin) (e : event) (ref : nat) (t : QuizTask) :
  heap s !! ref = Some t ->
  exists t', heap (exec s e) !! ref = Some t' /\ (t' = t \/ task_step s e ref t t').
Proof.
  intros Hl.
  destruct (exec_heap_shape s e) as [Hsame|[(r & t0 & t1 & Hl0 & Hheap & Hstep)|(task & Hheap & _)]].
  - exists t. rewrite Hsame. auto.
  - rewrite Hheap. destruct (decide (r = ref)) as [->|Hne].
    + exists t1. rewrite list_lookup_insert_eq by (eapply lookup_lt_Some; exact Hl).
      split; [reflexivity|]. right. assert (t0 = t) by congruence. subst t0. exact Hstep.
    + exists t. rewrite list_lookup_insert_ne by exact Hne. auto.
  - exists t. rewrite Hheap. split; [apply lookup_app_l_Some; exact Hl|auto].
Qed.

Lemma exec_task_new (s : plugin) (e : event) (ref : nat) (t' : QuizTask) :
  heap (exec s e) !! ref = Some t' -> heap s !! ref = None ->
  status t' = queued /\ started_at t' = None /\ finished_at t' = None
  /\ created_at t' = now s.
Proof.
  intros Hl' Hnone. apply lookup_ge_None in Hnone.
  destruct (exec_heap_shape s e)
    as [Hsame|[(r & t0 & t1 & _ & Hheap & _)|(task & Hheap & Hq & Hc & Hs & Hf)]].
  - rewrite Hsame in Hl'. apply lookup_lt_Some in Hl'. lia.
  - rewrite Hheap in Hl'. apply lookup_lt_Some in Hl'. rewrite length_insert in Hl'. lia.
  - rewrite Hheap in Hl'. apply lookup_app_Some in Hl' as [Hl'|[_ Hl']].
    + apply lookup_lt_Some in Hl'. lia.
    + apply list_lookup_singleton_Some in Hl' as [_ <-]. auto.
Qed.

Lemma task_step_start_ok (s : plugin) (e : event) (ref : nat) (t t' : QuizTask) :
  scheduler_ok s -> heap s !! ref = Some t -> start_ok t ->
  task_step s e ref t t' -> start_ok t'.
Proof.
  intros Hok Hl Hstart Hstep. unfold start_ok in *.
  destruct Hstep as [(_ & Hopen & ->)|[(_ & ->)|(idx & name & outcome & t1 & _ & _ & Hw & Hs & Hfin & ->)]].
  - destruct (not_finished_cases t Hopen) as [Hq|[Hq|Hq]]; rewrite Hq in *.
    + rewrite bool_decide_eq_true_2 by reflexivity. exact I.
    + rewrite bool_decide_eq_false_2 by discriminate. exact Hstart.
    + rewrite bool_decide_eq_false_2 by discriminate. exact Hstart.
  - destruct (cancel_event t); cbn; [auto|discriminate].
  - cbn [set_finished_at status started_at]. rewrite Hs.
    assert (Hheld : held s ref) by (exists idx; exact Hw).
    apply (ok_held s ref t (inv_tasks s Hok ref t Hl)) in Hheld.
    assert (Hset : started_at t <> None)
      by (destruct Hheld as [Hq|Hq]; rewrite Hq in Hstart; exact Hstart).
    apply is_finished_spec in Hfin.
    destruct (status t1); auto; destruct Hfin as [?|[?|?]]; discriminate.
Qed.

Lemma run_start_ok (events : list event) :
  forall s : plugin,
    scheduler_ok s ->
    (forall ref t, heap s !! ref = Some t -> start_ok t) ->
    forall ref t, heap (run s events) !! ref = Some t -> start_ok t.
Proof.
  induction events as [|e rest IH]; intros s Hok Hall; cbn [run fold_left]; [exact Hall|].
  apply IH; [apply exec_ok, Hok|].
  intros ref t' Hl'. destruct (heap s !! ref) as [t|] eqn:Hl.
  - destruct (exec_task s e ref t Hl) as (t'' & Hl'' & Hstep).
    assert (t'' = t') by congruence. subst t''.
    destruct Hstep as [->|Hstep]; [apply (Hall ref), Hl|].
    eapply task_step_start_ok; eauto.
  - destruct (exec_task_new s e ref t' Hl' Hl) as (Hq & Hs & _).
    unfold start_ok. rewrite Hq. exact Hs.
Qed.

Lemma reachable_start_ok (s : plugin) (ref : nat) (t : QuizTask) :
  reachable s -> heap s !! ref = Some t -> start_ok t.
Proof.
  intros (c & t0 & events & ->). apply run_start_ok; [apply scheduler_ok_init|].
  intros r u Hu. cbn in Hu. rewrite lookup_nil in Hu. discriminate.
Qed.

(** A finished task keeps its status and its start time, the missing one
    of a task canceled while it waited included. *)
Lemma exec_finished_start (s : plugin) (e : event) (ref : nat) (t : QuizTask) :
  scheduler_ok s -> heap s !! ref = Some t -> is_finished t = true ->
  exists t', heap (exec s e) !! ref = Some t'
    /\ is_finished t' = true /\ status t' = status t /\ started_at t' = started_at t.
Proof.
  intros Hok Hl Hfin.
  destruct (inv_tasks s Hok ref t Hl) as [Hqd Hiq Hbusy Hheld Hcr Hst Hfi Hte Hun].
  destruct (exec_task s e ref t Hl) as (t' & Hl' & Hstep). exists t'.
  split; [exact Hl'|].
  destruct Hstep as [->|[(_ & Hopen & _)|[((idx & rest & _ & _ & _ & Hq) & ->)|(idx & name & outcome & t1 & _ & _ & Hw & _)]]].
  - auto.
  - congruence.
  - assert (Hin : ref ∈ _queue s) by (rewrite Hq; left).
    destruct (Hiq Hin) as [[Hs|[Hs Hc]] _].
    + apply is_finished_spec in Hfin. rewrite Hs in Hfin.
      destruct Hfin as [?|[?|?]]; discriminate.
    + rewrite Hc. cbn. rewrite Hs. auto.
  - assert (Hh : held s ref) by (exists idx; exact Hw).
    apply Hheld in Hh. apply is_finished_spec in Hfin.
    destruct Hh as [Hs|Hs]; rewrite Hs in Hfin; destruct Hfin as [?|[?|?]]; discriminate.
Qed.

Lemma run_finished_start (events : list event) :
  forall (s : plugin) (ref : nat) (t : QuizTask),
    scheduler_ok s -> heap s !! ref = Some t -> is_finished t = true ->
    exists t', heap (run s events) !! ref = Some t'
      /\ status t' = status t /\ started_at t' = started_at t.
Proof.
  induction events as [|e rest IH]; intros s ref t Hok Hl Hfin; cbn [run fold_left].
  - exists t. auto.
  - destruct (exec_finished_start s e ref t Hok Hl Hfin) as (t1 & Hl1 & Hfin1 & Hs1 & Hst1).
    destruct (IH (exec s e) ref t1 (proj1 (exec_ok s e Hok)) Hl1 Hfin1)
      as (t' & Hl' & Hs' & Hst').
    exists t'. split; [exact Hl'|]. split; congruence.
Qed.

(** A worker that has ended stays ended, and its slot stays as it is. *)
Lemma exec_ended (s : plugin) (e : event) (idx : nat) :
  idx ∈ ended s ->
  idx ∈ ended (exec s e) /\ workers (exec s e) !! idx = workers s !! idx.
Proof.
  intros Hin.
  assert (Hcancel : forall ref t,
            idx ∈ ended (request_cancel s ref t).1
            /\ workers (request_cancel s ref t).1 !! idx = workers s !! idx).
  { intros ref t. unfold request_cancel. destruct (bool_decide _); cbn; auto. }
  destruct e as [elapsed|ev|who args_|args_| |i|i name outcome|i]; cbn [exec].
  - cbn. auto.
  - unfold _handle_start. destruct (binding ev); [|auto].
    destruct (negb (group_allowed ev)); [auto|].
    destruct (start_target ev) as [reply|[[cid cname] [mode_ spec_]]]; [auto|].
    destruct (_ && _); [auto|].
    destruct (_has_active_task s (sender_id ev)); cbn; auto.
  - unfold _handle_cancel. destruct args_ as [|tid rest]; [auto|].
    destruct (lookup_task s tid) as [[ref t]|]; [|auto].
    destruct (negb _); [auto|]. destruct (is_finished t); [auto|apply Hcancel].
  - unfold _admin_cancel. destruct args_ as [|tid rest]; [auto|].
    destruct (lookup_task s tid) as [[ref t]|]; [|auto].
    destruct (is_finished t); [auto|apply Hcancel].
  - cbn. auto.
  - destruct (bool_decide (i ∈ ended s)) eqn:Hended; [auto|].
    apply bool_decide_eq_false in Hended.
    assert (Hne : i <> idx) by congruence.
    unfold worker_take. destruct (workers s !! i) as [[held_ref|]|]; auto.
    destruct (_queue s) as [|ref rest]; [auto|].
    destruct (heap s !! ref) as [task|]; [|auto].
    destruct (cancel_event task); cbn [ended workers]; [auto|].
    split; [exact Hin|apply list_lookup_insert_ne, Hne].
  - destruct (bool_decide (i ∈ ended s)) eqn:Hended; [auto|].
    apply bool_decide_eq_false in Hended.
    assert (Hne : i <> idx) by congruence.
    unfold worker_finish. destruct (workers s !! i) as [[ref|]|]; auto.
    destruct (heap s !! ref) as [task|]; [|auto].
    cbn [ended workers]. split; [exact Hin|apply list_lookup_insert_ne, Hne].
  - unfold worker_ends. destruct (_ <? _)%nat; cbn [ended workers]; [|auto].
    split; [right; exact Hin|reflexivity].
Qed.

Lemma run_ended (events : list event) :
  forall (s : plugin) (idx : nat),
    idx ∈ ended s ->
    idx ∈ ended (run s events) /\ workers (run s events) !! idx = workers s !! idx.
Proof.
  induction events as [|e rest IH]; intros s idx Hin; cbn [run fold_left]; [auto|].
  destruct (exec_ended s e idx Hin) as [Hin1 Hw1].
  destruct (IH (exec s e) idx Hin1) as [Hin' Hw'].
  split; [exact Hin'|rewrite <- Hw1; exact Hw'].
Qed.

(** The job a worker had when it ended is never finished: it stays with
    that worker, running or being canceled. *)
Lemma orphan_stays (s : plugin) (events : list event) (idx ref : nat) :
  reachable s -> idx ∈ ended s -> workers s !! idx = Some (Some ref) ->
  workers (run s events) !! idx = Some (Some ref)
  /\ exists t', heap (run s events) !! ref = Some t'
       /\ (status t' = running \/ status t' = canceling)
       /\ finished_at t' = None.
Proof.
  intros Hreach Hin Hw.
  destruct (run_ended events s idx Hin) as [_ Hw']. rewrite Hw in Hw'.
  split; [exact Hw'|].
  pose proof (reachable_ok _ (reachable_run s events Hreach)) as Hok.
  assert (Hheld : held (run s events) ref) by (exists idx; exact Hw').
  pose proof (inv_workers _ Hok ref Hheld) as Hlen.
  apply lookup_lt_is_Some in Hlen as [t' Hl']. exists t'. split; [exact Hl'|].
  pose proof (ok_held _ ref t' (inv_tasks _ Hok ref t' Hl') Hheld) as Hs.
  split; [exact Hs|].
  apply (ok_unfinished _ ref t' (inv_tasks _ Hok ref t' Hl')).
  unfold is_finished. destruct Hs as [-> | ->]; reflexivity.
Qed.

(** C8, as the code has it. For every task object of a reachable
    scheduler state: its creation time is not in the future and never
    changes. Its start time is written once, by the worker that starts
    it and by nothing else: a queued task has none; a task that is
    running, being canceled, completed or failed has one; the only event
    that changes it is a free worker taking the task, queued and with
    its cancel flag down, from the head of the queue, which sets it to
    the current time; a worker that takes a task whose cancel flag is up
    closes it as canceled and leaves the start time alone. A start time
    is not before the creation time and never changes; a finished task
    keeps the start time it has, so a task canceled while it waited
    never gets one. Once the status is one of completed, failed and
    canceled it stays what it is, the finish time is set and is not
    before the creation time, nor before the start time when there is
    one; and a finish time is only ever found on such a task. *)
Theorem task_timestamps_ordered
    (s : plugin) (events : list event) (ref : nat) (t : QuizTask) :
  reachable s -> heap s !! ref = Some t ->
  created_at t <= now s
  /\ (forall x, started_at t = Some x -> created_at t <= x)
  /\ (is_finished t = true ->
      exists f, finished_at t = Some f /\ created_at t <= f
                /\ (forall x, started_at t = Some x -> x <= f))
  /\ (is_finished t = true
      <-> status t = completed \/ status t = failed \/ status t = canceled)
  /\ (finished_at t <> None -> is_finished t = true)
  /\ (exists t', heap (run s events) !! ref = Some t'
        /\ created_at t' = created_at t
        /\ (forall x, started_at t = Some x -> started_at t' = Some x)
        /\ (is_finished t = true ->
            status t' = status t /\ started_at t' = started_at t))
  /\ (status t = queued -> started_at t = None)
  /\ (status t = running \/ status t = canceling
      \/ status t = completed \/ status t = failed ->
      exists x, started_at t = Some x)
  /\ (forall e t1,
        heap (exec s e) !! ref = Some t1 -> started_at t1 <> started_at t ->
        exists idx rest,
          e = WorkerTake idx /\ idx ∉ ended s /\ workers s !! idx = Some None
          /\ _queue s = ref :: rest
          /\ status t = queued /\ cancel_event t = false /\ started_at t = None
          /\ t1 = set_started_at (set_status t running) (now s))
  /\ (forall idx rest,
        workers s !! idx = Some None -> idx ∉ ended s -> _queue s = ref :: rest ->
        heap (exec s (WorkerTake idx)) !! ref
        = Some (if cancel_event t
                then set_finished_at (set_status t canceled) (now s)
                else set_started_at (set_status t running) (now s))).
Proof.
  intros Hreach Hl. pose proof (reachable_ok s Hreach) as Hok.
  pose proof (reachable_start_ok s ref t Hreach Hl) as Hstart.
  destruct (inv_tasks s Hok ref t Hl) as [Hqd Hiq Hbusy Hheld Hcr Hst Hfi Hte Hun].
  split; [exact Hcr|]. split; [intros x Hx; apply Hst, Hx|].
  split; [|split; [apply is_finished_spec|split; [|split; [|split; [|split; [|split]]]]]].
  - intros Hfin. destruct (finished_at t) as [f|] eqn:Hf; [|exfalso; apply (Hte Hfin); reflexivity].
    exists f. destruct (Hfi f eq_refl) as [Hb Hs]. split; [reflexivity|]. split; [lia|exact Hs].
  - intros Hset. destruct (is_finished t) eqn:Hfin; [reflexivity|].
    exfalso. apply Hset, Hun. reflexivity.
  - destruct (run_ok events s Hok) as [_ Hset].
    destruct (Hset ref t Hl) as (t' & Hl' & _ & Hc & Hs & Hf). exists t'.
    split; [exact Hl'|]. split; [exact Hc|]. split; [exact Hs|].
    intros Hfin. split; [apply Hf, Hfin|].
    destruct (run_finished_start events s ref t Hok Hl Hfin) as (t'' & Hl'' & _ & Hst'').
    congruence.
  - intros Hq. unfold start_ok in Hstart. rewrite Hq in Hstart. exact Hstart.
  - intros Hran. unfold start_ok in Hstart.
    destruct (started_at t) as [x|]; [exists x; reflexivity|].
    destruct Hran as [Hs|[Hs|[Hs|Hs]]]; rewrite Hs in Hstart; contradiction.
  - intros e t1 Hl1 Hchanged.
    destruct (exec_task s e ref t Hl) as (t' & Hl' & Hstep).
    assert (t' = t1) by congruence. subst t'.
    destruct Hstep as [->|[(_ & _ & ->)|[((idx & rest & He & Hlive & Hw & Hq) & ->)|(idx & name & outcome & t2 & _ & _ & _ & Hs & _ & ->)]]].
    + contradiction.
    + exfalso. apply Hchanged. destruct (bool_decide _); reflexivity.
    + assert (Hin : ref ∈ _queue s) by (rewrite Hq; left).
      destruct (Hiq Hin) as [Hcases Hnone].
      destruct (cancel_event t) eqn:Hflag; [exfalso; apply Hchanged; reflexivity|].
      exists idx, rest.
      destruct Hcases as [Hs|[_ Hc]]; [|congruence]. repeat split; assumption.
    + exfalso. apply Hchanged. exact Hs.
  - intros idx rest Hw Hlive Hq. cbn [exec].
    rewrite bool_decide_eq_false_2 by exact Hlive.
    unfold worker_take. rewrite Hw, Hq, Hl.
    destruct (cancel_event t); cbn [heap];
      apply list_lookup_insert_eq; eapply lookup_lt_Some; exact Hl.
Qed.

Lemma task_timestamps_ordered_witness :
  exists t, heap finished_run !! 0%nat = Some t
    /\ status t = completed
    /\ started_at t = Some 3
    /\ exists f, finished_at t = Some f /\ created_at t <= f
                 /\ (forall x, started_at t = Some x -> x <= f).
Proof.
  assert (Hreach : reachable finished_run).
  { apply reachable_run. exists default_config, 0, [Start sample_start]. reflexivity. }
  destruct (heap finished_run !! 0%nat) as [t|] eqn:Hl; [|vm_compute in Hl; discriminate].
  exists t. split; [reflexivity|].
  split; [vm_compute in Hl; inversion Hl; reflexivity|].
  split; [vm_compute in Hl; inversion Hl; reflexivity|].
  destruct (task_timestamps_ordered finished_run [] 0%nat t Hreach Hl)
    as (_ & _ & Hfin & _).
  apply Hfin. vm_compute in Hl. inversion Hl. reflexivity.
Defined.

(** C8 as stated fails: a job canceled while it is still queued is final
    without ever getting a start time, and when a worker later takes it
    off the queue its finish time is written a second time. *)
Lemma canceled_while_queued_never_started :
  reachable canceled_run
  /\ (exists t, heap canceled_run !! 0%nat = Some t
                /\ status t = canceled /\ is_finished t = true
                /\ started_at t = None /\ finished_at t = Some 0)
  /\ (finished_at <$> heap (run canceled_run [Tick 5; WorkerTake 0]) !! 0%nat)
     = Some (Some 5).
Proof.
  split; [|split].
  - apply reachable_run. exists default_config, 0, [Start sample_start]. reflexivity.
  - eexists. split; [vm_compute; reflexivity|]. repeat split.
  - vm_compute. reflexivity.
Qed.

End SchedulerFacts.
Section SessionFacts.

Import AutoLogin QuizBot Plugin.

Lemma select_chapters_early (H : hashlib) (P : platform) (b b' : bot) (task : QuizTask)
    (chapters : list chapter) (early : result) :
  select_chapters H P b task chapters = (b', Ret (inl early)) ->
  early = fail_with "未知模式".
Proof.
  unfold select_chapters.
  destruct (String.eqb (mode task) mode_incomplete); [discriminate|].
  destruct (String.eqb (mode task) mode_explicit); [discriminate|].
  destruct (String.eqb (mode task) mode_range).
  - destruct (_parse_range (spec task)) as [[start end_]|e]; discriminate.
  - destruct (String.eqb (mode task) mode_all); [discriminate|].
    intros Heq. inversion Heq. reflexivity.
Qed.

(** C4, as the code has it. A negotiation posts the login form at most
    eight times, once per credential encoding. It declares failure only
    after eight attempts whenever the login page was fetched with status
    200: the key is then the one found in the page or, when the page
    holds none, the one the bot builds itself, and it is never empty. It
    declares failure after four attempts only when the login page could
    not be fetched or came with another status. A job that ends with the
    login failure has posted the login form four or eight times. *)
Theorem login_attempts_at_most_eight (H : hashlib) (P : platform) :
  (forall b : bot,
     exists made : list call,
       log (analyze_network_request H P b).1 = (log b ++ made)%list
       /\ (login_attempts made <= 8)%nat
       /\ (forall page,
             login_page_of P (log b ++ [GetLoginPage]) = Some page ->
             lp_status page = 200 ->
             (get_csrf_token_and_key P b).2 = Some (page_key page)
             /\ page_key page <> ""
             /\ ((analyze_network_request H P b).2 = false ->
                 login_attempts made = 8%nat))
       /\ (login_page_of P (log b ++ [GetLoginPage]) = None
           \/ (exists page, login_page_of P (log b ++ [GetLoginPage]) = Some page
                            /\ lp_status page <> 200) ->
           (get_csrf_token_and_key P b).2 = None
           /\ ((analyze_network_request H P b).2 = false ->
               login_attempts made = 4%nat)))
  /\ (forall (c : config) (bank : list (string * list bank_question))
             (store : BindingStore.store) (task : QuizTask),
        (_execute_task_sync c H P bank store task).2 = Ret (fail_with "登录失败") ->
        login_attempts (_execute_task_sync c H P bank store task).1.1 = 4%nat
        \/ login_attempts (_execute_task_sync c H P bank store task).1.1 = 8%nat).
Proof.
  split.
  { intros b. destruct (analyze_network_request_attempts H P b) as (made & Hmade & Hle & Hfail).
    exists made. split; [exact Hmade|]. split; [exact Hle|].
    rewrite get_csrf_token_and_key_key, key_of_reply_truthy in Hfail.
    rewrite get_csrf_token_and_key_key. split.
    - intros page Hpage Hstatus. rewrite Hpage in *. unfold key_of_reply in *.
      rewrite Hstatus in *. cbn [Z.eqb Pos.eqb] in *.
      split; [reflexivity|]. split; [apply page_key_nonempty|exact Hfail].
    - intros [Hnone|(page & Hpage & Hstatus)].
      + rewrite Hnone in *. cbn [key_of_reply] in *. split; [reflexivity|exact Hfail].
      + rewrite Hpage in *. unfold key_of_reply in *.
        apply Z.eqb_neq in Hstatus. rewrite Hstatus in *.
        split; [reflexivity|exact Hfail]. }
  intros c bank store task. unfold _execute_task_sync.
  destruct (BindingStore.get store (qq_id task)) as [[creds|]|e]; try discriminate.
  set (b0 := new_bot _ _).
  pose proof (check_login_status_log P b0) as Hlog1.
  destruct (check_login_status P b0) as [b1 logged_in]. cbn [fst] in Hlog1.
  destruct logged_in.
  - cbn [negb].
    destruct (get_all_courses P _) as [b4 courses].
    destruct (course_id task) as [cid|]; [|discriminate].
    destruct (List.find _ courses) as [found|]; [|discriminate].
    destruct (get_chapters P b4 cid) as [b5 chapters].
    destruct chapters as [|ch chapters]; [discriminate|].
    destruct (select_chapters H P b5 _ _) as [b6 [[early|selected]|e]] eqn:Hsel;
      [| |discriminate].
    + apply select_chapters_early in Hsel. subst early. discriminate.
    + destruct selected; [discriminate|].
      destruct (run_chapters _ _ _ _ _) as [b7 t]. discriminate.
  - destruct (analyze_network_request_attempts H P b1) as (made & Hmade & _ & Hfail).
    destruct (analyze_network_request H P b1) as [b2 ok]. cbn [fst snd] in *.
    destruct ok; cbn [negb].
    + destruct (get_all_courses P _) as [b4 courses].
      destruct (course_id task) as [cid|]; [|discriminate].
      destruct (List.find _ courses) as [found|]; [|discriminate].
      destruct (get_chapters P b4 cid) as [b5 chapters].
      destruct chapters as [|ch chapters]; [discriminate|].
      destruct (select_chapters H P b5 _ _) as [b6 [[early|selected]|e]] eqn:Hsel;
        [| |discriminate].
      * apply select_chapters_early in Hsel. subst early. discriminate.
      * destruct selected; [discriminate|].
        destruct (run_chapters _ _ _ _ _) as [b7 t]. discriminate.
    + intros _. cbn [fst snd]. rewrite Hmade, Hlog1.
      unfold login_attempts in *. rewrite !posted_passwords_app, !length_app.
      cbn [posted_passwords omap length b0 new_bot log]. rewrite (Hfail eq_refl).
      destruct (truthy _); [right|left]; reflexivity.
Qed.

(** C4 as stated fails: against a platform that turns every password
    down, the job posts the login form eight times before it ends with
    the login failure. *)
Lemma login_attempts_exceed_three :
  (_execute_task_sync default_config tagging_hashlib rejecting_platform []
     (sample_store transparent_fernet) sample_task).2
  = Ret (fail_with "登录失败")
  /\ login_attempts
       (_execute_task_sync default_config tagging_hashlib rejecting_platform []
          (sample_store transparent_fernet) sample_task).1.1 = 8%nat
  /\ ~ (login_attempts
          (_execute_task_sync default_config tagging_hashlib rejecting_platform []
             (sample_store transparent_fernet) sample_task).1.1 <= 3)%nat.
Proof.
  assert (Hn : login_attempts
                 (_execute_task_sync default_config tagging_hashlib rejecting_platform []
                    (sample_store transparent_fernet) sample_task).1.1 = 8%nat)
    by (vm_compute; reflexivity).
  split; [vm_compute; reflexivity|]. split; [exact Hn|]. rewrite Hn. lia.
Qed.

End SessionFacts.
Section ExclusivityFacts.

Import Plugin.

Lemma indexed_update (s : plugin) (ref : nat) (t t' : QuizTask)
    (q' : list nat) (w' : list (option nat)) :
  indexed s -> heap s !! ref = Some t ->
  (is_finished t' = false -> is_finished t = false) ->
  indexed (mkPlugin (cfg s) (<[ref := t']> (heap s)) (_tasks s) q' w' (now s) (ended s)).
Proof.
  intros Hidx Hl Hfin r u Hu Hopen. cbn [heap _tasks] in *.
  assert (Hlen : (ref < length (heap s))%nat) by (eapply lookup_lt_Some; eauto).
  destruct (decide (r = ref)) as [->|Hne].
  - rewrite list_lookup_insert_eq in Hu by exact Hlen. inversion Hu; subst.
    eapply Hidx; eauto.
  - rewrite list_lookup_insert_ne in Hu by congruence. eapply Hidx; eauto.
Qed.

Lemma request_cancel_indexed (s : plugin) (ref : nat) (t : QuizTask) :
  indexed s -> heap s !! ref = Some t -> is_finished t = false ->
  indexed (request_cancel s ref t).1.
Proof.
  intros Hidx Hl Hfin. unfold request_cancel.
  destruct (bool_decide _); cbn [fst]; unfold set_heap;
    apply (indexed_update s ref t); auto.
Qed.

Lemma exec_indexed (s : plugin) (e : event) :
  scheduler_ok s -> indexed s -> fresh_uuid s e -> indexed (exec s e).
Proof.
  intros Hok Hidx Hfresh. destruct e as [elapsed|ev|who args_|args_| |idx|idx name outcome|idx];
    cbn [exec].
  - exact Hidx.
  - cbn [fresh_uuid] in Hfresh. unfold _handle_start.
    destruct (binding ev); [|exact Hidx].
    destruct (negb (group_allowed ev)); [exact Hidx|].
    destruct (start_target ev) as [reply|[[cid cname] [mode_ spec_]]]; [exact Hidx|].
    destruct (_ && _); [exact Hidx|].
    destruct (_has_active_task s (sender_id ev)); [exact Hidx|].
    cbn [fst]. intros r u Hu Hopen. cbn [enqueue heap _tasks task_id] in *.
    apply lookup_app_Some in Hu as [Hu|[Hge Hu]].
    + destruct (Hidx r u Hu Hopen) as [tid Htid]. exists tid.
      rewrite lookup_insert_ne; [exact Htid|]. intros <-. congruence.
    + apply list_lookup_singleton_Some in Hu as [Heq _].
      exists (uuid ev). replace r with (length (heap s)) by lia. apply lookup_insert_eq.
  - unfold _handle_cancel. destruct args_ as [|tid rest]; [exact Hidx|].
    destruct (lookup_task s tid) as [[ref t]|] eqn:Hfind; [|exact Hidx].
    destruct (negb _); [exact Hidx|].
    destruct (is_finished t) eqn:Hfin; [exact Hidx|].
    apply request_cancel_indexed; auto. eapply lookup_task_Some; eauto.
  - unfold _admin_cancel. destruct args_ as [|tid rest]; [exact Hidx|].
    destruct (lookup_task s tid) as [[ref t]|] eqn:Hfind; [|exact Hidx].
    destruct (is_finished t) eqn:Hfin; [exact Hidx|].
    apply request_cancel_indexed; auto. eapply lookup_task_Some; eauto.
  - intros r u Hu Hopen. cbn [_cleanup_tasks heap _tasks] in *.
    destruct (Hidx r u Hu Hopen) as [tid Htid]. exists tid.
    apply map_lookup_filter_Some. split; [exact Htid|]. cbn.
    unfold is_stale. rewrite Hu.
    rewrite (ok_unfinished s r u (inv_tasks s Hok r u Hu) Hopen). reflexivity.
  - destruct (bool_decide (idx ∈ ended s)); [exact Hidx|]. unfold worker_take.
    destruct (workers s !! idx) as [[held_ref|]|]; try exact Hidx.
    destruct (_queue s) as [|ref rest] eqn:Hq; [exact Hidx|].
    destruct (heap s !! ref) as [task|] eqn:Hl; [|exact Hidx].
    destruct (cancel_event task) eqn:Hev.
    + apply (indexed_update s ref task); auto. cbn. discriminate.
    + apply (indexed_update s ref task); auto. intros _.
      destruct (inv_tasks s Hok ref task Hl) as [Hqd Hiq Hbusy Hheld Hcr Hst Hfi Hte Hun].
      rewrite Hq in Hiq. destruct (Hiq ltac:(left)) as [[Hqueued|[_ Hset]] _];
        [|congruence].
      unfold is_finished. rewrite Hqueued. reflexivity.
  - destruct (bool_decide (idx ∈ ended s)); [exact Hidx|]. unfold worker_finish.
    destruct (workers s !! idx) as [[ref|]|]; try exact Hidx.
    destruct (heap s !! ref) as [task|] eqn:Hl; [|exact Hidx].
    apply (indexed_update s ref task); auto.
    intros Hopen. exfalso. revert Hopen.
    destruct name, outcome as [res|e];
      try destruct (res_canceled res); try destruct (res_success res); cbn; discriminate.
  - unfold worker_ends. destruct (_ <? _)%nat; exact Hidx.
Qed.

Lemma run_indexed (events : list event) :
  forall s : plugin,
    scheduler_ok s -> indexed s -> fresh_ids s events -> indexed (run s events).
Proof.
  induction events as [|e rest IH]; intros s Hok Hidx Hfresh; cbn [run fold_left].
  - exact Hidx.
  - destruct Hfresh as [Hfresh Hrest].
    apply IH; [apply exec_ok, Hok|apply exec_indexed; assumption|exact Hrest].
Qed.

Lemma indexed_init (c : config) (t0 : Z) : indexed (init c t0).
Proof. intros ref t Hl. cbn in Hl. rewrite lookup_nil in Hl. discriminate. Qed.

Lemma is_active_not_finished (t : QuizTask) :
  is_active t = true -> is_finished t = false.
Proof.
  intros Hact. apply is_active_queued_or_running in Hact.
  unfold is_finished. destruct Hact as [->| ->]; reflexivity.
Qed.

(** C1. In every state the scheduler reaches from its start, two entries
    of the task index that belong to the same user and are both queued or
    running are one and the same task; when no start request was handed
    an identifier already in the index, the same holds of any two task
    objects, indexed or not. A start request made while its sender has
    such a task leaves the scheduler untouched (no task is created,
    indexed or queued), and once the request has passed the checks that
    precede the active-task check, the reply is the fixed text
    [msg_active]. *)
Theorem single_active_task_per_user (c : config) (t0 : Z) (events : list event) :
  let s := run (init c t0) events in
  (forall tid1 tid2 ref1 ref2 t1 t2,
     _tasks s !! tid1 = Some ref1 -> _tasks s !! tid2 = Some ref2 ->
     heap s !! ref1 = Some t1 -> heap s !! ref2 = Some t2 ->
     qq_id t1 = qq_id t2 -> is_active t1 = true -> is_active t2 = true ->
     tid1 = tid2 /\ ref1 = ref2)
  /\ (fresh_ids (init c t0) events ->
      forall ref1 ref2 t1 t2,
        heap s !! ref1 = Some t1 -> heap s !! ref2 = Some t2 ->
        qq_id t1 = qq_id t2 -> is_active t1 = true -> is_active t2 = true ->
        ref1 = ref2)
  /\ (forall ev : start_event,
        _has_active_task s (sender_id ev) = true ->
        (_handle_start s ev).1 = s
        /\ (forall creds cid cname mode_ spec_,
              binding ev = Some creds -> group_allowed ev = true ->
              start_target ev = inr (cid, cname, (mode_, spec_)) ->
              str_in mode_ [mode_explicit; mode_range] && String.eqb spec_ "" = false ->
              (_handle_start s ev).2 = msg_active)).
Proof.
  intros s.
  assert (Hok : scheduler_ok s) by (apply run_ok, scheduler_ok_init).
  split; [|split].
  - intros tid1 tid2 ref1 ref2 t1 t2 Hi1 Hi2 Hh1 Hh2 Hqq Ha1 Ha2.
    assert (ref1 = ref2) by (eapply (inv_single s Hok); eauto). subst ref2.
    split; [|reflexivity]. eapply (inv_inj s Hok); eauto.
  - intros Hfresh ref1 ref2 t1 t2 Hh1 Hh2 Hqq Ha1 Ha2.
    assert (Hidx : indexed s)
      by (apply run_indexed; [apply scheduler_ok_init|apply indexed_init|exact Hfresh]).
    destruct (Hidx ref1 t1 Hh1 (is_active_not_finished t1 Ha1)) as [tid1 Hi1].
    destruct (Hidx ref2 t2 Hh2 (is_active_not_finished t2 Ha2)) as [tid2 Hi2].
    eapply (inv_single s Hok); eauto.
  - intros ev Hbusy. split.
    + unfold _handle_start. destruct (binding ev); [|reflexivity].
      destruct (negb (group_allowed ev)); [reflexivity|].
      destruct (start_target ev) as [reply|[[cid cname] [mode_ spec_]]]; [reflexivity|].
      destruct (_ && _); [reflexivity|]. rewrite Hbusy. reflexivity.
    + intros creds cid cname mode_ spec_ Hbound Hallowed Htarget Hspec.
      unfold _handle_start. rewrite Hbound, Hallowed, Htarget. cbn [negb].
      rewrite Hspec, Hbusy. reflexivity.
Qed.

Lemma single_active_task_per_user_witness :
  _has_active_task queued_run "10001" = true
  /\ _handle_start queued_run sample_start = (queued_run, msg_active).
Proof.
  assert (Hbusy : _has_active_task queued_run (sender_id sample_start) = true)
    by (vm_compute; reflexivity).
  split; [exact Hbusy|].
  destruct (single_active_task_per_user default_config 0 [Start sample_start])
    as (_ & _ & Hreject).
  destruct (Hreject sample_start Hbusy) as [Hstate Hreply].
  rewrite (surjective_pairing (_handle_start queued_run sample_start)).
  change (run (init default_config 0) [Start sample_start]) with queued_run in *.
  rewrite Hstate.
  rewrite (Hreply (BindingStore.mkCredentials "alice" "secret" "" "") (Some 7)
             "马克思主义基本原理" mode_all "" eq_refl eq_refl eq_refl eq_refl).
  reflexivity.
Defined.

End ExclusivityFacts.
Section NegotiationSamples.

Import AutoLogin Plugin.

Lemma login_attempts_at_most_eight_witness :
  exists made : list call,
    log (analyze_network_request tagging_hashlib keyless_platform
           (new_bot "alice" "secret")).1 = made
    /\ login_attempts made = 8%nat.
Proof.
  destruct (proj1 (login_attempts_at_most_eight tagging_hashlib keyless_platform)
              (new_bot "alice" "secret")) as (made & Hlog & _ & Hpage & _).
  exists made. split; [exact Hlog|].
  apply (Hpage (mkLoginPage 200 None 1769900000 "abcdefgh") eq_refl eq_refl).
  vm_compute. reflexivity.
Defined.

Lemma negotiation_tries_candidates_in_order_witness :
  posted_passwords
    (log (analyze_network_request tagging_hashlib rejecting_platform
            (new_bot "alice" "secret")).1)
  = ["secret"; "md5(secret)"; "sha1(secret)"; "sha256(secret)";
     "md5(secretk)"; "md5(ksecret)"; "sha1(secretk)"; "sha256(secretk)"].
Proof.
  destruct (negotiation_tries_candidates_in_order tagging_hashlib rejecting_platform
              (new_bot "alice" "secret"))
    as (_ & _ & Hcandidates & made & n & Hlog & Hposted & _ & Hfail & _).
  rewrite Hlog.
  change (posted_passwords (log (new_bot "alice" "secret") ++ GetLoginPage :: made))
    with (posted_passwords made).
  rewrite Hposted, (proj1 (Hfail eq_refl)), Hcandidates.
  reflexivity.
Defined.

End NegotiationSamples.

Section CredentialStoreFacts.

Import BindingStore.

Lemma bind_keeps_fernet (st : store) (env : bind_env) (qq u p : string) :
  _fernet (bind st env qq u p).1 = _fernet st.
Proof.
  unfold bind. destruct (bindings st !! qq); [destruct (decide _)|]; reflexivity.
Qed.

(** X1. What was bound can be read back: after a first [bind] of an
    identity, and after a [bind] that repeats the stored username, [get]
    returns the username and the password just given, provided the key
    decrypts the token it produced for that password. *)
Theorem bind_then_get (st : store) (env : bind_env) (qq u p : string) :
  fernet_decrypt (_fernet st) (fernet_encrypt (_fernet st) (iv env) p) = Some p ->
  (bindings st !! qq = None ->
     bind st env qq u p = ((bind st env qq u p).1, (true, msg_bound_ok))
     /\ get (bind st env qq u p).1 qq
        = Ret (Some (mkCredentials u p (now_first env) (now_second env))))
  /\ (forall existing,
        bindings st !! qq = Some existing -> existing !! "username" = Some u ->
        get (bind st env qq u p).1 qq
        = Ret (Some (mkCredentials u p (default "" (existing !! "bound_at"))
                       (now_first env)))).
Proof.
  intros Hkey. split.
  - intros Hnone. unfold bind. rewrite Hnone. cbn [fst]. split; [reflexivity|].
    unfold get, set_bindings. cbn [bindings]. rewrite lookup_insert_eq.
    unfold dict_is_empty. rewrite bool_decide_eq_false_2 by apply insert_non_empty.
    unfold _decrypt, _encrypt. cbn [_fernet].
    repeat (rewrite lookup_insert_eq || rewrite lookup_insert_ne by discriminate).
    unfold default, from_option, id. rewrite Hkey. reflexivity.
  - intros existing Hsome Huser. unfold bind. rewrite Hsome.
    destruct (decide _) as [_|Hne]; [|contradiction]. cbn [fst].
    unfold get, set_bindings. cbn [bindings]. rewrite lookup_insert_eq.
    unfold dict_is_empty. rewrite bool_decide_eq_false_2 by apply insert_non_empty.
    unfold _decrypt, _encrypt. cbn [_fernet].
    repeat (rewrite lookup_insert_eq || rewrite lookup_insert_ne by discriminate).
    unfold default, from_option, id. rewrite Hkey, Huser. reflexivity.
Qed.

Lemma bind_then_get_witness :
  get (bind (empty_store transparent_fernet) sample_bind_env "10001" "alice" "secret").1 "10001"
  = Ret (Some (mkCredentials "alice" "secret" "2026-02-01 09:00:00" "2026-02-01 09:00:01")).
Proof.
  apply (proj1 (bind_then_get (empty_store transparent_fernet) sample_bind_env
                  "10001" "alice" "secret" eq_refl)).
  reflexivity.
Defined.

Lemma bind_step_keeps_username (st : store) (env : bind_env) (qq qq' u p : string)
    (existing : gmap string string) :
  bindings st !! qq = Some existing ->
  exists kept,
    bindings (bind st env qq' u p).1 !! qq = Some kept
    /\ kept !! "username" = existing !! "username"
    /\ kept !! "bound_at" = existing !! "bound_at".
Proof.
  intros Hsome. unfold bind.
  destruct (decide (qq' = qq)) as [->|Hne].
  - rewrite Hsome. destruct (decide _) as [Heq|_]; cbn [fst]; [|eauto].
    eexists. cbn [set_bindings bindings]. rewrite lookup_insert_eq.
    split; [reflexivity|].
    repeat (rewrite lookup_insert_ne by discriminate). auto.
  - destruct (bindings st !! qq') as [other|]; [destruct (decide _)|]; cbn [fst];
      cbn [set_bindings bindings]; rewrite ?lookup_insert_ne by exact Hne; eauto.
Qed.

(** X2. Once an identity is bound, no series of [bind] calls, whoever makes
    them and whatever they carry, removes the binding or changes its
    username or its [bound_at]. *)
Theorem bound_username_is_permanent (st : store) (calls : list bind_call) (qq : string)
    (existing : gmap string string) :
  bindings st !! qq = Some existing ->
  exists kept,
    bindings (bind_all st calls) !! qq = Some kept
    /\ kept !! "username" = existing !! "username"
    /\ kept !! "bound_at" = existing !! "bound_at".
Proof.
  revert st existing. induction calls as [|c rest IH]; intros st existing Hsome.
  - exists existing. auto.
  - cbn [bind_all fold_left].
    destruct (bind_step_keeps_username st (bc_env c) qq (bc_qq_id c) (bc_username c)
                (bc_password c) existing Hsome) as (mid & Hmid & Hu & Hb).
    destruct (IH _ mid Hmid) as (kept & Hkept & Hu' & Hb').
    exists kept. split; [exact Hkept|]. split; congruence.
Qed.

Lemma bound_username_is_permanent_witness :
  exists kept,
    bindings (bind_all (sample_store transparent_fernet)
                [mkBindCall sample_bind_env "10001" "bob" "x";
                 mkBindCall sample_bind_env "10001" "alice" "y";
                 mkBindCall sample_bind_env "10002" "alice" "z"]) !! "10001" = Some kept
    /\ kept !! "username" = sample_binding !! "username"
    /\ kept !! "bound_at" = sample_binding !! "bound_at".
Proof.
  apply (bound_username_is_permanent (sample_store transparent_fernet)). vm_compute. reflexivity.
Defined.

Lemma safe_entry_password (qq : string) (info : gmap string string) :
  safe_entry qq info !! "password" = None.
Proof. unfold safe_entry. repeat (rewrite lookup_insert_ne by discriminate). apply lookup_empty. Qed.

(** X3. [list_safe] gives exactly one entry per binding, carrying its
    identity, username and two dates, and no entry has a ["password"] field,
    whatever the stored binding holds. *)
Theorem list_safe_hides_passwords (st : store) :
  length (list_safe st) = size (bindings st)
  /\ (forall entry, entry ∈ list_safe st ->
        entry !! "password" = None
        /\ exists qq info,
             bindings st !! qq = Some info /\ entry = safe_entry qq info
             /\ entry !! "qq_id" = Some qq
             /\ entry !! "username" = Some (default "" (info !! "username")))
  /\ (forall qq info, bindings st !! qq = Some info -> safe_entry qq info ∈ list_safe st).
Proof.
  unfold list_safe. split; [|split].
  - rewrite length_fmap. apply length_map_to_list.
  - intros entry Hin. apply list_elem_of_fmap in Hin as ([qq info] & -> & Hin).
    apply elem_of_map_to_list in Hin. cbn [fst snd]. split; [apply safe_entry_password|].
    exists qq, info. split; [exact Hin|]. split; [reflexivity|].
    unfold safe_entry. split.
    + repeat (rewrite lookup_insert_ne by discriminate). apply lookup_insert_eq.
    + repeat (rewrite lookup_insert_ne by discriminate). apply lookup_insert_eq.
  - intros qq info Hsome. apply list_elem_of_fmap. exists (qq, info).
    split; [reflexivity|]. apply elem_of_map_to_list, Hsome.
Qed.

(** X4. [_mask_text] keeps the length of the text; it shows the first [keep]
    characters only when the text is longer than [keep], and every other
    position, or every position of a text of at most [keep] characters,
    holds the star. *)
Theorem _mask_text_shows_at_most_keep {A : Type} (star : A) (text : list A) (keep : nat) :
  length (_mask_text star text keep) = length text
  /\ (forall i, (i < length text)%nat -> (keep <= i \/ length text <= keep)%nat ->
        _mask_text star text keep !! i = Some star)
  /\ (forall i, (i < keep)%nat -> (keep < length text)%nat ->
        _mask_text star text keep !! i = text !! i).
Proof.
  unfold _mask_text. destruct text as [|c rest]; [cbn; repeat split; intros; lia|].
  set (text := c :: rest). destruct (length text <=? keep)%nat eqn:Hshort.
  - apply Nat.leb_le in Hshort. split; [apply length_replicate|]. split.
    + intros i Hi _. apply lookup_replicate. auto.
    + intros i Hi Hlong. lia.
  - apply Nat.leb_gt in Hshort. split; [|split].
    + rewrite length_app, length_take, length_replicate. lia.
    + intros i Hi [Hge|Hle]; [|lia].
      rewrite lookup_app_r by (rewrite length_take; lia).
      apply lookup_replicate. rewrite length_take. split; [reflexivity|lia].
    + intros i Hi _. rewrite lookup_app_l by (rewrite length_take; lia).
      apply lookup_take_lt. exact Hi.
Qed.

Lemma _mask_text_shows_at_most_keep_witness :
  _mask_text "*"%char (String.list_ascii_of_string "alice") 2 !! 3%nat = Some "*"%char.
Proof.
  apply (proj1 (proj2 (_mask_text_shows_at_most_keep "*"%char
                         (String.list_ascii_of_string "alice") 2))); cbn; lia.
Defined.

End CredentialStoreFacts.
Section SchedulerFrame.

Import Plugin.

Lemma same_job_refl (t : QuizTask) : same_job t t.
Proof. repeat split. Qed.

Lemma _parse_mode_known (args_ : list string) : known_mode (_parse_mode args_).1 = true.
Proof.
  unfold _parse_mode. destruct args_ as [|m rest]; [reflexivity|].
  repeat break_if; reflexivity.
Qed.

Lemma request_cancel_shape (s : plugin) (ref : nat) (t : QuizTask) :
  heap s !! ref = Some t ->
  cfg (request_cancel s ref t).1 = cfg s
  /\ workers (request_cancel s ref t).1 = workers s
  /\ now (request_cancel s ref t).1 = now s
  /\ _tasks (request_cancel s ref t).1 = _tasks s
  /\ step_shape s (request_cancel s ref t).1.
Proof.
  intros Hl. unfold request_cancel. destruct (bool_decide _); cbn [fst]; unfold set_heap;
    cbn [cfg workers now _tasks]; repeat (split; [reflexivity|]);
    left; (split; [right|left; reflexivity]); eexists ref, t, _;
    (split; [exact Hl|]); (split; [reflexivity|]); repeat split.
Qed.

(** One event leaves the configuration and the number of workers as they
    are, never turns the clock back, and changes the task objects and the
    queue in one of the three ways of [step_shape]. *)
Lemma exec_shape (s : plugin) (e : event) :
  cfg (exec s e) = cfg s
  /\ length (workers (exec s e)) = length (workers s)
  /\ now s <= now (exec s e)
  /\ step_shape s (exec s e).
Proof.
  assert (Hsame : cfg s = cfg s /\ length (workers s) = length (workers s)
                  /\ now s <= now s /\ step_shape s s).
  { repeat split; try lia. left. split; left; reflexivity. }
  destruct e as [elapsed|ev|who args_|args_| |idx|idx name outcome|idx]; cbn [exec].
  - cbn. repeat split; try lia. left. split; left; reflexivity.
  - unfold _handle_start. destruct (binding ev); [|exact Hsame].
    destruct (negb (group_allowed ev)); [exact Hsame|].
    destruct (start_target ev) as [reply|[[cid cname] [mode_ spec_]]] eqn:Htarget;
      [exact Hsame|].
    destruct (_ && _); [exact Hsame|].
    destruct (_has_active_task s (sender_id ev)); [exact Hsame|].
    cbn. repeat split; try lia. right. eexists. split; [reflexivity|].
    split; [reflexivity|]. split; [reflexivity|]. split; [reflexivity|]. cbn [mode].
    unfold start_target in Htarget. destruct (args ev) as [|token rest]; [discriminate|].
    destruct (_ && _).
    + destruct (chapter_cache ev) as [[cid0 cname0]|]; [|discriminate].
      pose proof (_parse_mode_known (token :: rest)) as Hk.
      destruct (_parse_mode (token :: rest)) as [m sp].
      inversion Htarget; subst. exact Hk.
    + destruct (resolved ev) as [err|[cid0 cname0]]; [discriminate|].
      pose proof (_parse_mode_known rest) as Hk.
      destruct (_parse_mode rest) as [m sp].
      inversion Htarget; subst. exact Hk.
  - unfold _handle_cancel. destruct args_ as [|tid rest]; [exact Hsame|].
    destruct (lookup_task s tid) as [[ref t]|] eqn:Hfind; [|exact Hsame].
    destruct (negb _); [exact Hsame|]. destruct (is_finished t); [exact Hsame|].
    apply lookup_task_Some in Hfind.
    destruct (request_cancel_shape s ref t Hfind) as (-> & -> & -> & _ & Hshape).
    repeat split; try lia. exact Hshape.
  - unfold _admin_cancel. destruct args_ as [|tid rest]; [exact Hsame|].
    destruct (lookup_task s tid) as [[ref t]|] eqn:Hfind; [|exact Hsame].
    destruct (is_finished t); [exact Hsame|].
    apply lookup_task_Some in Hfind.
    destruct (request_cancel_shape s ref t Hfind) as (-> & -> & -> & _ & Hshape).
    repeat split; try lia. exact Hshape.
  - cbn. repeat split; try lia. left. split; left; reflexivity.
  - destruct (bool_decide (idx ∈ ended s)); [exact Hsame|]. unfold worker_take.
    destruct (workers s !! idx) as [[held_ref|]|]; try exact Hsame.
    destruct (_queue s) as [|ref rest] eqn:Hq; [exact Hsame|].
    destruct (heap s !! ref) as [task|] eqn:Hl; [|exact Hsame].
    destruct (cancel_event task); cbn [cfg workers now]; rewrite ?length_insert;
      repeat (split; [reflexivity || lia|]);
      left; (split; [right|right; exists ref; exact Hq]);
      eexists ref, task, _; (split; [exact Hl|]); (split; [reflexivity|]); repeat split.
  - destruct (bool_decide (idx ∈ ended s)); [exact Hsame|]. unfold worker_finish.
    destruct (workers s !! idx) as [[ref|]|]; try exact Hsame.
    destruct (heap s !! ref) as [task|] eqn:Hl; [|exact Hsame].
    cbn [cfg workers now]. rewrite length_insert.
    repeat (split; [reflexivity || lia|]).
    left. split; [right|left; reflexivity].
    eexists ref, task, _. split; [exact Hl|]. split; [reflexivity|].
    destruct name, outcome as [res|err];
      try destruct (res_canceled res); try destruct (res_success res); repeat split.
  - unfold worker_ends. destruct (_ <? _)%nat; [|exact Hsame].
    cbn. repeat split; try lia. left. split; left; reflexivity.
Qed.

End SchedulerFrame.
Section SchedulerReach.

Import Plugin.

Lemma run_frame (events : list event) :
  forall s : plugin,
    cfg (run s events) = cfg s
    /\ length (workers (run s events)) = length (workers s)
    /\ now s <= now (run s events).
Proof.
  induction events as [|e rest IH]; intros s; cbn [run fold_left].
  - repeat split; lia.
  - destruct (exec_shape s e) as (Hc & Hw & Hn & _).
    destruct (IH (exec s e)) as (Hc' & Hw' & Hn'). fold (run (exec s e) rest).
    unfold run in *. rewrite Hc', Hw', Hc, Hw. repeat split. lia.
Qed.

Lemma _max_concurrency_bounds (c : config) : 1 <= _max_concurrency c <= 3.
Proof.
  unfold _max_concurrency.
  destruct (max_concurrency c <? 1) eqn:H1.
  - cbn. lia.
  - destruct (3 <? max_concurrency c) eqn:H3; lia.
Qed.

(** Only the end of a worker adds to the list of ended workers, and
    only a worker of the pool. *)
Lemma exec_ended_new (s : plugin) (e : event) (idx : nat) :
  idx ∈ ended (exec s e) -> idx ∈ ended s \/ (idx < length (workers s))%nat.
Proof.
  assert (Hcancel : forall ref t,
            idx ∈ ended (request_cancel s ref t).1 -> idx ∈ ended s).
  { intros ref t. unfold request_cancel. destruct (bool_decide _); cbn; auto. }
  destruct e as [elapsed|ev|who args_|args_| |i|i name outcome|i]; cbn [exec].
  - cbn. auto.
  - unfold _handle_start. destruct (binding ev); [|auto].
    destruct (negb (group_allowed ev)); [auto|].
    destruct (start_target ev) as [reply|[[cid cname] [mode_ spec_]]]; [auto|].
    destruct (_ && _); [auto|].
    destruct (_has_active_task s (sender_id ev)); cbn; auto.
  - unfold _handle_cancel. destruct args_ as [|tid rest]; [auto|].
    destruct (lookup_task s tid) as [[ref t]|]; [|auto].
    destruct (negb _); [auto|]. destruct (is_finished t); [auto|].
    intros Hin. left. exact (Hcancel ref t Hin).
  - unfold _admin_cancel. destruct args_ as [|tid rest]; [auto|].
    destruct (lookup_task s tid) as [[ref t]|]; [|auto].
    destruct (is_finished t); [auto|]. intros Hin. left. exact (Hcancel ref t Hin).
  - cbn. auto.
  - destruct (bool_decide (i ∈ ended s)); [auto|].
    unfold worker_take. destruct (workers s !! i) as [[held_ref|]|]; auto.
    destruct (_queue s) as [|ref rest]; [auto|].
    destruct (heap s !! ref) as [task|]; [|auto].
    destruct (cancel_event task); cbn [ended]; auto.
  - destruct (bool_decide (i ∈ ended s)); [auto|].
    unfold worker_finish. destruct (workers s !! i) as [[ref|]|]; auto.
    destruct (heap s !! ref) as [task|]; [|auto]. cbn [ended]. auto.
  - unfold worker_ends. destruct (i <? length (workers s))%nat eqn:Hi; cbn [ended]; [|auto].
    intros Hin. apply elem_of_cons in Hin as [->|Hin]; [|auto].
    right. apply Nat.ltb_lt, Hi.
Qed.

Lemma run_ended_in_pool (events : list event) :
  forall s : plugin,
    (forall idx, idx ∈ ended s -> (idx < length (workers s))%nat) ->
    forall idx, idx ∈ ended (run s events) -> (idx < length (workers (run s events)))%nat.
Proof.
  induction events as [|e rest IH]; intros s Hall; cbn [run fold_left]; [exact Hall|].
  apply IH. intros idx Hin.
  destruct (exec_shape s e) as (_ & Hlen & _). rewrite Hlen.
  destruct (exec_ended_new s e idx Hin) as [Hold|Hnew]; [apply Hall, Hold|exact Hnew].
Qed.

(** X5. The worker pool. Whatever the configured number, the plugin
    starts between one and three workers and never another one, and no
    more jobs than that are running (or running with a cancellation
    pending) at any moment. A worker can end, when one of its
    notifications fails twice; it is a worker of the pool, it stays ended
    and takes and finishes nothing any more, its slot stays as it is, and
    the job it had just started, if any, stays running or being canceled
    without ever getting a finish time. *)
Theorem worker_pool_bound (c : config) (t0 : Z) (events : list event) (refs : list nat) :
  NoDup refs ->
  (forall ref, ref ∈ refs ->
     exists t, heap (run (init c t0) events) !! ref = Some t
               /\ (status t = running \/ status t = canceling)) ->
  (length refs <= length (workers (run (init c t0) events)))%nat
  /\ length (workers (run (init c t0) events)) = Z.to_nat (_max_concurrency c)
  /\ 1 <= _max_concurrency c <= 3
  /\ (forall idx, idx ∈ ended (run (init c t0) events) ->
        (idx < length (workers (run (init c t0) events)))%nat)
  /\ (forall more idx,
        idx ∈ ended (run (init c t0) events) ->
        idx ∈ ended (run (run (init c t0) events) more)
        /\ workers (run (run (init c t0) events) more) !! idx
           = workers (run (init c t0) events) !! idx
        /\ exec (run (run (init c t0) events) more) (WorkerTake idx)
           = run (run (init c t0) events) more
        /\ (forall name outcome,
              exec (run (run (init c t0) events) more) (WorkerFinish idx name outcome)
              = run (run (init c t0) events) more))
  /\ (forall more idx ref,
        idx ∈ ended (run (init c t0) events) ->
        workers (run (init c t0) events) !! idx = Some (Some ref) ->
        exists t', heap (run (run (init c t0) events) more) !! ref = Some t'
                   /\ (status t' = running \/ status t' = canceling)
                   /\ finished_at t' = None).
Proof.
  intros Hnodup Hbusy.
  destruct (run_frame events (init c t0)) as (_ & Hlen & _).
  cbn [init workers] in Hlen. rewrite length_replicate in Hlen.
  assert (Hreach : reachable (run (init c t0) events)) by (exists c, t0, events; reflexivity).
  split; [|split; [exact Hlen|split; [apply _max_concurrency_bounds|split; [|split]]]].
  - pose proof (proj1 (run_ok events (init c t0) (scheduler_ok_init c t0))) as Hok.
    rewrite <- (length_fmap Some refs). apply submseteq_length, NoDup_submseteq.
    + apply NoDup_fmap_2; [|exact Hnodup]. intros x y Heq. inversion Heq. reflexivity.
    + intros x Hx. apply list_elem_of_fmap in Hx as (ref & -> & Hin).
      destruct (Hbusy ref Hin) as (t & Hl & Hst).
      destruct (ok_busy _ _ _ (inv_tasks _ Hok ref t Hl) Hst) as [idx Hidx].
      eapply list_elem_of_lookup_2. exact Hidx.
  - apply run_ended_in_pool. intros idx Hin. cbn in Hin. apply elem_of_nil in Hin.
    contradiction.
  - intros more idx Hin. destruct (run_ended more _ idx Hin) as [Hin' Hw'].
    split; [exact Hin'|]. split; [exact Hw'|].
    split; [|intros name outcome]; cbn [exec];
      rewrite bool_decide_eq_true_2 by exact Hin'; reflexivity.
  - intros more idx ref Hin Hw.
    exact (proj2 (orphan_stays _ more idx ref Hreach Hin Hw)).
Qed.

Lemma worker_pool_bound_witness :
  (1 <= length (workers (run (init default_config 0)
                             [Start sample_start; WorkerTake 0; WorkerEnds 0])))%nat
  /\ exists t',
       heap (run (run (init default_config 0)
                      [Start sample_start; WorkerTake 0; WorkerEnds 0])
                 [Tick 10; WorkerFinish 0 None (Ret (mkResult true None None false))])
         !! 0%nat = Some t'
       /\ (status t' = running \/ status t' = canceling)
       /\ finished_at t' = None.
Proof.
  assert (Hnodup : NoDup [0%nat]) by apply NoDup_singleton.
  assert (Hbusy : forall ref, ref ∈ [0%nat] ->
            exists t, heap (run (init default_config 0)
                              [Start sample_start; WorkerTake 0; WorkerEnds 0]) !! ref
                      = Some t
                      /\ (status t = running \/ status t = canceling)).
  { intros ref Hin. apply list_elem_of_singleton in Hin. subst ref.
    eexists. split; [vm_compute; reflexivity|]. left. reflexivity. }
  destruct (worker_pool_bound default_config 0
              [Start sample_start; WorkerTake 0; WorkerEnds 0] [0%nat] Hnodup Hbusy)
    as (Hlen & _ & _ & _ & _ & Horphan).
  split; [exact Hlen|].
  apply (Horphan [Tick 10; WorkerFinish 0 None (Ret (mkResult true None None false))]
           0%nat 0%nat).
  - vm_compute. left.
  - vm_compute. reflexivity.
Defined.

Lemma first_come_init (c : config) (t0 : Z) : first_come (init c t0).
Proof.
  split; cbn.
  - constructor.
  - intros i j ti tj _ Hi. rewrite lookup_nil in Hi. discriminate.
Qed.

Lemma exec_first_come (s : plugin) (e : event) :
  scheduler_ok s -> first_come s -> first_come (exec s e).
Proof.
  intros Hok [Hsorted Hcreated].
  destruct (exec_shape s e) as (_ & _ & _ & [[Hheap Hqueue]|Hnew]).
  - split.
    + destruct Hqueue as [->|[ref Hq]]; [exact Hsorted|].
      rewrite Hq in Hsorted. inversion Hsorted; assumption.
    + destruct Hheap as [->|(ref & t & t' & Hl & -> & Hjob)]; [exact Hcreated|].
      assert (Hsame : forall i u, <[ref := t']> (heap s) !! i = Some u ->
                 exists v, heap s !! i = Some v /\ created_at u = created_at v).
      { intros i u Hu. destruct (decide (i = ref)) as [->|Hne].
        - rewrite list_lookup_insert_eq in Hu by (eapply lookup_lt_Some; exact Hl).
          inversion Hu; subst. exists t. split; [exact Hl|]. apply Hjob.
        - rewrite list_lookup_insert_ne in Hu by congruence. exists u. auto. }
      intros i j ti tj Hlt Hi Hj.
      destruct (Hsame i ti Hi) as (vi & Hvi & ->).
      destruct (Hsame j tj Hj) as (vj & Hvj & ->).
      exact (Hcreated i j vi vj Hlt Hvi Hvj).
  - unfold first_come. destruct Hnew as (task & -> & -> & _ & Hnow & _). split.
    + clear Hcreated. pose proof (inv_queue s Hok) as Hbound.
      induction Hsorted as [|r rest Hrest IH Hall]; cbn.
      * repeat constructor.
      * constructor.
        -- apply IH. intros ref Hin. apply Hbound. right. exact Hin.
        -- apply Forall_app. split; [exact Hall|]. constructor; [|constructor].
           apply Hbound. left.
    + intros i j ti tj Hlt Hi Hj.
      apply lookup_app_Some in Hj as [Hj|[Hge Hj]].
      * apply lookup_app_Some in Hi as [Hi|[Hge' _]].
        -- exact (Hcreated i j ti tj Hlt Hi Hj).
        -- apply lookup_lt_Some in Hj. lia.
      * apply list_lookup_singleton_Some in Hj as [Hj0 <-].
        apply lookup_app_Some in Hi as [Hi|[Hge' Hi]].
        -- rewrite Hnow. apply (ok_created _ _ _ (inv_tasks s Hok i ti Hi)).
        -- apply list_lookup_singleton_Some in Hi as [Hi _]. lia.
Qed.

Lemma run_first_come (events : list event) :
  forall s : plugin, scheduler_ok s -> first_come s -> first_come (run s events).
Proof.
  induction events as [|e rest IH]; intros s Hok Hfc; cbn [run fold_left].
  - exact Hfc.
  - apply IH; [apply exec_ok, Hok|apply exec_first_come; assumption].
Qed.

Lemma reachable_first_come (s : plugin) : reachable s -> first_come s.
Proof.
  intros (c & t0 & events & ->).
  apply run_first_come; [apply scheduler_ok_init|apply first_come_init].
Qed.

(** X6. First come, first served. In a reachable state the job at the head
    of the queue was queued before every other waiting job (its creation
    time is the earliest), and it is the one a free worker takes: the queue
    loses its head and nothing else. *)
Theorem queue_is_first_come_first_served
    (s : plugin) (ref other : nat) (rest : list nat) (t u : QuizTask) :
  reachable s -> _queue s = ref :: rest -> other ∈ rest ->
  heap s !! ref = Some t -> heap s !! other = Some u ->
  (ref < other)%nat /\ created_at t <= created_at u
  /\ forall idx, workers s !! idx = Some None ->
       _queue (worker_take s idx) = rest
       /\ exists t', heap (worker_take s idx) !! ref = Some t'
                     /\ (status t' = running \/ status t' = canceled).
Proof.
  intros Hreach Hq Hin Ht Hu.
  destruct (reachable_first_come s Hreach) as [Hsorted Hcreated].
  rewrite Hq in Hsorted. inversion Hsorted as [|? ? Hrest Hall]; subst.
  assert (Hlt : (ref < other)%nat).
  { rewrite Forall_forall in Hall. apply Hall, Hin. }
  split; [exact Hlt|]. split; [exact (Hcreated ref other t u Hlt Ht Hu)|].
  intros idx Hfree. unfold worker_take. rewrite Hfree, Hq, Ht.
  assert (Hbound : (ref < length (heap s))%nat) by (eapply lookup_lt_Some; exact Ht).
  destruct (cancel_event t); cbn [_queue heap]; (split; [reflexivity|]);
    rewrite list_lookup_insert_eq by exact Hbound; eexists; (split; [reflexivity|]);
    cbn; auto.
Qed.

Lemma queue_is_first_come_first_served_witness :
  _queue (worker_take
            (run (init default_config 0)
                 [Start sample_start; Tick 2; Start second_start]) 0) = [1%nat].
Proof.
  set (s := run (init default_config 0) [Start sample_start; Tick 2; Start second_start]).
  assert (Hreach : reachable s).
  { exists default_config, 0, [Start sample_start; Tick 2; Start second_start]. reflexivity. }
  destruct (heap s !! 0%nat) as [t|] eqn:Ht; [|vm_compute in Ht; discriminate].
  destruct (heap s !! 1%nat) as [u|] eqn:Hu; [|vm_compute in Hu; discriminate].
  refine (proj1 (proj2 (proj2 (queue_is_first_come_first_served s 0%nat 1%nat [1%nat] t u
                                  Hreach _ _ Ht Hu)) 0%nat _)).
  - vm_compute. reflexivity.
  - apply list_elem_of_singleton. reflexivity.
  - vm_compute. reflexivity.
Defined.

Lemma request_cancel_heap (s : plugin) (ref : nat) (t : QuizTask) :
  exists t', heap (request_cancel s ref t).1 = <[ref := t']> (heap s).
Proof.
  unfold request_cancel. destruct (bool_decide _); cbn; eexists; reflexivity.
Qed.

Lemma exec_frozen (s : plugin) (e : event) (ref : nat) (t : QuizTask) :
  scheduler_ok s -> heap s !! ref = Some t -> is_finished t = true ->
  exists t', heap (exec s e) !! ref = Some t'
    /\ without_finish t' = without_finish t
    /\ (finished_at t' = finished_at t \/ finished_at t' = Some (now s)).
Proof.
  intros Hok Hl Hfin.
  assert (Hsame : exists t', heap s !! ref = Some t'
                    /\ without_finish t' = without_finish t
                    /\ (finished_at t' = finished_at t \/ finished_at t' = Some (now s))).
  { exists t. auto. }
  assert (Hcancel : forall r0 t0, heap s !! r0 = Some t0 -> is_finished t0 = false ->
            exists t', heap (request_cancel s r0 t0).1 !! ref = Some t'
              /\ without_finish t' = without_finish t
              /\ (finished_at t' = finished_at t \/ finished_at t' = Some (now s))).
  { intros r0 t0 Hl0 Hopen. destruct (request_cancel_heap s r0 t0) as [x ->].
    rewrite list_lookup_insert_ne; [exact Hsame|]. intros ->. congruence. }
  destruct (inv_tasks s Hok ref t Hl) as [Hqd Hiq Hbusy Hheld Hcr Hst Hfi Hte Hun].
  destruct e as [elapsed|ev|who args_|args_| |idx|idx name outcome|idx]; cbn [exec].
  - exact Hsame.
  - unfold _handle_start. destruct (binding ev); [|exact Hsame].
    destruct (negb (group_allowed ev)); [exact Hsame|].
    destruct (start_target ev) as [reply|[[cid cname] [mode_ spec_]]]; [exact Hsame|].
    destruct (_ && _); [exact Hsame|].
    destruct (_has_active_task s (sender_id ev)); [exact Hsame|].
    cbn [fst enqueue heap]. exists t. split; [|auto].
    apply lookup_app_l_Some. exact Hl.
  - unfold _handle_cancel. destruct args_ as [|tid rest]; [exact Hsame|].
    destruct (lookup_task s tid) as [[r0 t0]|] eqn:Hfind; [|exact Hsame].
    destruct (negb _); [exact Hsame|]. destruct (is_finished t0) eqn:Hopen; [exact Hsame|].
    apply Hcancel; [eapply lookup_task_Some; exact Hfind|exact Hopen].
  - unfold _admin_cancel. destruct args_ as [|tid rest]; [exact Hsame|].
    destruct (lookup_task s tid) as [[r0 t0]|] eqn:Hfind; [|exact Hsame].
    destruct (is_finished t0) eqn:Hopen; [exact Hsame|].
    apply Hcancel; [eapply lookup_task_Some; exact Hfind|exact Hopen].
  - exact Hsame.
  - destruct (bool_decide (idx ∈ ended s)); [exact Hsame|]. unfold worker_take.
    destruct (workers s !! idx) as [[held_ref|]|]; try exact Hsame.
    destruct (_queue s) as [|r0 rest] eqn:Hq; [exact Hsame|].
    destruct (heap s !! r0) as [t0|] eqn:Hl0; [|exact Hsame].
    destruct (decide (r0 = ref)) as [->|Hne].
    + assert (t0 = t) by congruence. subst t0.
      assert (Hin : ref ∈ ref :: rest) by left.
      destruct (Hiq Hin) as [[Hs|[Hs Hc]] Hstart].
      { apply is_finished_spec in Hfin. rewrite Hs in Hfin.
        destruct Hfin as [?|[?|?]]; discriminate. }
      rewrite Hc. cbn [heap].
      rewrite list_lookup_insert_eq by (eapply lookup_lt_Some; exact Hl).
      eexists. split; [reflexivity|]. split; [|right; reflexivity].
      unfold without_finish. cbn. rewrite Hs. reflexivity.
    + destruct (cancel_event t0); cbn [heap];
        rewrite list_lookup_insert_ne by exact Hne; exact Hsame.
  - destruct (bool_decide (idx ∈ ended s)); [exact Hsame|]. unfold worker_finish.
    destruct (workers s !! idx) as [[r0|]|] eqn:Hw; try exact Hsame.
    destruct (heap s !! r0) as [t0|] eqn:Hl0; [|exact Hsame].
    cbn [heap]. rewrite list_lookup_insert_ne; [exact Hsame|].
    intros ->. assert (Hh : held s ref) by (exists idx; exact Hw).
    apply Hheld in Hh. apply is_finished_spec in Hfin.
    destruct Hh as [Hs|Hs]; rewrite Hs in Hfin; destruct Hfin as [?|[?|?]]; discriminate.
  - unfold worker_ends. destruct (_ <? _)%nat; exact Hsame.
Qed.

Lemma without_finish_finished (t t' : QuizTask) :
  without_finish t' = without_finish t -> is_finished t' = is_finished t.
Proof.
  intros Heq. unfold is_finished.
  replace (status t') with (status (without_finish t')) by reflexivity.
  rewrite Heq. reflexivity.
Qed.

Lemma run_frozen (events : list event) :
  forall (s : plugin) (ref : nat) (t : QuizTask),
    scheduler_ok s -> heap s !! ref = Some t -> is_finished t = true ->
    exists t', heap (run s events) !! ref = Some t'
      /\ without_finish t' = without_finish t
      /\ forall f, finished_at t = Some f ->
           exists f', finished_at t' = Some f' /\ f <= f' <= now (run s events).
Proof.
  induction events as [|e rest IH]; intros s ref t Hok Hl Hfin; cbn [run fold_left].
  - exists t. split; [exact Hl|]. split; [reflexivity|].
    intros f Hf. exists f. split; [exact Hf|].
    destruct (ok_finished _ _ _ (inv_tasks s Hok ref t Hl) f Hf) as [Hb _]. lia.
  - destruct (exec_frozen s e ref t Hok Hl Hfin) as (t1 & Hl1 & Hw1 & Hf1).
    pose proof (proj1 (exec_ok s e Hok)) as Hok1.
    assert (Hfin1 : is_finished t1 = true).
    { rewrite (without_finish_finished t t1 Hw1). exact Hfin. }
    destruct (IH (exec s e) ref t1 Hok1 Hl1 Hfin1) as (t2 & Hl2 & Hw2 & Hf2).
    exists t2. split; [exact Hl2|]. split; [congruence|].
    intros f Hf.
    destruct (ok_finished _ _ _ (inv_tasks s Hok ref t Hl) f Hf) as [Hb _].
    destruct (exec_shape s e) as (_ & _ & Hnow & _).
    destruct Hf1 as [Hf1|Hf1].
    + rewrite Hf in Hf1. destruct (Hf2 f Hf1) as (f' & Hf' & Hle). exists f'. auto.
    + destruct (Hf2 (now s) Hf1) as (f' & Hf' & Hle). exists f'.
      split; [exact Hf'|]. unfold run in *. lia.
Qed.

(** X7. A finished job is closed for good. Once a task of a reachable state
    is completed, failed or canceled, no later command or worker changes its
    status, its start time (a job canceled while it was still waiting never
    gets one), its cancel flag, its summary, its error or anything else: the
    one field that can still change is the finish time, which is never moved
    back. *)
Theorem finished_task_is_frozen
    (s : plugin) (events : list event) (ref : nat) (t : QuizTask) :
  reachable s -> heap s !! ref = Some t -> is_finished t = true ->
  exists t', heap (run s events) !! ref = Some t'
    /\ without_finish t' = without_finish t
    /\ status t' = status t /\ started_at t' = started_at t
    /\ task_summary t' = task_summary t /\ error t' = error t
    /\ exists f f', finished_at t = Some f /\ finished_at t' = Some f' /\ f <= f'.
Proof.
  intros Hreach Hl Hfin. pose proof (reachable_ok s Hreach) as Hok.
  destruct (run_frozen events s ref t Hok Hl Hfin) as (t' & Hl' & Hw & Hf).
  exists t'. split; [exact Hl'|]. split; [exact Hw|].
  split; [change (status (without_finish t') = status (without_finish t)); congruence|].
  split; [change (started_at (without_finish t') = started_at (without_finish t)); congruence|].
  split; [change (task_summary (without_finish t') = task_summary (without_finish t));
          congruence|].
  split; [change (error (without_finish t') = error (without_finish t)); congruence|].
  destruct (finished_at t) as [f|] eqn:Hft.
  - destruct (Hf f eq_refl) as (f' & Hf' & Hle). exists f, f'. split; [reflexivity|].
    split; [exact Hf'|lia].
  - exfalso. apply (ok_terminal _ _ _ (inv_tasks s Hok ref t Hl) Hfin). exact Hft.
Qed.

Lemma finished_task_is_frozen_witness :
  exists t', heap (run canceled_run [Tick 5; WorkerTake 0; Tick 1;
                                     WorkerFinish 0 None (Raise InvalidToken)]) !! 0%nat
             = Some t'
    /\ status t' = canceled /\ started_at t' = None.
Proof.
  assert (Hreach : reachable canceled_run).
  { apply reachable_run. exists default_config, 0, [Start sample_start]. reflexivity. }
  destruct (heap canceled_run !! 0%nat) as [t|] eqn:Hl; [|vm_compute in Hl; discriminate].
  assert (Hfin : is_finished t = true) by (vm_compute in Hl; inversion Hl; reflexivity).
  destruct (finished_task_is_frozen canceled_run
              [Tick 5; WorkerTake 0; Tick 1; WorkerFinish 0 None (Raise InvalidToken)]
              0%nat t Hreach Hl Hfin) as (t' & Hl' & _ & Hs & Hst & _).
  exists t'. split; [exact Hl'|].
  vm_compute in Hl. inversion Hl; subst t. split; [exact Hs|exact Hst].
Defined.

End SchedulerReach.
Section SchedulerCommands.

Import Plugin.

(** X8. Canceling a running job does not stop it on the spot: the job turns
    [canceling] with its cancel flag set and stays with its worker. From
    that moment it no longer counts as the user's active job, so the same
    user can queue another one while the first still occupies a worker. *)
Theorem cancel_running_job_frees_user
    (s : plugin) (who tid : string) (rest : list string) (ref : nat) (t : QuizTask) :
  reachable s -> lookup_task s tid = Some (ref, t) ->
  qq_id t = who -> status t = running ->
  (_handle_cancel s who (tid :: rest)).2 = "已提交取消请求，任务将尽快停止。"
  /\ heap (_handle_cancel s who (tid :: rest)).1 !! ref
     = Some (set_status (set_cancel_event t) canceling)
  /\ held (_handle_cancel s who (tid :: rest)).1 ref
  /\ _has_active_task (_handle_cancel s who (tid :: rest)).1 who = false.
Proof.
  intros Hreach Hfind Hwho Hrun. pose proof (reachable_ok s Hreach) as Hok.
  pose proof (lookup_task_Some s tid ref t Hfind) as Hl.
  assert (Hidx : _tasks s !! tid = Some ref).
  { unfold lookup_task in Hfind. destruct (_tasks s !! tid) as [r|]; [|discriminate].
    destruct (heap s !! r); [|discriminate]. inversion Hfind. reflexivity. }
  assert (Hbound : (ref < length (heap s))%nat) by (eapply lookup_lt_Some; exact Hl).
  unfold _handle_cancel. rewrite Hfind, Hwho, String.eqb_refl. cbn [negb].
  assert (Hopen : is_finished t = false) by (unfold is_finished; rewrite Hrun; reflexivity).
  rewrite Hopen. unfold request_cancel. cbn [set_cancel_event status].
  rewrite Hrun. cbn [bool_decide decide_rel]. 
  replace (bool_decide (running = queued)) with false by reflexivity.
  cbn [fst snd set_heap heap]. split; [reflexivity|].
  split; [apply list_lookup_insert_eq; exact Hbound|].
  split.
  - apply (ok_busy _ _ _ (inv_tasks s Hok ref t Hl)). left. exact Hrun.
  - destruct (_has_active_task _ who) eqn:Hact; [|reflexivity]. exfalso.
    apply _has_active_task_spec in Hact as (tid2 & ref2 & t2 & Hidx2 & Hl2 & Hqq2 & Hact2).
    cbn [_tasks heap set_heap fst] in Hidx2, Hl2.
    destruct (decide (ref2 = ref)) as [->|Hne].
    + rewrite list_lookup_insert_eq in Hl2 by exact Hbound.
      inversion Hl2; subst t2. discriminate Hact2.
    + rewrite list_lookup_insert_ne in Hl2 by congruence.
      apply Hne. apply (inv_single s Hok tid2 tid ref2 ref t2 t Hidx2 Hidx Hl2 Hl).
      * congruence.
      * exact Hact2.
      * apply is_active_queued_or_running. right. exact Hrun.
Qed.

Lemma cancel_running_job_frees_user_witness :
  _has_active_task
    (_handle_cancel (run queued_run [WorkerTake 0]) "10001" ["a1b2c3d4"]).1 "10001" = false.
Proof.
  assert (Hreach : reachable (run queued_run [WorkerTake 0])).
  { apply reachable_run. exists default_config, 0, [Start sample_start]. reflexivity. }
  destruct (lookup_task (run queued_run [WorkerTake 0]) "a1b2c3d4") as [[ref t]|] eqn:Hfind;
    [|vm_compute in Hfind; discriminate].
  refine (proj2 (proj2 (proj2 (cancel_running_job_frees_user
            (run queued_run [WorkerTake 0]) "10001" "a1b2c3d4" [] ref t Hreach Hfind _ _)))).
  - vm_compute in Hfind. inversion Hfind. reflexivity.
  - vm_compute in Hfind. inversion Hfind. reflexivity.
Defined.

Lemma is_stale_unfinished (s : plugin) (ref : nat) (t : QuizTask) :
  scheduler_ok s -> heap s !! ref = Some t -> is_finished t = false ->
  is_stale s ref = false.
Proof.
  intros Hok Hl Hopen. unfold is_stale. rewrite Hl.
  rewrite (ok_unfinished _ _ _ (inv_tasks s Hok ref t Hl) Hopen). reflexivity.
Qed.

(** X9. The clean-up of old tasks touches the index only: task objects,
    queue and workers stay. It forgets exactly the entries whose job
    finished more than twenty-four hours ago; a job that is waiting, running
    or being canceled is never forgotten, however old, so nobody's active
    job changes. *)
Theorem cleanup_forgets_only_old_finished_jobs (s : plugin) :
  reachable s ->
  heap (_cleanup_tasks s) = heap s
  /\ _queue (_cleanup_tasks s) = _queue s
  /\ workers (_cleanup_tasks s) = workers s
  /\ (forall tid ref t, _tasks s !! tid = Some ref -> heap s !! ref = Some t ->
        (_tasks (_cleanup_tasks s) !! tid = None
         <-> is_finished t = true
             /\ exists f, finished_at t = Some f /\ f <> 0 /\ 24 * 3600 < now s - f)
        /\ (_tasks (_cleanup_tasks s) !! tid = None
            \/ _tasks (_cleanup_tasks s) !! tid = Some ref))
  /\ (forall tid, _tasks s !! tid = None -> _tasks (_cleanup_tasks s) !! tid = None)
  /\ forall qq, _has_active_task (_cleanup_tasks s) qq = _has_active_task s qq.
Proof.
  intros Hreach. pose proof (reachable_ok s Hreach) as Hok.
  split; [reflexivity|]. split; [reflexivity|]. split; [reflexivity|].
  assert (Hkeep : forall tid ref, _tasks (_cleanup_tasks s) !! tid = Some ref
                    <-> _tasks s !! tid = Some ref /\ is_stale s ref = false).
  { intros tid ref. cbn [_cleanup_tasks _tasks]. apply map_lookup_filter_Some. }
  split; [|split].
  - intros tid ref t Hidx Hl.
    assert (Hstale : is_stale s ref = true
              <-> is_finished t = true
                  /\ exists f, finished_at t = Some f /\ f <> 0 /\ 24 * 3600 < now s - f).
    { unfold is_stale. rewrite Hl. split.
      - destruct (finished_at t) as [f|] eqn:Hf; [|discriminate].
        intros Hcond. apply andb_true_iff in Hcond as [Hnz Hold].
        split.
        + destruct (is_finished t) eqn:Hfin; [reflexivity|].
          rewrite (ok_unfinished _ _ _ (inv_tasks s Hok ref t Hl) Hfin) in Hf. discriminate.
        + exists f. split; [reflexivity|]. split.
          * apply negb_true_iff, Z.eqb_neq in Hnz. exact Hnz.
          * apply Z.ltb_lt. exact Hold.
      - intros [_ (f & -> & Hnz & Hold)]. apply andb_true_iff. split.
        + apply negb_true_iff, Z.eqb_neq. exact Hnz.
        + apply Z.ltb_lt. exact Hold. }
    destruct (is_stale s ref) eqn:Hs.
    + assert (Hgone : _tasks (_cleanup_tasks s) !! tid = None).
      { destruct (_tasks (_cleanup_tasks s) !! tid) as [r|] eqn:Hr; [|reflexivity].
        apply Hkeep in Hr as [Hr Hns]. rewrite Hidx in Hr. inversion Hr; subst r.
        rewrite Hs in Hns. discriminate. }
      split; [|left; exact Hgone]. split; [intros _; apply Hstale; reflexivity|].
      intros _. exact Hgone.
    + assert (Hstay : _tasks (_cleanup_tasks s) !! tid = Some ref).
      { apply Hkeep. split; [exact Hidx|exact Hs]. }
      split; [|right; exact Hstay]. rewrite Hstay. split; [discriminate|].
      intros Hold. apply Hstale in Hold. discriminate.
  - intros tid Hnone. destruct (_tasks (_cleanup_tasks s) !! tid) as [r|] eqn:Hr; [|reflexivity].
    apply Hkeep in Hr as [Hr _]. congruence.
  - intros qq. apply eq_true_iff_eq. rewrite !_has_active_task_spec. split.
    + intros (tid & ref & t & Hidx & Hl & Hqq & Hact). exists tid, ref, t.
      apply Hkeep in Hidx as [Hidx _]. auto.
    + intros (tid & ref & t & Hidx & Hl & Hqq & Hact). exists tid, ref, t.
      split; [|auto]. apply Hkeep. split; [exact Hidx|].
      apply (is_stale_unfinished s ref t Hok Hl), is_active_not_finished, Hact.
Qed.

Lemma cleanup_forgets_only_old_finished_jobs_witness :
  _tasks (_cleanup_tasks (run finished_run [Tick 90000])) !! "a1b2c3d4" = None.
Proof.
  assert (Hreach : reachable (run finished_run [Tick 90000])).
  { apply reachable_run, reachable_run.
    exists default_config, 0, [Start sample_start]. reflexivity. }
  destruct (cleanup_forgets_only_old_finished_jobs _ Hreach) as (_ & _ & _ & Hidx & _).
  destruct (heap (run finished_run [Tick 90000]) !! 0%nat) as [t|] eqn:Hl;
    [|vm_compute in Hl; discriminate].
  apply (proj1 (Hidx "a1b2c3d4" 0%nat t eq_refl Hl)).
  vm_compute in Hl. inversion Hl; subst t. split; [reflexivity|].
  exists 13. split; [reflexivity|]. split; [discriminate|reflexivity].
Defined.

Lemma same_job_trans (t1 t2 t3 : QuizTask) :
  same_job t1 t2 -> same_job t2 t3 -> same_job t1 t3.
Proof.
  unfold same_job. intros (? & ? & ? & ? & ? & ? & ? & ?) (? & ? & ? & ? & ? & ? & ? & ?).
  repeat split; congruence.
Qed.

Lemma exec_same_job (s : plugin) (e : event) (ref : nat) (t : QuizTask) :
  heap s !! ref = Some t ->
  exists t', heap (exec s e) !! ref = Some t' /\ same_job t t'.
Proof.
  intros Hl. destruct (exec_shape s e) as (_ & _ & _ & [[Hheap _]|Hnew]).
  - destruct Hheap as [->|(r0 & t0 & t0' & Hl0 & -> & Hjob)].
    + exists t. split; [exact Hl|apply same_job_refl].
    + destruct (decide (ref = r0)) as [->|Hne].
      * rewrite list_lookup_insert_eq by (eapply lookup_lt_Some; exact Hl0).
        exists t0'. split; [reflexivity|]. congruence.
      * rewrite list_lookup_insert_ne by congruence.
        exists t. split; [exact Hl|apply same_job_refl].
  - destruct Hnew as (task & -> & _). exists t. split; [|apply same_job_refl].
    apply lookup_app_l_Some. exact Hl.
Qed.

Lemma exec_known_mode (s : plugin) (e : event) :
  (forall ref t, heap s !! ref = Some t -> known_mode (mode t) = true) ->
  forall ref t, heap (exec s e) !! ref = Some t -> known_mode (mode t) = true.
Proof.
  intros Hall ref t. destruct (exec_shape s e) as (_ & _ & _ & [[Hheap _]|Hnew]).
  - destruct Hheap as [->|(r0 & t0 & t0' & Hl0 & -> & Hjob)]; [apply Hall|].
    destruct (decide (ref = r0)) as [->|Hne].
    + rewrite list_lookup_insert_eq by (eapply lookup_lt_Some; exact Hl0).
      intros Heq. inversion Heq; subst.
      destruct Hjob as (_ & _ & _ & _ & _ & -> & _). apply (Hall r0 t0 Hl0).
    + rewrite list_lookup_insert_ne by congruence. apply Hall.
  - destruct Hnew as (task & -> & _ & _ & _ & Hmode). intros Hl.
    apply lookup_app_Some in Hl as [Hl|[_ Hl]]; [exact (Hall ref t Hl)|].
    apply list_lookup_singleton_Some in Hl as [_ <-]. exact Hmode.
Qed.

Lemma known_mode_cases (m : string) :
  known_mode m = true ->
  m = mode_all \/ m = mode_incomplete \/ m = mode_explicit \/ m = mode_range.
Proof.
  unfold known_mode, str_in. cbn [existsb]. rewrite !orb_true_iff, !String.eqb_eq.
  intuition discriminate.
Qed.

(** X10. What a job was asked to do is fixed when it is queued. In every
    reachable state the mode of every task is one of the four modes the
    pipeline knows, so chapter selection never ends in its unknown-mode
    reply for a job made by the start command; and no later event changes a
    task's identifier, owner, course, mode, chapter argument or creation
    time. *)
Theorem job_parameters_are_fixed
    (s : plugin) (events : list event) (ref : nat) (t : QuizTask) :
  reachable s -> heap s !! ref = Some t ->
  known_mode (mode t) = true
  /\ (forall (H : hashlib) (P : platform) (b : bot) (chapters : list chapter)
             (early : result),
        (select_chapters H P b t chapters).2 <> Ret (inl early))
  /\ exists t', heap (run s events) !! ref = Some t' /\ same_job t t'.
Proof.
  intros (c & t0 & before & ->) Hl.
  assert (Hknown : known_mode (mode t) = true).
  { clear events. revert ref t Hl. unfold run.
    induction before as [|e rest IH] using rev_ind; intros ref t Hl.
    - cbn in Hl. rewrite lookup_nil in Hl. discriminate.
    - rewrite fold_left_app in Hl. cbn [fold_left] in Hl.
      exact (exec_known_mode _ e IH ref t Hl). }
  split; [exact Hknown|]. split.
  - intros H P b chapters early. unfold select_chapters.
    destruct (known_mode_cases _ Hknown) as [Hm|[Hm|[Hm|Hm]]]; rewrite Hm; cbn; try discriminate.
    destruct (_parse_range (spec t)) as [[start end_]|err]; discriminate.
  - generalize (run (init c t0) before) ref t Hl. clear.
    induction events as [|e rest IH]; intros s ref t Hl; cbn [run fold_left].
    + exists t. split; [exact Hl|apply same_job_refl].
    + destruct (exec_same_job s e ref t Hl) as (t1 & Hl1 & Hjob1).
      destruct (IH (exec s e) ref t1 Hl1) as (t2 & Hl2 & Hjob2).
      exists t2. split; [exact Hl2|]. eapply same_job_trans; eauto.
Qed.

Lemma job_parameters_are_fixed_witness :
  exists t', heap finished_run !! 0%nat = Some t' /\ mode t' = mode_all /\ spec t' = "".
Proof.
  assert (Hreach : reachable queued_run).
  { exists default_config, 0, [Start sample_start]. reflexivity. }
  destruct (heap queued_run !! 0%nat) as [t|] eqn:Hl; [|vm_compute in Hl; discriminate].
  destruct (job_parameters_are_fixed queued_run
              [Tick 3; WorkerTake 0; Tick 10;
               WorkerFinish 0 None (Ret (mkResult true None None false))]
              0%nat t Hreach Hl) as (_ & _ & t' & Hl' & Hjob).
  exists t'. split; [exact Hl'|].
  destruct Hjob as (_ & _ & _ & _ & _ & Hm & Hs & _). rewrite Hm, Hs.
  vm_compute in Hl. inversion Hl. split; reflexivity.
Defined.

End SchedulerCommands.
Section PipelineFacts.

Import QuizBot Plugin.

Lemma insert_sorted_elem (n x : Z) (l : list Z) :
  x ∈ insert_sorted n l -> x = n \/ x ∈ l.
Proof.
  induction l as [|m rest IH]; cbn.
  - intros Hin. apply list_elem_of_singleton in Hin. auto.
  - destruct (n <? m).
    + intros Hin. apply elem_of_cons in Hin. tauto.
    + destruct (n =? m); [auto|]. intros Hin. apply elem_of_cons in Hin as [->|Hin].
      * right. left.
      * destruct (IH Hin); [auto|]. right. right. assumption.
Qed.

Lemma insert_sorted_sorted (n : Z) (l : list Z) :
  StronglySorted Z.lt l -> StronglySorted Z.lt (insert_sorted n l).
Proof.
  induction 1 as [|m rest Hrest IH Hall]; cbn.
  - repeat constructor.
  - destruct (n <? m) eqn:Hlt.
    + apply Z.ltb_lt in Hlt. constructor; [constructor; assumption|].
      constructor; [exact Hlt|]. eapply Forall_impl; [exact Hall|]. cbn. intros; lia.
    + destruct (n =? m) eqn:Heq; [constructor; assumption|].
      apply Z.ltb_ge in Hlt. apply Z.eqb_neq in Heq.
      constructor; [exact IH|]. apply Forall_forall. intros x Hx.
      destruct (insert_sorted_elem n x rest Hx) as [->|Hin]; [lia|].
      rewrite Forall_forall in Hall. apply Hall, Hin.
Qed.

Lemma _parse_index_list_sorted (text : string) :
  StronglySorted Z.lt (_parse_index_list text).
Proof.
  unfold _parse_index_list.
  assert (Hgen : forall items acc, StronglySorted Z.lt acc ->
            StronglySorted Z.lt
              (fold_left (fun result item =>
                            let item := strip item in
                            if isdigit item then insert_sorted (digits_value item) result
                            else result) items acc)).
  { induction items as [|item rest IH]; intros acc Hacc; cbn; [exact Hacc|].
    apply IH. destruct (isdigit (strip item)); [apply insert_sorted_sorted|]; exact Hacc. }
  apply Hgen. constructor.
Qed.

Lemma pick_sublist {A : Type} (chapters : list A) (l : list Z) :
  StronglySorted Z.lt l ->
  forall k : Z, Forall (fun i => k < i) l ->
    omap (fun i => if (0 <? i) && (i <=? Z.of_nat (length chapters))
                   then chapters !! Z.to_nat (i - 1) else None) l
    `sublist_of` drop (Z.to_nat k) chapters.
Proof.
  set (f := fun i => if (0 <? i) && (i <=? Z.of_nat (length chapters))
                     then chapters !! Z.to_nat (i - 1) else None).
  induction 1 as [|i rest Hrest IH Hall]; intros k Hk.
  - apply sublist_nil_l.
  - apply Forall_cons in Hk as [Hki Hkrest].
    change (omap f (i :: rest))
      with (match f i with Some y => y :: omap f rest | None => omap f rest end).
    destruct (f i) as [c|] eqn:Hfi; [|apply IH; exact Hkrest].
    unfold f in Hfi.
    destruct ((0 <? i) && (i <=? Z.of_nat (length chapters))) eqn:Hcond; [|discriminate].
    apply andb_true_iff in Hcond as [Hpos _]. apply Z.ltb_lt in Hpos.
    transitivity (drop (Z.to_nat (i - 1)) chapters).
    + rewrite (drop_S _ _ _ Hfi). apply sublist_skip.
      replace (S (Z.to_nat (i - 1))) with (Z.to_nat i) by lia. apply IH. exact Hall.
    + replace (Z.to_nat (i - 1)) with (Z.to_nat k + (Z.to_nat (i - 1) - Z.to_nat k))%nat by lia.
      rewrite <- drop_drop. apply sublist_drop.
Qed.

Lemma filter_sublist_of {A : Type} (f : A -> bool) (l : list A) :
  List.filter f l `sublist_of` l.
Proof.
  induction l as [|x rest IH]; cbn; [constructor|].
  destruct (f x); [apply sublist_skip|apply sublist_cons]; exact IH.
Qed.

(** X11. Whatever the mode and its argument, the chapters a job works on are
    chapters of the course, each at most once and in the order of the
    chapter list: numbers given twice, out of order or beyond the end of the
    list change nothing about that. *)
Theorem selected_chapters_are_a_sublist
    (H : hashlib) (P : platform) (b b' : bot) (task : QuizTask)
    (chapters selected : list chapter) :
  select_chapters H P b task chapters = (b', Ret (inr selected)) ->
  selected `sublist_of` chapters
  /\ (length selected <= length chapters)%nat
  /\ (mode task = mode_all -> selected = chapters).
Proof.
  intros Hsel.
  assert (Hsub : selected `sublist_of` chapters /\ (mode task = mode_all -> selected = chapters)).
  { unfold select_chapters in Hsel.
    destruct (String.eqb (mode task) mode_incomplete) eqn:Hinc.
    { inversion Hsel; subst. split; [apply filter_sublist_of|].
      apply String.eqb_eq in Hinc. rewrite Hinc. discriminate. }
    destruct (String.eqb (mode task) mode_explicit) eqn:Hexp.
    { inversion Hsel; subst. split.
      - destruct (_parse_index_list (spec task)) as [|i rest] eqn:Hlist; [apply sublist_nil_l|].
        pose proof (_parse_index_list_sorted (spec task)) as Hsorted. rewrite Hlist in Hsorted.
        etransitivity; [apply (pick_sublist chapters (i :: rest) Hsorted (i - 1))|].
        + inversion Hsorted; subst. constructor; [lia|].
          eapply Forall_impl; [eassumption|]. cbn. intros; lia.
        + apply sublist_drop.
      - apply String.eqb_eq in Hexp. rewrite Hexp. discriminate. }
    destruct (String.eqb (mode task) mode_range) eqn:Hrng.
    { destruct (_parse_range (spec task)) as [[start end_]|e]; [|discriminate].
      cbn in Hsel. inversion Hsel; subst. split.
      - etransitivity; [apply sublist_drop|apply sublist_take].
      - apply String.eqb_eq in Hrng. rewrite Hrng. discriminate. }
    destruct (String.eqb (mode task) mode_all); [|discriminate].
    inversion Hsel; subst. split; [reflexivity|auto]. }
  destruct Hsub as [Hsub Hall]. split; [exact Hsub|]. split; [|exact Hall].
  apply sublist_length, Hsub.
Qed.

Lemma selected_chapters_are_a_sublist_witness :
  exists selected,
    (select_chapters tagging_hashlib five_question_platform banked_bot explicit_task
       two_chapters).2 = Ret (inr selected)
    /\ selected `sublist_of` two_chapters.
Proof.
  eexists. split; [vm_compute; reflexivity|].
  refine (proj1 (selected_chapters_are_a_sublist tagging_hashlib five_question_platform
                   banked_bot banked_bot explicit_task two_chapters _ _)).
  vm_compute. reflexivity.
Defined.

(** X12. A range job works on the chapters from the first to the second
    bound, counted from one, as far as the chapter list reaches: a range
    that is accepted has [1 <= start <= end]. *)
Theorem range_selection_is_segment
    (H : hashlib) (P : platform) (b b' : bot) (task : QuizTask)
    (chapters selected : list chapter) :
  mode task = mode_range ->
  select_chapters H P b task chapters = (b', Ret (inr selected)) ->
  exists start end_,
    _parse_range (spec task) = Ret (start, end_)
    /\ 1 <= start <= end_
    /\ b' = b
    /\ length selected
       = (Nat.min (Z.to_nat end_) (length chapters) - Z.to_nat (start - 1))%nat
    /\ forall n, (n < length selected)%nat ->
         selected !! n = chapters !! (Z.to_nat (start - 1) + n)%nat.
Proof.
  intros Hmode Hsel. unfold select_chapters in Hsel. rewrite Hmode in Hsel.
  cbn in Hsel. unfold _parse_range in *.
  destruct (split_on "-" (spec task)) as [|first [|second [|third more]]]; try discriminate.
  destruct (py_int first) as [start|e1]; [|discriminate].
  destruct (py_int second) as [end_|e2]; [|discriminate].
  cbn [pybind] in *.
  destruct (start <=? 0) eqn:H1; [discriminate|].
  destruct (end_ <=? 0) eqn:H2; [discriminate|].
  destruct (end_ <? start) eqn:H3; [discriminate|].
  cbn in Hsel. inversion Hsel; subst.
  exists start, end_. split; [reflexivity|]. split; [lia|]. split; [reflexivity|].
  split.
  - rewrite length_drop, length_take. reflexivity.
  - intros n Hn. rewrite length_drop, length_take in Hn.
    rewrite lookup_drop. apply lookup_take_lt. lia.
Qed.

Lemma range_selection_is_segment_witness :
  exists selected,
    (select_chapters tagging_hashlib five_question_platform banked_bot forward_range_task
       two_chapters).2 = Ret (inr selected)
    /\ length selected = 1%nat.
Proof.
  eexists. split; [vm_compute; reflexivity|].
  destruct (range_selection_is_segment tagging_hashlib five_question_platform
              banked_bot banked_bot forward_range_task two_chapters _ eq_refl eq_refl)
    as (start & end_ & Hrange & _ & _ & Hlen & _).
  vm_compute in Hrange. inversion Hrange; subst. exact Hlen.
Defined.

End PipelineFacts.
Section ReportFacts.

Import QuizBot.

Lemma dict_set_length (d : list (string * string)) (k v : string) :
  (length (dict_set d k v) <= S (length d))%nat.
Proof.
  induction d as [|[k' v'] rest IH]; cbn; [lia|].
  destruct (String.eqb k' k); cbn; lia.
Qed.

Lemma answer_one_counts (P : platform) (st : answering) (q_ul : question_ul) :
  counts_ok st ->
  counts_ok (answer_one P st q_ul)
  /\ (a_total (answer_one P st q_ul) <= S (a_total st))%nat.
Proof.
  intros (Hsum & Hle & Hsamples & Hdata). unfold answer_one.
  destruct (q_title q_ul) as [text|]; [|split; [repeat split; assumption|lia]].
  destruct (find_answer P (a_bot st) text) as [b1 answer].
  destruct (answer_truthy answer).
  - destruct (q_input_name q_ul) as [name|].
    + destruct (negb (String.eqb name "")).
      * pose proof (dict_set_length (answer_data st) name (default "" answer)) as Hset.
        destruct (is_answer_in_local_bank b1 text); unfold counts_ok; cbn [a_total a_answered local_count api_count failed_count missing_samples answer_data a_bot];
          repeat split; lia.
      * unfold counts_ok; cbn [a_total a_answered local_count api_count failed_count missing_samples answer_data a_bot]; repeat split; lia.
    + unfold counts_ok; cbn [a_total a_answered local_count api_count failed_count missing_samples answer_data a_bot]; repeat split; lia.
  - unfold counts_ok; cbn [a_total a_answered local_count api_count failed_count missing_samples answer_data a_bot].
    destruct (length (missing_samples st) <? 5)%nat eqn:Hfew.
    + apply Nat.ltb_lt in Hfew. rewrite length_app. cbn [length]. repeat split; lia.
    + apply Nat.ltb_ge in Hfew. repeat split; lia.
Qed.

Lemma fold_answer_one_counts (P : platform) (question_uls : list question_ul) :
  forall st : answering,
    counts_ok st ->
    counts_ok (fold_left (answer_one P) question_uls st)
    /\ (a_total (fold_left (answer_one P) question_uls st)
        <= a_total st + length question_uls)%nat.
Proof.
  induction question_uls as [|q_ul rest IH]; intros st Hok; cbn [fold_left length].
  - split; [exact Hok|lia].
  - destruct (answer_one_counts P st q_ul Hok) as [Hok1 Hle1].
    destruct (IH _ Hok1) as [Hok2 Hle2]. split; [exact Hok2|lia].
Qed.

Lemma answer_questions_counts (P : platform) (b : bot) (question_uls : list question_ul) :
  counts_ok (answer_questions P b question_uls)
  /\ (a_total (answer_questions P b question_uls) <= length question_uls)%nat.
Proof.
  unfold answer_questions.
  destruct (fold_answer_one_counts P question_uls (mkAnswering b [] 0 0 0 0 0 []))
    as [Hok Hle]; [|split; [exact Hok|exact Hle]].
  unfold counts_ok. cbn. repeat split; lia.
Qed.

(** X13. The statistics of a chapter report add up, whatever the platform
    sends: answers from the bank plus answers from the Oracle are the
    answers counted; answered and unanswered questions together never exceed
    the questions counted, which never exceed the questions on the page; and
    the samples of unanswered questions are the first five of them at most. *)
Theorem report_statistics_are_consistent
    (P : platform) (b : bot) (exam : Z) (submit strict : bool) (rate : Q) :
  let rep := (auto_answer_with_report P b exam submit strict rate).2 in
  (r_local rep + r_api rep = r_answered rep)%nat
  /\ (r_answered rep + r_missing rep <= r_total rep)%nat
  /\ length (r_missing_samples rep) = Nat.min 5 (r_missing rep)
  /\ forall page, exam_page_of P (log b ++ [GetExam exam]) = inr page ->
       (r_total rep <= length (ep_questions page))%nat.
Proof.
  unfold auto_answer_with_report. cbn [emit with_log log].
  destruct (exam_page_of P (log b ++ [GetExam exam])) as [e|page] eqn:Hpage.
  { cbn. repeat split; intros; try discriminate; lia. }
  assert (Hfull : forall st, counts_ok st -> (a_total st <= length (ep_questions page))%nat ->
            forall success status message,
            let rep := mkReport success status message (a_total st) (a_answered st)
                         (local_count st) (api_count st) (failed_count st)
                         (missing_samples st) in
            (r_local rep + r_api rep = r_answered rep)%nat
            /\ (r_answered rep + r_missing rep <= r_total rep)%nat
            /\ length (r_missing_samples rep) = Nat.min 5 (r_missing rep)
            /\ forall page0 : exam_page, @inr string exam_page page = inr page0 ->
                 (r_total rep <= length (ep_questions page0))%nat).
  { intros st (Hsum & Hle & Hsamples & _) Htotal success status message rep. subst rep.
    cbn [r_local r_api r_answered r_missing r_total r_missing_samples].
    repeat split; try assumption. intros page0 Heq. inversion Heq; subst. exact Htotal. }
  destruct (negb (ep_status page =? 200)).
  { cbn. repeat split; intros; lia. }
  destruct (ep_form_action page) as [url|].
  2: { cbn. repeat split; intros; lia. }
  destruct (ep_questions page) as [|q_ul rest] eqn:Hqs.
  { cbn. repeat split; intros; lia. }
  rewrite <- Hqs in *.
  destruct (answer_questions_counts P (with_log b (log b ++ [GetExam exam]))
              (ep_questions page)) as [Hok Htotal].
  set (st := answer_questions P _ (ep_questions page)) in *.
  specialize (Hfull st Hok Htotal).
  repeat break_if; cbn [snd]; try apply Hfull.
  destruct (submit_post P _); repeat break_if; cbn [snd]; apply Hfull.
Qed.

Lemma answer_questions_submit_calls
    (P : platform) (b : bot) (question_uls : list question_ul) :
  submit_calls (log (a_bot (answer_questions P b question_uls))) = submit_calls (log b).
Proof.
  unfold answer_questions.
  destruct (fold_answer_one_ok P (submit_calls (log b)) question_uls
              (mkAnswering b [] 0 0 0 0 0 [])) as [Hcalls _]; [|exact Hcalls].
  split; reflexivity.
Qed.

(** The outcome of [auto_answer_with_report], case by case. *)
Lemma auto_answer_with_report_outcome
    (P : platform) (b : bot) (exam : Z) (submit strict : bool) (rate : Q) :
  let run := auto_answer_with_report P b exam submit strict rate in
  (r_success run.2 = true
   <-> r_status run.2 = status_prepared \/ r_status run.2 = status_submitted)
  /\ (r_success run.2 = false ->
      r_message run.2 <> ""
      /\ (r_status run.2 = status_error \/ r_status run.2 = status_insufficient))
  /\ (submit_calls (log run.1) <= S (submit_calls (log b)))%nat
  /\ (submit = false -> submit_calls (log run.1) = submit_calls (log b))
  /\ (r_status run.2 = status_prepared ->
      submit = false /\ submit_calls (log run.1) = submit_calls (log b))
  /\ (r_status run.2 = status_submitted ->
      submit = true /\ submit_calls (log run.1) = S (submit_calls (log b))
      /\ completed_chapters_loaded run.1 = false /\ (0 < r_answered run.2)%nat)
  /\ (r_success run.2 = true ->
      (0 < r_total run.2)%nat
      /\ (strict = true -> r_missing run.2 = 0%nat)
      /\ rate_below (r_answered run.2) (r_total run.2) rate = false).
Proof.
  unfold auto_answer_with_report.
  pose proof (submit_calls_emit b (GetExam exam)) as Hget. cbn [is_submit_post] in Hget.
  rewrite Nat.add_0_r in Hget.
  set (b1 := emit b (GetExam exam)) in *.
  assert (Hearly : forall message : string, message <> "" ->
            let run := (b1, mkReport false status_error message 0 0 0 0 0 []) in
            (r_success run.2 = true
             <-> r_status run.2 = status_prepared \/ r_status run.2 = status_submitted)
            /\ (r_success run.2 = false ->
                r_message run.2 <> ""
                /\ (r_status run.2 = status_error \/ r_status run.2 = status_insufficient))
            /\ (submit_calls (log run.1) <= S (submit_calls (log b)))%nat
            /\ (submit = false -> submit_calls (log run.1) = submit_calls (log b))
            /\ (r_status run.2 = status_prepared ->
                submit = false /\ submit_calls (log run.1) = submit_calls (log b))
            /\ (r_status run.2 = status_submitted ->
                submit = true /\ submit_calls (log run.1) = S (submit_calls (log b))
                /\ completed_chapters_loaded run.1 = false /\ (0 < r_answered run.2)%nat)
            /\ (r_success run.2 = true ->
                (0 < r_total run.2)%nat
                /\ (strict = true -> r_missing run.2 = 0%nat)
                /\ rate_below (r_answered run.2) (r_total run.2) rate = false)).
  { intros message Hmsg run. subst run.
    cbn [fst snd r_success r_status r_message r_total r_answered r_missing].
    split; [split; [discriminate|intros [?|?]; discriminate]|].
    split; [intros _; split; [exact Hmsg|left; reflexivity]|].
    split; [lia|]. split; [intros _; exact Hget|].
    split; [discriminate|]. split; discriminate. }
  destruct (exam_page_of P (log b1)) as [e|page]; [apply Hearly; discriminate|].
  destruct (negb (ep_status page =? 200)); [apply Hearly; discriminate|].
  destruct (ep_form_action page) as [url|]; [|apply Hearly; discriminate].
  destruct (ep_questions page) as [|q_ul rest] eqn:Hqs; [apply Hearly; discriminate|].
  rewrite <- Hqs.
  pose proof (answer_questions_submit_calls P b1 (ep_questions page)) as Hloop.
  destruct (answer_questions_counts P b1 (ep_questions page)) as [(_ & _ & _ & Hdata) _].
  set (st := answer_questions P b1 (ep_questions page)) in *.
  rewrite Hget in Hloop.
  destruct (a_total st =? 0)%nat eqn:Hzero.
  { cbn [fst snd r_success r_status r_message r_total r_answered r_missing].
    split; [split; [discriminate|intros [?|?]; discriminate]|].
    split; [intros _; split; [discriminate|left; reflexivity]|].
    split; [lia|]. split; [intros _; exact Hloop|].
    split; [discriminate|]. split; discriminate. }
  apply Nat.eqb_neq in Hzero.
  destruct (strict && (0 <? failed_count st)%nat) eqn:Hstrict.
  { cbn [fst snd r_success r_status r_message r_total r_answered r_missing].
    split; [split; [discriminate|intros [?|?]; discriminate]|].
    split; [intros _; split; [discriminate|right; reflexivity]|].
    split; [lia|]. split; [intros _; exact Hloop|].
    split; [discriminate|]. split; discriminate. }
  destruct (rate_below (a_answered st) (a_total st) rate) eqn:Hrate.
  { cbn [fst snd r_success r_status r_message r_total r_answered r_missing].
    split; [split; [discriminate|intros [?|?]; discriminate]|].
    split; [intros _; split; [discriminate|right; reflexivity]|].
    split; [lia|]. split; [intros _; exact Hloop|].
    split; [discriminate|]. split; discriminate. }
  assert (Hopen : strict = true -> failed_count st = 0%nat).
  { intros ->. cbn [andb] in Hstrict. apply Nat.ltb_ge in Hstrict. lia. }
  destruct submit; cbn [negb].
  2: { cbn [fst snd r_success r_status r_message r_total r_answered r_missing].
       split; [split; [intros _; left; reflexivity|reflexivity]|].
       split; [discriminate|]. split; [lia|]. split; [intros _; exact Hloop|].
       split; [intros _; split; [reflexivity|exact Hloop]|].
       split; [discriminate|]. intros _. split; [lia|]. split; [exact Hopen|exact Hrate]. }
  destruct (answer_data st) as [|entry entries] eqn:Hentries.
  { cbn [fst snd r_success r_status r_message r_total r_answered r_missing].
    split; [split; [discriminate|intros [?|?]; discriminate]|].
    split; [intros _; split; [discriminate|left; reflexivity]|].
    split; [lia|]. split; [discriminate|].
    split; [discriminate|]. split; discriminate. }
  pose proof (submit_calls_emit (a_bot st) (PostSubmit url (entry :: entries))) as Hpost.
  cbn [is_submit_post] in Hpost. rewrite Hloop in Hpost.
  set (b3 := emit (a_bot st) (PostSubmit url (entry :: entries))) in *.
  destruct (submit_post P (log b3)) as [e|code].
  { cbn [fst snd r_success r_status r_message r_total r_answered r_missing].
    split; [split; [discriminate|intros [?|?]; discriminate]|].
    split; [intros _; split; [discriminate|left; reflexivity]|].
    split; [lia|]. split; [discriminate|].
    split; [discriminate|]. split; discriminate. }
  destruct (code =? 200).
  - cbn [fst snd r_success r_status r_message r_total r_answered r_missing
         set_completed log completed_chapters_loaded].
    split; [split; [intros _; right; reflexivity|reflexivity]|].
    split; [discriminate|]. split; [lia|]. split; [discriminate|].
    split; [discriminate|].
    split.
    + intros _. split; [reflexivity|]. split; [lia|]. split; [reflexivity|].
      cbn [length] in Hdata. lia.
    + intros _. split; [lia|]. split; [exact Hopen|exact Hrate].
  - cbn [fst snd r_success r_status r_message r_total r_answered r_missing].
    split; [split; [discriminate|intros [?|?]; discriminate]|].
    split; [intros _; split; [discriminate|left; reflexivity]|].
    split; [lia|]. split; [discriminate|].
    split; [discriminate|]. split; discriminate.
Qed.

(** X14. How a chapter ends. The report says success exactly when its status
    is [prepared] or [submitted]; every failure carries a message and the
    status [error] or [insufficient_answers]. The answers are posted at most
    once per chapter and never when submission is switched off; a report
    says [submitted] only when they were posted, with at least one answer
    among them, and then the cache of completed chapters is marked stale. A
    success means at least one question was counted, none was left open in
    strict mode, and the answered share reached the minimum rate, both
    taken as floats: with four of five questions answered and a minimum
    rate of 0.8 the share is enough, since the quotient and the rate are
    the same float. *)
Theorem chapter_report_outcome
    (P : platform) (b : bot) (exam : Z) (submit strict : bool) (rate : Q) :
  let run := auto_answer_with_report P b exam submit strict rate in
  (r_success run.2 = true
   <-> r_status run.2 = status_prepared \/ r_status run.2 = status_submitted)
  /\ (r_success run.2 = false ->
      r_message run.2 <> ""
      /\ (r_status run.2 = status_error \/ r_status run.2 = status_insufficient))
  /\ (submit_calls (log run.1) <= S (submit_calls (log b)))%nat
  /\ (submit = false -> submit_calls (log run.1) = submit_calls (log b))
  /\ (r_status run.2 = status_prepared ->
      submit = false /\ submit_calls (log run.1) = submit_calls (log b))
  /\ (r_status run.2 = status_submitted ->
      submit = true /\ submit_calls (log run.1) = S (submit_calls (log b))
      /\ completed_chapters_loaded run.1 = false /\ (0 < r_answered run.2)%nat)
  /\ (r_success run.2 = true ->
      (0 < r_total run.2)%nat
      /\ (strict = true -> r_missing run.2 = 0%nat)
      /\ rate_below (r_answered run.2) (r_total run.2) rate = false
      /\ (round64 rate
          <= round64 (Qmake (Z.of_nat (r_answered run.2)) 1
                      / Qmake (Z.of_nat (r_total run.2)) 1))%Q)
  /\ rate_below 4 5 (8 # 10) = false
  /\ rate_below 3 5 (8 # 10) = true.
Proof.
  intros run.
  destruct (auto_answer_with_report_outcome P b exam submit strict rate)
    as (Hsuccess & Hfailure & Hmost & Hoff & Hprepared & Hsubmitted & Hrate).
  fold run in Hsuccess, Hfailure, Hmost, Hoff, Hprepared, Hsubmitted, Hrate.
  split; [exact Hsuccess|]. split; [exact Hfailure|]. split; [exact Hmost|].
  split; [exact Hoff|]. split; [exact Hprepared|]. split; [exact Hsubmitted|].
  split; [|split; vm_compute; reflexivity].
  intros Hok. destruct (Hrate Hok) as (Htotal & Hstrict & Hbelow).
  split; [exact Htotal|]. split; [exact Hstrict|]. split; [exact Hbelow|].
  unfold rate_below in Hbelow. apply negb_false_iff, Qle_bool_iff in Hbelow.
  exact Hbelow.
Qed.

End ReportFacts.
Section ChapterLoopFacts.

Import QuizBot Plugin.

Lemma record_report_counts (cfg : config) (t : tally) (ch : chapter) (rep : report) :
  let t1 := (record_report cfg t ch rep).1 in
  let stop := (record_report cfg t ch rep).2 in
  (success_count t1 + fail_count t1 = S (success_count t + fail_count t))%nat
  /\ (success_count t <= success_count t1)%nat
  /\ (fail_count t <= fail_count t1)%nat
  /\ invalid_count t1 = invalid_count t
  /\ submit_failed t1 = submit_failed t
  /\ was_canceled t1 = was_canceled t
  /\ (length (failure_examples t) <= 3 -> length (failure_examples t1) <= 3)%nat
  /\ (length (failure_examples t1) + fail_count t
      <= length (failure_examples t) + fail_count t1)%nat
  /\ (length (failure_examples t) <= length (failure_examples t1))%nat
  /\ (stop = true -> strict_mode cfg = true /\ fail_count t1 = S (fail_count t)).
Proof.
  unfold record_report. destruct (r_success rep).
  - cbn. repeat split; intros; try lia; discriminate.
  - destruct (negb (String.eqb (r_message rep) "") && (length (failure_examples t) <? 3)%nat)
      eqn:Hadd.
    + apply andb_true_iff in Hadd as [_ Hfew]. apply Nat.ltb_lt in Hfew.
      destruct (String.eqb (r_status rep) status_insufficient);
        cbn [fst snd success_count fail_count invalid_count submit_failed was_canceled
             failure_examples]; rewrite ?length_app; cbn [length];
        repeat split; intros; try lia; try discriminate; auto.
    + destruct (String.eqb (r_status rep) status_insufficient);
        cbn [fst snd success_count fail_count invalid_count submit_failed was_canceled
             failure_examples];
        repeat split; intros; try lia; try discriminate; auto.
Qed.

Lemma run_chapters_counts (cfg : config) (P : platform) (chapters : list chapter) :
  forall (b : bot) (t : tally),
    let t' := (run_chapters cfg P b t chapters).2 in
    (success_count t' + fail_count t' <= success_count t + fail_count t + length chapters)%nat
    /\ (success_count t <= success_count t')%nat
    /\ (fail_count t <= fail_count t')%nat
    /\ invalid_count t' = invalid_count t
    /\ submit_failed t' = submit_failed t
    /\ (length (failure_examples t) <= 3 -> length (failure_examples t') <= 3)%nat
    /\ (length (failure_examples t') + fail_count t
        <= length (failure_examples t) + fail_count t')%nat
    /\ (was_canceled t = false -> was_canceled t' = true ->
        stopped_reason t' = Some "任务已取消"
        /\ (success_count t' + fail_count t'
            < success_count t + fail_count t + length chapters)%nat)
    /\ (was_canceled t = false -> was_canceled t' = false -> fail_count t' = fail_count t ->
        success_count t' = (success_count t + length chapters)%nat)
    /\ (strict_mode cfg = false -> was_canceled t = false -> was_canceled t' = false ->
        (success_count t' + fail_count t'
         = success_count t + fail_count t + length chapters)%nat).
Proof.
  induction chapters as [|ch rest IH]; intros b t; cbn [run_chapters length].
  - cbn [snd]. repeat split; intros; try lia; congruence.
  - destruct (cancel_is_set P (log b)).
    + cbn [snd success_count fail_count invalid_count submit_failed failure_examples
           stopped_reason was_canceled].
      repeat split; intros; try lia; discriminate.
    + destruct (auto_answer_with_report P b (exam_id ch) (auto_submit cfg) (strict_mode cfg)
                  (min_answer_rate cfg)) as [b1 rep].
      pose proof (record_report_counts cfg t ch rep) as Hstep.
      destruct (record_report cfg t ch rep) as [t1 stop]. cbn [fst snd] in Hstep.
      destruct Hstep as (Hsum & Hs & Hf & Hinv & Hsub & Hcan & Hex3 & Hexf & Hexm & Hstop).
      destruct stop.
      * destruct (Hstop eq_refl) as [Hstrict Hfail]. cbn [snd].
        repeat split; intros; try lia; congruence.
      * specialize (IH b1 t1). cbn zeta in IH.
        destruct IH as (I1 & I2 & I3 & I4 & I5 & I6 & I7 & I8 & I9 & I10).
        rewrite Hcan in I8, I9, I10.
        split; [lia|]. split; [lia|]. split; [lia|]. split; [congruence|].
        split; [congruence|]. split; [auto|]. split; [lia|].
        split; [intros H0 H1; destruct (I8 H0 H1); split; [assumption|lia]|].
        split; [intros H0 H1 H2; assert (fail_count t1 = fail_count t) by lia;
                rewrite I9 by (auto; lia); lia|].
        intros H0 H1 H2. rewrite I10 by auto. lia.
Qed.

(** X15. The counters of the chapter loop. Chapters that succeeded and
    chapters that failed never outnumber the chapters selected; at most
    three failures are quoted; the counters for invalid pages and failed
    submissions never move, since no report feeds them. A canceled run says
    so in its reason and left at least one chapter untouched. A run that was
    not canceled and had no failure went through every chapter; and without
    strict mode an uncanceled run goes through every chapter even when some
    fail. *)
Theorem chapter_loop_counts (cfg : config) (P : platform) (b : bot) (chapters : list chapter) :
  let t := (run_chapters cfg P b empty_tally chapters).2 in
  (success_count t + fail_count t <= length chapters)%nat
  /\ (length (failure_examples t) <= 3)%nat
  /\ (length (failure_examples t) <= fail_count t)%nat
  /\ invalid_count t = 0%nat /\ submit_failed t = 0%nat
  /\ (was_canceled t = true ->
      stopped_reason t = Some "任务已取消"
      /\ (success_count t + fail_count t < length chapters)%nat)
  /\ (was_canceled t = false -> fail_count t = 0%nat ->
      success_count t = length chapters)
  /\ (strict_mode cfg = false -> was_canceled t = false ->
      (success_count t + fail_count t)%nat = length chapters).
Proof.
  pose proof (run_chapters_counts cfg P chapters b empty_tally) as Hrun.
  cbn zeta in *.
  destruct Hrun as (I1 & I2 & I3 & I4 & I5 & I6 & I7 & I8 & I9 & I10).
  cbn [empty_tally success_count fail_count invalid_count submit_failed failure_examples
       was_canceled length] in *.
  split; [lia|]. split; [apply I6; lia|]. split; [lia|]. split; [exact I4|].
  split; [exact I5|]. split; [intros Hc; destruct (I8 eq_refl Hc); split; [assumption|lia]|].
  split; [intros Hc Hf; rewrite I9 by auto; lia|].
  intros Hs Hc. rewrite I10 by auto. lia.
Qed.

Lemma finish_failure_reason (t : tally) :
  res_success (finish t) = false -> reason_truthy (res_error (finish t)) = true.
Proof.
  unfold finish. cbn [res_success res_error].
  destruct (reason_truthy (stopped_reason t)) eqn:Hreason; cbn [negb andb].
  - intros _. exact Hreason.
  - destruct (0 <? fail_count t)%nat eqn:Hfail.
    + intros _. destruct (failure_examples t); reflexivity.
    + apply Nat.ltb_ge in Hfail. assert (Hz : fail_count t = 0%nat) by lia.
      rewrite Hz, Hreason. discriminate.
Qed.

Lemma finish_success (t : tally) :
  res_success (finish t) = true ->
  fail_count t = 0%nat /\ reason_truthy (stopped_reason t) = false
  /\ res_error (finish t) = stopped_reason t.
Proof.
  unfold finish. cbn [res_success res_error]. intros Hok.
  apply andb_true_iff in Hok as [Hz Hreason]. apply Nat.eqb_eq in Hz.
  rewrite Hz in *. cbn [Nat.ltb Nat.leb andb] in *. rewrite andb_false_r in *.
  apply negb_true_iff in Hreason. auto.
Qed.

(** X16. What a job reports. A job that ends without an exception and
    without success always says why (its error text is not empty). A success
    means that no chapter failed, that the job was not canceled, and that
    every selected chapter (there is at least one) was answered. A canceled
    job reports the reason [任务已取消]. Whenever there is a summary, its total
    is successes plus failures and its reason is the error text of the
    result. *)
Theorem job_result_is_consistent
    (c : config) (H : hashlib) (P : platform)
    (bank : list (string * list bank_question)) (store : BindingStore.store)
    (task : QuizTask) (r : result) :
  (_execute_task_sync c H P bank store task).2 = Ret r ->
  (res_success r = false -> reason_truthy (res_error r) = true)
  /\ (res_success r = true ->
      res_canceled r = false /\ reason_truthy (res_error r) = false
      /\ exists sm, res_summary r = Some sm /\ s_failed sm = 0%nat
                    /\ s_success sm = s_total sm /\ (1 <= s_total sm)%nat)
  /\ (res_canceled r = true -> res_error r = Some "任务已取消")
  /\ (forall sm, res_summary r = Some sm ->
        s_total sm = (s_success sm + s_failed sm)%nat
        /\ s_invalid sm = 0%nat /\ s_submit_failed sm = 0%nat
        /\ s_stopped sm = res_error r).
Proof.
  assert (Hfail : forall msg : string, msg <> "" ->
            (res_success (fail_with msg) = false ->
               reason_truthy (res_error (fail_with msg)) = true)
            /\ (res_success (fail_with msg) = true ->
                res_canceled (fail_with msg) = false
                /\ reason_truthy (res_error (fail_with msg)) = false
                /\ exists sm, res_summary (fail_with msg) = Some sm /\ s_failed sm = 0%nat
                              /\ s_success sm = s_total sm /\ (1 <= s_total sm)%nat)
            /\ (res_canceled (fail_with msg) = true ->
                res_error (fail_with msg) = Some "任务已取消")
            /\ (forall sm, res_summary (fail_with msg) = Some sm ->
                  s_total sm = (s_success sm + s_failed sm)%nat
                  /\ s_invalid sm = 0%nat /\ s_submit_failed sm = 0%nat
                  /\ s_stopped sm = res_error (fail_with msg))).
  { intros msg Hmsg. cbn. split; [|split; [discriminate|split; discriminate]].
    intros _. apply negb_true_iff. apply String.eqb_neq. exact Hmsg. }
  unfold _execute_task_sync.
  destruct (BindingStore.get store (qq_id task)) as [[creds|]|e]; [| |discriminate].
  2: { cbn [snd]. intros Heq. inversion Heq; subst. apply Hfail. discriminate. }
  destruct (AutoLogin.check_login_status P _) as [b1 logged_in].
  destruct (if logged_in then (b1, true) else AutoLogin.analyze_network_request H P b1)
    as [b2 ok].
  destruct ok; cbn [negb].
  2: { cbn [snd]. intros Heq. inversion Heq; subst. apply Hfail. discriminate. }
  destruct (get_all_courses P _) as [b4 courses].
  destruct (course_id task) as [cid|].
  2: { cbn [snd]. intros Heq. inversion Heq; subst. apply Hfail. discriminate. }
  destruct (List.find _ courses) as [found|].
  2: { cbn [snd]. intros Heq. inversion Heq; subst. apply Hfail. discriminate. }
  destruct (get_chapters P b4 cid) as [b5 chapters].
  destruct chapters as [|ch chapters].
  { cbn [snd]. intros Heq. inversion Heq; subst. apply Hfail. discriminate. }
  pose proof (select_chapters_early H P b5) as Hearly.
  destruct (select_chapters H P b5 _ (ch :: chapters)) as [b6 [[early|selected]|e]] eqn:Hsel.
  3: { discriminate. }
  { cbn [snd]. intros Heq. inversion Heq; subst.
    rewrite (Hearly b6 _ _ r Hsel). apply Hfail. discriminate. }
  destruct selected as [|first others].
  { cbn [snd]. intros Heq. inversion Heq; subst. apply Hfail. discriminate. }
  pose proof (run_chapters_counts c P (first :: others) b6 empty_tally) as Hloop.
  cbn zeta in Hloop.
  destruct (run_chapters c P b6 empty_tally (first :: others)) as [b7 t].
  cbn [snd] in *. intros Heq. inversion Heq; subst r. clear Heq.
  destruct Hloop as (_ & _ & _ & I4 & I5 & _ & _ & I8 & I9 & _).
  cbn [empty_tally success_count fail_count was_canceled invalid_count submit_failed]
    in I4, I5, I8, I9.
  assert (L6 : was_canceled t = true -> stopped_reason t = Some "任务已取消").
  { intros Hc. apply (I8 eq_refl Hc). }
  assert (L7 : was_canceled t = false -> fail_count t = 0%nat ->
               success_count t = length (first :: others)).
  { intros Hc Hz. rewrite I9 by auto. reflexivity. }
  split; [apply finish_failure_reason|]. split; [|split].
  - intros Hok. destruct (finish_success t Hok) as (Hz & Hreason & Herr).
    assert (Hcan : was_canceled t = false).
    { destruct (was_canceled t); [|reflexivity].
      rewrite (L6 eq_refl) in Hreason. discriminate. }
    split; [exact Hcan|]. split; [rewrite Herr; exact Hreason|].
    eexists. split; [reflexivity|]. cbn [s_failed s_success s_total].
    split; [exact Hz|]. split; [lia|]. rewrite (L7 Hcan Hz). cbn [length]. lia.
  - cbn [finish res_canceled]. intros Hcan.
    unfold finish. cbn [res_error]. rewrite (L6 Hcan). reflexivity.
  - intros sm Hsm. unfold finish in *. cbn [res_summary res_error] in *.
    inversion Hsm; subst sm. cbn [s_total s_success s_failed s_invalid s_submit_failed s_stopped].
    auto.
Qed.

Lemma job_result_is_consistent_witness :
  exists r,
    (_execute_task_sync default_config tagging_hashlib five_question_platform
       five_question_bank (sample_store transparent_fernet) sample_task).2 = Ret r
    /\ (res_success r = false -> reason_truthy (res_error r) = true).
Proof.
  eexists. split; [vm_compute; reflexivity|].
  refine (proj1 (job_result_is_consistent default_config tagging_hashlib
                   five_question_platform five_question_bank
                   (sample_store transparent_fernet) sample_task _ _)).
  vm_compute. reflexivity.
Defined.

End ChapterLoopFacts.
Section ResolutionFacts.

Import QuizBot.

Lemma lookup_questions_truthy (questions : list bank_question) (q a : string) :
  lookup_questions questions q = Some a ->
  a <> "" /\ existsb (fun bq => bool_decide (bq_question_text bq = Some q)) questions = true.
Proof.
  induction questions as [|bq rest IH]; cbn [lookup_questions existsb]; [discriminate|].
  destruct (bool_decide (bq_question_text bq = Some q)) eqn:Hq; cbn [andb orb].
  - destruct (answer_truthy (bq_selected_answer bq)) eqn:Ha.
    + intros Heq. rewrite Heq in Ha. cbn in Ha. split; [|reflexivity].
      apply negb_true_iff, String.eqb_neq in Ha. exact Ha.
    + intros Hrest. split; [apply IH, Hrest|reflexivity].
  - intros Hrest. apply IH, Hrest.
Qed.

Lemma lookup_bank_truthy (bank : list (string * list bank_question)) (q a : string) :
  lookup_bank bank q = Some a ->
  a <> ""
  /\ existsb (fun chapter_data =>
                existsb (fun bq => bool_decide (bq_question_text bq = Some q)) chapter_data.2)
             bank = true.
Proof.
  induction bank as [|[name questions] rest IH]; cbn [lookup_bank existsb snd]; [discriminate|].
  destruct (lookup_questions questions q) as [found|] eqn:Hfound.
  - intros Heq. inversion Heq; subst.
    destruct (lookup_questions_truthy questions q a Hfound) as [Hne Hex].
    rewrite Hex. auto.
  - intros Hrest. destruct (IH Hrest) as [Hne Hex]. rewrite Hex, orb_true_r. auto.
Qed.

Lemma read_oracle_response_answered (r : oracle_response) (a : string) :
  read_oracle_response r = Answered a -> a <> "".
Proof.
  unfold read_oracle_response. destruct r as [| | |status body]; try discriminate.
  destruct (status =? 200); [|discriminate].
  destruct body as [| |d]; try discriminate.
  destruct (od_success d); [|discriminate].
  destruct (od_data d) as [[|correctAnswer]|]; try discriminate.
  destruct (mjoin correctAnswer) as [found|]; [|discriminate].
  destruct (answer_truthy (Some found)) eqn:Ha; [|discriminate].
  intros Heq. inversion Heq; subst. cbn in Ha.
  apply negb_true_iff, String.eqb_neq in Ha. exact Ha.
Qed.

(** X17. Where an answer comes from. An answer that [find_answer] returns is
    never the empty string. It is the bank's answer whenever the bank has
    one for the question: then no request is made and the bot is left as it
    was. Otherwise it is the answer of exactly one Oracle request, made
    while the Oracle was on, and the error count is back at zero. *)
Theorem resolved_answers_are_never_empty (P : platform) (b : bot) (q a : string) :
  (find_answer P b q).2 = Some a ->
  a <> ""
  /\ ((lookup_bank (question_bank b) q = Some a
       /\ (find_answer P b q).1 = b
       /\ is_answer_in_local_bank b q = true)
      \/ (lookup_bank (question_bank b) q = None
          /\ oracle_disabled b = false
          /\ log (find_answer P b q).1 = (log b ++ [PostOracle q])%list
          /\ read_oracle_response (oracle_post P (log b ++ [PostOracle q])) = Answered a
          /\ api_error_count (find_answer P b q).1 = 0%nat
          /\ api_available (find_answer P b q).1 = true)).
Proof.
  unfold find_answer.
  destruct (lookup_bank (question_bank b) q) as [found|] eqn:Hbank.
  - cbn [snd fst]. intros Heq. inversion Heq; subst.
    destruct (lookup_bank_truthy _ _ _ Hbank) as [Hne Hex].
    split; [exact Hne|]. left. auto.
  - unfold api_search, oracle_disabled.
    destruct (api_available b) eqn:Hav; cbn [negb]; [|discriminate].
    destruct (3 <=? api_error_count b)%nat eqn:Hcount; [discriminate|].
    cbn [emit with_log log].
    destruct (read_oracle_response _) as [answer| |] eqn:Hreply.
    + cbn [snd fst set_api log api_error_count api_available]. intros Heq.
      inversion Heq; subst.
      split; [eapply read_oracle_response_answered; exact Hreply|].
      right. repeat split; first [reflexivity | assumption | (cbn; exact Hav)].
    + repeat break_if; discriminate.
    + repeat break_if; discriminate.
Qed.

Lemma resolved_answers_are_never_empty_witness :
  (find_answer five_question_platform banked_bot "q1").1 = banked_bot.
Proof.
  destruct (resolved_answers_are_never_empty five_question_platform banked_bot "q1" "A"
              eq_refl) as [_ [(_ & Hsame & _)|(Hnone & _)]].
  - exact Hsame.
  - vm_compute in Hnone. discriminate.
Defined.



End ResolutionFacts.
Section CompletionFacts.

Import AutoLogin QuizBot Plugin.

Lemma classify_plain_cache (b : bot) (r : login_response) :
  completed_chapters (classify_plain b r).1 = completed_chapters b.
Proof. unfold classify_plain. repeat break_if; reflexivity. Qed.

Lemma test_login_cache (P : platform) (b : bot) (pf : string) (key : option string) :
  completed_chapters (test_login_with_password_format P b pf key).1 = completed_chapters b.
Proof.
  unfold test_login_with_password_format.
  destruct (login_post P _) as [r|]; [|reflexivity].
  destruct (lr_json r) as [| |code msg url];
    [rewrite classify_plain_cache; reflexivity|reflexivity|].
  destruct (_ && _); [reflexivity|].
  destruct (bool_decide _); [reflexivity|rewrite classify_plain_cache; reflexivity].
Qed.

Lemma try_candidates_cache (P : platform) (key : option string) (candidates : list string) :
  forall b : bot,
    completed_chapters (try_candidates P key b candidates).1 = completed_chapters b.
Proof.
  induction candidates as [|pf rest IH]; intros b; cbn [try_candidates]; [reflexivity|].
  pose proof (test_login_cache P b pf key) as Hstep.
  destruct (test_login_with_password_format P b pf key) as [b1 ok]. cbn [fst] in Hstep.
  destruct ok; [exact Hstep|]. rewrite IH. destruct rest; exact Hstep.
Qed.

Lemma analyze_network_request_cache (H : hashlib) (P : platform) (b : bot) :
  completed_chapters (analyze_network_request H P b).1 = completed_chapters b.
Proof.
  unfold analyze_network_request, get_csrf_token_and_key.
  destruct (login_page_of P _) as [page|]; [|rewrite try_candidates_cache; reflexivity].
  destruct (negb _); [rewrite try_candidates_cache; reflexivity|].
  destruct (lp_found_key page) as [[c rest]|]; rewrite try_candidates_cache; reflexivity.
Qed.

Lemma check_login_status_cache (P : platform) (b : bot) :
  completed_chapters (check_login_status P b).1 = completed_chapters b.
Proof.
  unfold check_login_status. destruct (main_page P _); [|reflexivity].
  break_if; reflexivity.
Qed.

Lemma get_all_courses_cache (P : platform) (b : bot) :
  completed_chapters (get_all_courses P b).1 = completed_chapters b.
Proof.
  unfold get_all_courses. destruct (courses_page P _) as [[status found]|]; [|reflexivity].
  break_if; reflexivity.
Qed.

Lemma add_entries_distinct (c : course) (entries : list (Z * string * string)) :
  forall done, NoDup done.*1 -> NoDup (add_entries c entries done).*1.
Proof.
  induction entries as [|[[exam name] score] rest IH]; intros done Hnd; cbn [add_entries];
    [exact Hnd|].
  destruct (is_completed done exam) eqn:Hseen; [apply IH, Hnd|].
  apply IH. rewrite fmap_app. apply NoDup_app. split; [exact Hnd|].
  split; [|cbn; apply NoDup_singleton].
  intros x Hx Hin. cbn in Hin. apply list_elem_of_singleton in Hin. subst x.
  apply list_elem_of_fmap in Hx as ([e info] & Heq & Hin). cbn in Heq. subst e.
  assert (Htrue : is_completed done exam = true).
  { unfold is_completed. apply existsb_exists. exists (exam, info).
    split; [apply list_elem_of_In; exact Hin|]. cbn. apply Z.eqb_refl. }
  congruence.
Qed.

Lemma scan_courses_distinct (P : platform) (courses : list course) :
  forall (b : bot) (done : list (Z * score_info)),
    NoDup done.*1 -> NoDup (scan_courses P b courses done).2.*1.
Proof.
  induction courses as [|c rest IH]; intros b done Hnd; cbn [scan_courses]; [exact Hnd|].
  destruct (results_page_of P _) as [page|]; [|apply IH, Hnd].
  destruct (negb _); [apply IH, Hnd|].
  cbn [url_lower]. apply IH, Hnd.
Qed.

(** The scan records nothing: a course whose page cannot be fetched or
    comes with another status than 200 is skipped, and for a page that
    comes with 200 the check of the final URL raises, which skips the
    course as well. *)
Lemma scan_courses_records_nothing (P : platform) (courses : list course) :
  forall (b : bot) (done : list (Z * score_info)),
    (scan_courses P b courses done).2 = done.
Proof.
  induction courses as [|c rest IH]; intros b done; cbn [scan_courses];
    [reflexivity|].
  destruct (results_page_of P _) as [page|]; [|apply IH].
  destruct (negb _); [apply IH|]. cbn [url_lower]. apply IH.
Qed.

(** What [load_completed_chapters] leaves behind: either it gave up (no
    login, or no course) and the cache of completed chapters is the one
    it found, or the cache is what the scan of the courses' result pages
    collected, starting from nothing. *)
Lemma load_completed_chapters_cases (H : hashlib) (P : platform) (b : bot) :
  completed_chapters (load_completed_chapters H P b) = completed_chapters b
  \/ exists (b3 : bot) (courses : list course),
       courses <> []
       /\ (exists b2, (get_all_courses P b2) = (b3, courses))
       /\ completed_chapters (load_completed_chapters H P b)
          = (scan_courses P b3 courses []).2
       /\ completed_chapters_loaded (load_completed_chapters H P b) = true.
Proof.
  unfold load_completed_chapters.
  pose proof (check_login_status_cache P b) as H1.
  destruct (check_login_status P b) as [b1 logged_in]. cbn [fst] in H1.
  assert (H2 : completed_chapters (if logged_in then (b1, true)
                                   else analyze_network_request H P b1).1
               = completed_chapters b).
  { destruct logged_in; [exact H1|]. rewrite analyze_network_request_cache. exact H1. }
  destruct (if logged_in then (b1, true) else analyze_network_request H P b1) as [b2 ok].
  cbn [fst] in H2. destruct ok; cbn [negb]; [|left; exact H2].
  pose proof (get_all_courses_cache P b2) as H3.
  destruct (get_all_courses P b2) as [b3 courses] eqn:Hcourses. cbn [fst] in H3.
  destruct courses as [|c rest]; [left; congruence|].
  right. exists b3, (c :: rest). split; [discriminate|]. split; [exists b2; exact Hcourses|].
  destruct (scan_courses P b3 (c :: rest) []) as [b4 done]. cbn. auto.
Qed.

(** X19. The mode for chapters not done yet selects every chapter. It
    keeps the chapters that the cache of completed chapters does not
    list, in the order of the chapter list, and a load never leaves an
    exam listed twice. But the scan of the result pages records nothing,
    whatever the pages hold: for a page fetched with status 200 the check
    of the final URL calls [lower] on an [httpx.URL], the AttributeError
    is caught and the course is skipped. So a load leaves the cache as it
    found it or empty, and a bot that starts with an empty cache, as the
    fresh bot of every job does, selects every chapter of the course, the
    finished ones included. *)
Theorem incomplete_mode_fails_open
    (H : hashlib) (P : platform) (b : bot) (task : QuizTask) (chapters : list chapter) :
  mode task = mode_incomplete ->
  let b' := load_completed_chapters H P b in
  select_chapters H P b task chapters
  = (b', Ret (inr (List.filter
                     (fun ch => negb (is_completed (completed_chapters b') (exam_id ch)))
                     chapters)))
  /\ (NoDup (completed_chapters b).*1 -> NoDup (completed_chapters b').*1)
  /\ (forall (b0 : bot) (courses : list course) (done : list (Z * score_info)),
        (scan_courses P b0 courses done).2 = done)
  /\ (completed_chapters b' = completed_chapters b \/ completed_chapters b' = [])
  /\ (completed_chapters b = [] ->
      completed_chapters b' = []
      /\ (select_chapters H P b task chapters).2 = Ret (inr chapters))
  /\ (forall username password : string,
        (select_chapters H P (new_bot username password) task chapters).2
        = Ret (inr chapters)).
Proof.
  intros Hmode b'.
  assert (Hsel : forall b0,
             select_chapters H P b0 task chapters
             = (load_completed_chapters H P b0,
                Ret (inr (List.filter
                      (fun ch => negb (is_completed
                                         (completed_chapters (load_completed_chapters H P b0))
                                         (exam_id ch)))
                      chapters)))).
  { intros b0. unfold select_chapters. rewrite Hmode. reflexivity. }
  assert (Hcases : forall b0,
             completed_chapters (load_completed_chapters H P b0) = completed_chapters b0
             \/ completed_chapters (load_completed_chapters H P b0) = []).
  { intros b0. destruct (load_completed_chapters_cases H P b0)
      as [Hsame|(b3 & courses & _ & _ & Hscan & _)]; [left; exact Hsame|right].
    rewrite Hscan. apply scan_courses_records_nothing. }
  assert (Hall : forall b0,
             completed_chapters b0 = [] ->
             (select_chapters H P b0 task chapters).2 = Ret (inr chapters)).
  { intros b0 Hempty. rewrite Hsel. cbn [snd].
    assert (Hcache : completed_chapters (load_completed_chapters H P b0) = []).
    { destruct (Hcases b0) as [Hsame|Hnone]; congruence. }
    rewrite Hcache. f_equal. f_equal. clear.
    induction chapters as [|ch rest IH]; [reflexivity|].
    cbn [List.filter is_completed existsb negb]. f_equal. exact IH. }
  split; [apply Hsel|]. split; [|split; [|split; [|split]]].
  - intros Hnd. subst b'. destruct (Hcases b) as [Hsame|Hnone].
    + rewrite Hsame. exact Hnd.
    + rewrite Hnone. constructor.
  - intros b0 courses done. apply scan_courses_records_nothing.
  - apply Hcases.
  - intros Hempty. split; [|apply Hall, Hempty].
    subst b'. destruct (Hcases b) as [Hsame|Hnone]; congruence.
  - intros username password. apply Hall. reflexivity.
Qed.

Lemma incomplete_mode_fails_open_witness :
  results_page_of graded_platform []
  = Some (mkResultsPage 200 "/index/exam/exam_list/course_id/7.html" [(71, "第一章", "100")])
  /\ (select_chapters tagging_hashlib graded_platform (new_bot "alice" "secret")
        incomplete_task two_chapters).2 = Ret (inr two_chapters).
Proof.
  split; [reflexivity|].
  exact (proj2 (proj2 (proj2 (proj2 (proj2
           (incomplete_mode_fails_open tagging_hashlib graded_platform
              (new_bot "alice" "secret") incomplete_task two_chapters eq_refl)))))
           "alice" "secret").
Defined.

End CompletionFacts.
Section ClientFacts.

Import APIClient.

Lemma search_loop_counters (P : platform) (q : string) (remaining : nat) :
  forall c : client,
    (request_count c <= request_count (search_loop P c q remaining).1)%nat
    /\ (request_count (search_loop P c q remaining).1 <= request_count c + remaining)%nat
    /\ (success_count c <= success_count (search_loop P c q remaining).1)%nat
    /\ (success_count (search_loop P c q remaining).1 + request_count c
        <= success_count c + request_count (search_loop P c q remaining).1)%nat
    /\ (success_count (search_loop P c q remaining).1 <= S (success_count c))%nat
    /\ retry_count (search_loop P c q remaining).1 = retry_count c
    /\ api_key (search_loop P c q remaining).1 = api_key c.
Proof.
  induction remaining as [|rest IH]; intros c.
  - cbn. repeat split; lia.
  - cbn [search_loop].
    assert (Hretry : forall (c' : client) (pause : Z) (last : option string),
              (request_count c <= request_count c' <= S (request_count c))%nat ->
              success_count c' = success_count c ->
              retry_count c' = retry_count c -> api_key c' = api_key c ->
              let out := match rest with
                         | O => (c', last)
                         | S _ => search_loop P (cemit c' (Sleep pause)) q rest
                         end in
              (request_count c <= request_count out.1)%nat
              /\ (request_count out.1 <= request_count c + S rest)%nat
              /\ (success_count c <= success_count out.1)%nat
              /\ (success_count out.1 + request_count c
                  <= success_count c + request_count out.1)%nat
              /\ (success_count out.1 <= S (success_count c))%nat
              /\ retry_count out.1 = retry_count c
              /\ api_key out.1 = api_key c).
    { intros c' pause last Hreq Hsucc Hret Hkey out. subst out.
      destruct rest as [|more].
      - cbn [fst]. repeat split; try lia; assumption.
      - destruct (IH (cemit c' (Sleep pause))) as (I1 & I2 & I3 & I4 & I5 & I6 & I7).
        cbn [cemit request_count success_count retry_count api_key] in *.
        repeat split; try lia; congruence. }
    assert (Hstop : forall (c' : client) (last : option string),
              (request_count c <= request_count c' <= S (request_count c))%nat ->
              (success_count c <= success_count c')%nat ->
              (success_count c' + request_count c <= success_count c + request_count c')%nat ->
              retry_count c' = retry_count c -> api_key c' = api_key c ->
              let out := (c', last) in
              (request_count c <= request_count out.1)%nat
              /\ (request_count out.1 <= request_count c + S rest)%nat
              /\ (success_count c <= success_count out.1)%nat
              /\ (success_count out.1 + request_count c
                  <= success_count c + request_count out.1)%nat
              /\ (success_count out.1 <= S (success_count c))%nat
              /\ retry_count out.1 = retry_count c
              /\ api_key out.1 = api_key c).
    { intros c' last Hreq Hs1 Hs2 Hret Hkey out. subst out. cbn [fst].
      repeat split; try lia; assumption. }
    destruct (oracle_post P _) as [| | |status body].
    + apply Hretry; cbn; auto; lia.
    + apply Hretry; cbn; auto; lia.
    + apply Hretry; cbn; auto; lia.
    + destruct (status =? 200).
      * destruct body as [| |d].
        -- apply Hretry; cbn; auto; lia.
        -- apply Hstop; cbn; auto; lia.
        -- destruct (recognised_answer d); apply Hstop; cbn; auto; lia.
      * destruct (status =? 404); [apply Hretry; cbn; auto; lia|].
        destruct (status =? 401); [apply Hstop; cbn; auto; lia|].
        destruct (status =? 500); apply Hretry; cbn; auto; lia.
Qed.

Lemma search_all_counters (P : platform) (questions : list string) :
  forall c : client,
    (success_count c <= request_count c)%nat ->
    (success_count (search_all P c questions) <= request_count (search_all P c questions))%nat
    /\ (request_count (search_all P c questions)
        <= request_count c + retry_count c * length questions)%nat
    /\ (success_count (search_all P c questions) <= success_count c + length questions)%nat
    /\ retry_count (search_all P c questions) = retry_count c.
Proof.
  induction questions as [|q rest IH]; intros c Hinv; cbn [search_all fold_left length].
  - repeat split; lia.
  - destruct (search_loop_counters P q (retry_count c) c) as (I1 & I2 & I3 & I4 & I5 & I6 & _).
    fold (search_answer P c q) in *.
    fold (search_all P (search_answer P c q).1 rest).
    destruct (IH (search_answer P c q).1) as (J1 & J2 & J3 & J4); [lia|].
    rewrite I6 in *. repeat split; try lia; try congruence; try nia.
Qed.

(** X20. The statistics of the client. After any series of lookups with a
    new client, the successes counted never exceed the requests counted (the
    success rate of [get_stats] stays within 100%), there is at most one
    success per lookup, and at most three requests per lookup are counted. *)
Theorem client_statistics_are_consistent
    (P : platform) (key : string) (questions : list string) :
  let c := search_all P (new_client key) questions in
  (success_count c <= request_count c)%nat
  /\ (request_count c <= 3 * length questions)%nat
  /\ (success_count c <= length questions)%nat
  /\ retry_count c = 3%nat.
Proof.
  destruct (search_all_counters P questions (new_client key)) as (J1 & J2 & J3 & J4);
    [cbn; lia|].
  cbn [new_client request_count success_count retry_count] in *.
  cbn zeta. repeat split; try lia; exact J4.
Qed.

Lemma search_loop_missing (P : platform) (q : string) (remaining : nat) :
  (forall l, exists body, oracle_post P l = OracleHttp 404 body) ->
  forall c : client,
    remaining <> 0%nat ->
    (search_loop P c q remaining).2 = Some "NOT_FOUND"
    /\ clog (search_loop P c q remaining).1
       = (clog c ++ paced_trace 2 q remaining)%list
    /\ request_count (search_loop P c q remaining).1
       = (request_count c + remaining)%nat
    /\ success_count (search_loop P c q remaining).1 = success_count c.
Proof.
  intros Hgone. induction remaining as [|rest IH]; intros c Hpos; [contradiction|].
  cbn [search_loop]. destruct (Hgone (clog (cemit c (PostOracle q)))) as [body ->].
  change (404 =? 200) with false. change (404 =? 404) with true. cbn iota.
  destruct rest as [|more].
  - cbn. repeat split; try reflexivity. lia.
  - destruct (IH (cemit (count_request (cemit c (PostOracle q))) (Sleep 2)))
      as (I1 & I2 & I3 & I4); [discriminate|].
    rewrite I1, I2, I3, I4.
    cbn [cemit count_request clog request_count success_count].
    split; [reflexivity|]. split; [|split; [lia|reflexivity]].
    rewrite <- !app_assoc. reflexivity.
Qed.

(** X21. Status codes in the answer position. A reply with status 401 ends
    the lookup at once, after a single request, with the text [UNAUTHORIZED]
    where an answer would be; when every reply has status 404 the client
    asks [retry_count] times, two seconds apart, and then returns the text
    [NOT_FOUND]. Neither counts as a success. *)
Theorem client_status_texts (P : platform) (c : client) (q : string) :
  (0 < retry_count c)%nat ->
  (forall body, oracle_post P (clog c ++ [PostOracle q]) = OracleHttp 401 body ->
     (search_answer P c q).2 = Some "UNAUTHORIZED"
     /\ clog (search_answer P c q).1 = (clog c ++ [PostOracle q])%list
     /\ request_count (search_answer P c q).1 = S (request_count c)
     /\ success_count (search_answer P c q).1 = success_count c)
  /\ ((forall l, exists body, oracle_post P l = OracleHttp 404 body) ->
      (search_answer P c q).2 = Some "NOT_FOUND"
      /\ clog (search_answer P c q).1 = (clog c ++ paced_trace 2 q (retry_count c))%list
      /\ request_count (search_answer P c q).1 = (request_count c + retry_count c)%nat
      /\ success_count (search_answer P c q).1 = success_count c).
Proof.
  intros Hpos. unfold search_answer.
  destruct (retry_count c) as [|rest]; [lia|]. split.
  - intros body Hreply. cbn [search_loop cemit clog]. rewrite Hreply. cbn. auto.
  - intros Hgone. apply search_loop_missing; [exact Hgone|discriminate].
Qed.

Lemma client_status_texts_witness :
  (search_answer missing_platform (new_client "bot666") "q").2 = Some "NOT_FOUND"
  /\ clog (search_answer missing_platform (new_client "bot666") "q").1
     = [PostOracle "q"; Sleep 2; PostOracle "q"; Sleep 2; PostOracle "q"].
Proof.
  destruct (client_status_texts missing_platform (new_client "bot666") "q") as [_ Hgone].
  - cbn. lia.
  - destruct Hgone as (Hans & Hlog & _); [intros l; eexists; reflexivity|].
    split; [exact Hans|exact Hlog].
Defined.

End ClientFacts.
Section PacingFacts.

Import AutoLogin.

Lemma try_candidates_trace (P : platform) (key : option string) (candidates : list string) :
  forall (b b' : bot) (ok : bool),
    candidates <> [] ->
    try_candidates P key b candidates = (b', ok) ->
    exists n : nat,
      (1 <= n <= length candidates)%nat
      /\ log b' = (log b ++ attempt_trace (if truthy key then key else None)
                                          (take n candidates))%list
      /\ (ok = false -> n = length candidates).
Proof.
  induction candidates as [|pf rest IH]; intros b b' ok Hne Hrun; [contradiction|].
  cbn [try_candidates] in Hrun.
  pose proof (test_login_log P b pf key) as Hlog.
  destruct (test_login_with_password_format P b pf key) as [b1 ok1]. cbn [fst] in Hlog.
  destruct ok1.
  - inversion Hrun; subst. exists 1%nat. cbn [length take attempt_trace].
    split; [lia|]. split; [rewrite take_0; exact Hlog|discriminate].
  - destruct rest as [|r rs].
    + cbn [try_candidates] in Hrun. inversion Hrun; subst. exists 1%nat.
      cbn [length take attempt_trace]. split; [lia|]. split; [exact Hlog|reflexivity].
    + destruct (IH (human_like_delay b1 2 4) b' ok) as (m & Hm & Htrace & Hall);
        [discriminate|exact Hrun|].
      exists (S m). cbn [length] in *. split; [lia|]. split.
      * rewrite Htrace. cbn [human_like_delay emit with_log log]. rewrite Hlog.
        destruct m as [|m']; [lia|]. cbn [take attempt_trace].
        rewrite <- !app_assoc. reflexivity.
      * intros Hfail. rewrite (Hall Hfail). reflexivity.
Qed.

(** X22. The pace of a login negotiation. After fetching the login page the
    bot posts the candidates one by one, waits between two and four seconds
    between two posts and at no other time (not before the first post, not
    after the last). Every post carries the key of the negotiation: when
    the login page was fetched with status 200 this is the key found in
    the page or, when the page holds none, the key the bot built itself;
    when the page could not be fetched or came with another status there
    is no key and the posts carry none. *)
Theorem login_attempts_are_paced (H : hashlib) (P : platform) (b : bot) :
  let key := (get_csrf_token_and_key P b).2 in
  let candidates := generate_password_hash H (password b) key in
  key = key_of_reply (login_page_of P (log b ++ [GetLoginPage]))
  /\ (forall page,
        login_page_of P (log b ++ [GetLoginPage]) = Some page ->
        key = if lp_status page =? 200 then Some (page_key page) else None)
  /\ (login_page_of P (log b ++ [GetLoginPage]) = None -> key = None)
  /\ exists n : nat,
       (1 <= n <= length candidates)%nat
       /\ log (analyze_network_request H P b).1
          = (log b ++ GetLoginPage :: attempt_trace key (take n candidates))%list
       /\ ((analyze_network_request H P b).2 = false -> n = length candidates).
Proof.
  intros key candidates.
  assert (Hkey : key = key_of_reply (login_page_of P (log b ++ [GetLoginPage])))
    by apply get_csrf_token_and_key_key.
  assert (Hsent : (if truthy key then key else None) = key).
  { rewrite Hkey, key_of_reply_truthy. destruct (key_of_reply _); reflexivity. }
  split; [exact Hkey|]. split; [|split].
  { intros page Hpage. rewrite Hkey, Hpage. reflexivity. }
  { intros Hnone. rewrite Hkey, Hnone. reflexivity. }
  subst candidates. revert Hsent. subst key. clear Hkey.
  unfold analyze_network_request.
  destruct (get_csrf_token_and_key_log P b) as [Hlog Hpw].
  destruct (get_csrf_token_and_key P b) as [b1 key]. cbn [fst snd] in *.
  intros Hsent. rewrite Hpw.
  destruct (try_candidates P key b1 (generate_password_hash H (password b) key))
    as [b' ok] eqn:Hrun.
  destruct (try_candidates_trace P key (generate_password_hash H (password b) key)
              b1 b' ok) as (n & Hn & Htrace & Hall);
    [|exact Hrun|].
  - intros Hnil. pose proof (generate_password_hash_length H (password b) key) as Hlen.
    rewrite Hnil in Hlen. destruct (truthy key); discriminate.
  - exists n. cbn [fst snd]. split; [exact Hn|]. split; [|exact Hall].
    rewrite Htrace, Hlog, Hsent. rewrite <- app_assoc. reflexivity.
Qed.

End PacingFacts.
Section SchedulerOwnership.

Import Plugin.

(** X23. The user's cancel command reaches the user's own jobs only.
    Whatever the arguments, it leaves the index, the queue and the workers
    as they are and changes no task object of another user; given the
    identifier of somebody else's job it answers exactly as for an
    identifier that does not exist. *)
Theorem cancel_touches_only_own_jobs
    (s : plugin) (who : string) (args_ : list string) (ref : nat) (t : QuizTask) :
  heap s !! ref = Some t -> qq_id t <> who ->
  heap (_handle_cancel s who args_).1 !! ref = Some t
  /\ _tasks (_handle_cancel s who args_).1 = _tasks s
  /\ _queue (_handle_cancel s who args_).1 = _queue s
  /\ workers (_handle_cancel s who args_).1 = workers s
  /\ length (heap (_handle_cancel s who args_).1) = length (heap s)
  /\ forall tid rest, args_ = tid :: rest -> _tasks s !! tid = Some ref ->
       _handle_cancel s who args_ = (s, "未找到你的任务。")
       /\ forall unknown, _tasks s !! unknown = None ->
            _handle_cancel s who (unknown :: rest) = (s, "未找到你的任务。").
Proof.
  intros Hl Hother.
  assert (Hframe : heap (_handle_cancel s who args_).1 !! ref = Some t
                   /\ _tasks (_handle_cancel s who args_).1 = _tasks s
                   /\ _queue (_handle_cancel s who args_).1 = _queue s
                   /\ workers (_handle_cancel s who args_).1 = workers s
                   /\ length (heap (_handle_cancel s who args_).1) = length (heap s)).
  { unfold _handle_cancel. destruct args_ as [|tid rest]; [auto|].
    destruct (lookup_task s tid) as [[r0 t0]|] eqn:Hfind; [|auto].
    destruct (negb (String.eqb (qq_id t0) who)) eqn:Hmine; [auto|].
    destruct (is_finished t0); [auto|].
    apply negb_false_iff, String.eqb_eq in Hmine.
    apply lookup_task_Some in Hfind.
    assert (Hne : r0 <> ref) by (intros ->; congruence).
    unfold request_cancel. destruct (bool_decide _); cbn [fst set_heap heap _tasks _queue workers];
      rewrite list_lookup_insert_ne by exact Hne; rewrite length_insert; auto. }
  destruct Hframe as (F1 & F2 & F3 & F4 & F5).
  repeat (split; [assumption|]).
  intros tid rest -> Hidx. split.
  - unfold _handle_cancel, lookup_task. rewrite Hidx, Hl.
    apply String.eqb_neq in Hother. rewrite Hother. reflexivity.
  - intros unknown Hnone. unfold _handle_cancel, lookup_task. rewrite Hnone. reflexivity.
Qed.

Lemma cancel_touches_only_own_jobs_witness :
  _handle_cancel queued_run "10002" ["a1b2c3d4"] = (queued_run, "未找到你的任务。").
Proof.
  destruct (heap queued_run !! 0%nat) as [t|] eqn:Hl; [|vm_compute in Hl; discriminate].
  refine (proj1 (proj2 (proj2 (proj2 (proj2 (proj2
            (cancel_touches_only_own_jobs queued_run "10002" ["a1b2c3d4"] 0%nat t Hl _)))))
            "a1b2c3d4" [] eq_refl _)).
  - vm_compute in Hl. inversion Hl. discriminate.
  - vm_compute. reflexivity.
Defined.

(** X24. Status, queue and workers agree. In every reachable state a task is
    queued exactly when it waits in the queue with its cancel flag down (a
    task canceled while waiting stays in the queue until a worker drops it);
    it is running or being canceled exactly when it is in the slot of a
    worker, which is either a live worker that is on it or a worker whose
    loop ended just after it had started the job; in the second case the
    job stays in that slot, running or being canceled, and never gets a
    finish time. No task is both in the queue and in a slot, none is in
    the queue twice, and none is in two slots. *)
Theorem status_matches_queue_and_workers (s : plugin) (ref : nat) (t : QuizTask) :
  reachable s -> heap s !! ref = Some t ->
  (status t = queued <-> ref ∈ _queue s /\ cancel_event t = false)
  /\ (ref ∈ _queue s ->
      status t = queued \/ (status t = canceled /\ cancel_event t = true))
  /\ (status t = running \/ status t = canceling <-> held s ref)
  /\ (held s ref
      <-> (exists idx, workers s !! idx = Some (Some ref) /\ idx ∉ ended s)
          \/ (exists idx, workers s !! idx = Some (Some ref) /\ idx ∈ ended s))
  /\ (forall idx more,
        workers s !! idx = Some (Some ref) -> idx ∈ ended s ->
        held (run s more) ref
        /\ exists t', heap (run s more) !! ref = Some t'
                      /\ (status t' = running \/ status t' = canceling)
                      /\ finished_at t' = None)
  /\ ~ (ref ∈ _queue s /\ held s ref)
  /\ NoDup (_queue s)
  /\ (forall i j, workers s !! i = Some (Some ref) -> workers s !! j = Some (Some ref) ->
        i = j).
Proof.
  intros Hreach Hl. pose proof (reachable_ok s Hreach) as Hok.
  destruct (inv_tasks s Hok ref t Hl) as [Hqd Hiq Hbusy Hheld Hcr Hst Hfi Hte Hun].
  split; [split; [exact Hqd|]|].
  { intros [Hin Hflag]. destruct (Hiq Hin) as [[Hs|[_ Hc]] _]; [exact Hs|congruence]. }
  split; [intros Hin; apply (Hiq Hin)|].
  split; [split; [exact Hbusy|exact Hheld]|].
  split.
  { split.
    - intros [idx Hw]. destruct (decide (idx ∈ ended s)) as [Hin|Hout];
        [right|left]; exists idx; auto.
    - intros [(idx & Hw & _)|(idx & Hw & _)]; exists idx; exact Hw. }
  split.
  { intros idx more Hw Hin.
    destruct (orphan_stays s more idx ref Hreach Hin Hw) as [Hw' Hstays].
    split; [exists idx; exact Hw'|exact Hstays]. }
  split.
  { intros [Hin Hh]. destruct (Hiq Hin) as [[Hs|[Hs _]] _];
      destruct (Hheld Hh) as [Hr|Hr]; congruence. }
  split; [apply (inv_nodup s Hok)|].
  intros i j. apply (inv_worker_inj s Hok).
Qed.

Lemma status_matches_queue_and_workers_witness :
  held (run queued_run [WorkerTake 0; WorkerEnds 0]) 0%nat
  /\ held (run (run queued_run [WorkerTake 0; WorkerEnds 0])
             [Tick 10; WorkerFinish 0 None (Ret (mkResult true None None false))]) 0%nat.
Proof.
  assert (Hreach : reachable (run queued_run [WorkerTake 0; WorkerEnds 0])).
  { apply reachable_run. exists default_config, 0, [Start sample_start]. reflexivity. }
  destruct (heap (run queued_run [WorkerTake 0; WorkerEnds 0]) !! 0%nat) as [t|] eqn:Hl;
    [|vm_compute in Hl; discriminate].
  destruct (status_matches_queue_and_workers _ 0%nat t Hreach Hl)
    as (_ & _ & Hheld & _ & Horphan & _).
  split.
  - apply (proj1 Hheld). left. vm_compute in Hl. inversion Hl. reflexivity.
  - apply (Horphan 0%nat). + vm_compute. reflexivity. + vm_compute. left.
Defined.

End SchedulerOwnership.
Section SubmissionFacts.

Import QuizBot.

Lemma dict_set_elem (d : list (string * string)) (k v : string) (entry : string * string) :
  entry ∈ dict_set d k v -> entry = (k, v) \/ entry ∈ d.
Proof.
  induction d as [|[k0 v0] rest IH]; cbn [dict_set].
  - intros Hin. apply list_elem_of_singleton in Hin. auto.
  - destruct (String.eqb k0 k).
    + intros Hin. apply elem_of_cons in Hin as [->|Hin]; [auto|]. right. right. exact Hin.
    + intros Hin. apply elem_of_cons in Hin as [->|Hin]; [right; left|].
      destruct (IH Hin) as [->|Hrest]; [auto|]. right. right. exact Hrest.
Qed.

Lemma dict_set_keys (d : list (string * string)) (k v : string) :
  NoDup d.*1 -> NoDup (dict_set d k v).*1.
Proof.
  induction d as [|[k0 v0] rest IH]; cbn [dict_set]; intros Hnd.
  - cbn. apply NoDup_singleton.
  - destruct (String.eqb k0 k) eqn:Hk.
    + apply String.eqb_eq in Hk. subst k0. exact Hnd.
    + apply String.eqb_neq in Hk. cbn [fmap list_fmap fst] in *.
      apply NoDup_cons in Hnd as [Hfresh Hnd]. apply NoDup_cons. split; [|apply IH, Hnd].
      intros Hin. apply list_elem_of_fmap in Hin as ([k1 v1] & Heq & Hin). cbn in Heq. subst k1.
      destruct (dict_set_elem rest k v _ Hin) as [Hnew|Hold].
      * inversion Hnew. congruence.
      * apply Hfresh. apply list_elem_of_fmap. exists (k0, v1). auto.
Qed.

Lemma answer_one_entries (P : platform) (questions : list question_ul) (st : answering)
    (q_ul : question_ul) :
  q_ul ∈ questions -> entries_ok questions (answer_data st) ->
  entries_ok questions (answer_data (answer_one P st q_ul)).
Proof.
  intros Hq [Hnd Hall]. unfold answer_one.
  destruct (q_title q_ul) as [text|]; [|split; assumption].
  destruct (find_answer P (a_bot st) text) as [b1 answer].
  destruct (answer_truthy answer) eqn:Hans; [|split; assumption].
  destruct (q_input_name q_ul) as [name|] eqn:Hname; [|split; assumption].
  destruct (negb (String.eqb name "")) eqn:Hnonempty; [|split; assumption].
  cbn [answer_data]. split; [apply dict_set_keys, Hnd|].
  intros k v Hin. destruct (dict_set_elem _ _ _ _ Hin) as [Heq|Hold]; [|apply Hall, Hold].
  inversion Heq; subst. split.
  - apply negb_true_iff, String.eqb_neq in Hnonempty. exact Hnonempty.
  - split.
    + destruct answer as [a|]; [|discriminate]. cbn in *.
      apply negb_true_iff, String.eqb_neq in Hans. exact Hans.
    + exists q_ul. auto.
Qed.

Lemma fold_answer_one_entries (P : platform) (questions rest : list question_ul) :
  forall st : answering,
    (forall q_ul, q_ul ∈ rest -> q_ul ∈ questions) ->
    entries_ok questions (answer_data st) ->
    entries_ok questions (answer_data (fold_left (answer_one P) rest st)).
Proof.
  induction rest as [|q_ul more IH]; intros st Hsub Hok; cbn [fold_left]; [exact Hok|].
  apply IH.
  - intros q Hq. apply Hsub. right. exact Hq.
  - apply answer_one_entries; [apply Hsub; left|exact Hok].
Qed.

Lemma answer_one_log (P : platform) (st : answering) (q_ul : question_ul) (c : call) :
  c ∈ log (a_bot (answer_one P st q_ul)) -> c ∈ log (a_bot st) \/ is_oracle_post c = true.
Proof.
  unfold answer_one. destruct (q_title q_ul) as [text|]; [|auto].
  pose proof (find_answer_log P (a_bot st) text) as Hlog.
  destruct (find_answer P (a_bot st) text) as [b1 answer]. cbn [fst] in Hlog.
  assert (Hb1 : c ∈ log b1 -> c ∈ log (a_bot st) \/ is_oracle_post c = true).
  { destruct Hlog as [->| ->]; [auto|]. intros Hin.
    apply elem_of_app in Hin as [Hin|Hin]; [auto|].
    apply list_elem_of_singleton in Hin. subst c. auto. }
  destruct (answer_truthy answer); [|exact Hb1].
  destruct (q_input_name q_ul) as [name|]; [|exact Hb1].
  destruct (negb _); [|exact Hb1]. destruct (is_answer_in_local_bank b1 text); exact Hb1.
Qed.

Lemma fold_answer_one_log (P : platform) (rest : list question_ul) (c : call) :
  forall st : answering,
    c ∈ log (a_bot (fold_left (answer_one P) rest st)) ->
    c ∈ log (a_bot st) \/ is_oracle_post c = true.
Proof.
  induction rest as [|q_ul more IH]; intros st; cbn [fold_left]; [auto|].
  intros Hin. destruct (IH _ Hin) as [Hprev|Horacle]; [|auto].
  apply (answer_one_log P st q_ul c Hprev).
Qed.

(** X25. What is handed in. Every submission a chapter run adds to the log
    goes to the form action of the exam page, is made with submission
    switched on, and carries at least one answer; its form data names no
    input twice, has no empty name and no empty answer, and every name in it
    is the input name of a question on that page. *)
Theorem submitted_answers_are_well_formed
    (P : platform) (b : bot) (exam : Z) (submit strict : bool) (rate : Q)
    (url : string) (data : list (string * string)) :
  PostSubmit url data ∈ log (auto_answer_with_report P b exam submit strict rate).1 ->
  PostSubmit url data ∉ log b ->
  submit = true /\ data <> []
  /\ exists page, exam_page_of P (log b ++ [GetExam exam]) = inr page
       /\ ep_form_action page = Some url
       /\ entries_ok (ep_questions page) data.
Proof.
  intros Hin Hnew. unfold auto_answer_with_report in Hin.
  assert (Hb1 : PostSubmit url data ∉ log (emit b (GetExam exam))).
  { cbn [emit with_log log]. intros Hc. apply elem_of_app in Hc as [Hc|Hc]; [auto|].
    apply list_elem_of_singleton in Hc. discriminate. }
  change (log (emit b (GetExam exam))) with (log b ++ [GetExam exam])%list in Hin at 1.
  set (b1 := emit b (GetExam exam)) in *.
  destruct (exam_page_of P (log b ++ [GetExam exam])) as [e|page] eqn:Hpage;
    [contradiction|].
  destruct (negb (ep_status page =? 200)); [contradiction|].
  destruct (ep_form_action page) as [action|] eqn:Haction; [|contradiction].
  destruct (ep_questions page) as [|q_ul rest] eqn:Hqs; [contradiction|].
  rewrite <- Hqs in *.
  assert (Hloop : PostSubmit url data ∉ log (a_bot (answer_questions P b1 (ep_questions page)))).
  { intros Hc. unfold answer_questions in Hc.
    destruct (fold_answer_one_log P _ _ _ Hc) as [Hprev|Horacle]; [|discriminate].
    exact (Hb1 Hprev). }
  assert (Hentries : entries_ok (ep_questions page)
                       (answer_data (answer_questions P b1 (ep_questions page)))).
  { unfold answer_questions. apply fold_answer_one_entries; [auto|].
    split; [constructor|]. intros k v Hc. apply elem_of_nil in Hc. contradiction. }
  set (st := answer_questions P b1 (ep_questions page)) in *.
  destruct (a_total st =? 0)%nat; [contradiction|].
  destruct (strict && _); [contradiction|].
  destruct (rate_below _ _ _); [contradiction|].
  destruct submit; cbn [negb] in Hin; [|contradiction].
  destruct (answer_data st) as [|entry entries] eqn:Hdata; [contradiction|].
  assert (Hlast : PostSubmit url data
                  ∈ log (emit (a_bot st) (PostSubmit action (entry :: entries)))).
  { destruct (submit_post P _) as [e|code]; [exact Hin|].
    destruct (code =? 200); exact Hin. }
  cbn [emit with_log log] in Hlast. apply elem_of_app in Hlast as [Hc|Hc]; [contradiction|].
  apply list_elem_of_singleton in Hc. inversion Hc; subst.
  split; [reflexivity|]. split; [discriminate|].
  exists page. auto.
Qed.

Lemma submitted_answers_are_well_formed_witness :
  entries_ok (ep_questions five_question_page)
    [("answer[1]", "A"); ("answer[2]", "B"); ("answer[3]", "C"); ("answer[4]", "D")].
Proof.
  destruct (submitted_answers_are_well_formed five_question_platform banked_bot 71
              true false (0 # 1) "/index/exam/submit.html"
              [("answer[1]", "A"); ("answer[2]", "B"); ("answer[3]", "C"); ("answer[4]", "D")])
    as (_ & _ & page & Hpage & _ & Hok).
  - apply list_elem_of_In. vm_compute. tauto.
  - intros Hin. apply list_elem_of_In in Hin. vm_compute in Hin. exact Hin.
  - vm_compute in Hpage. inversion Hpage; subst page. exact Hok.
Defined.

End SubmissionFacts.
Section ParsingFacts.

Import Plugin.

Lemma is_digit_plain (c : Ascii.ascii) :
  is_digit c = true ->
  is_space c = false /\ Ascii.eqb c "-" = false /\ Ascii.eqb c "," = false
  /\ c <> "+"%char /\ c <> "-"%char.
Proof.
  destruct c as [[] [] [] [] [] [] [] []]; vm_compute; intros Hd;
    try discriminate Hd; repeat split; discriminate.
Qed.

Lemma rstrip_plain (s : string) :
  forallb (fun c => negb (is_space c)) (String.list_ascii_of_string s) = true ->
  rstrip s = s.
Proof.
  induction s as [|c rest IH]; cbn [String.list_ascii_of_string forallb rstrip];
    [reflexivity|].
  intros Hall. apply andb_true_iff in Hall as [Hc Hrest]. rewrite (IH Hrest).
  apply negb_true_iff in Hc. rewrite Hc. destruct rest; reflexivity.
Qed.

Lemma digits_plain (s : string) :
  forallb is_digit (String.list_ascii_of_string s) = true ->
  forallb (fun c => negb (is_space c)) (String.list_ascii_of_string s) = true.
Proof.
  induction s as [|c rest IH]; cbn [String.list_ascii_of_string forallb]; [reflexivity|].
  intros Hall. apply andb_true_iff in Hall as [Hc Hrest].
  destruct (is_digit_plain c Hc) as (-> & _). cbn [negb andb]. apply IH, Hrest.
Qed.

Lemma isdigit_chars (s : string) :
  isdigit s = true -> forallb is_digit (String.list_ascii_of_string s) = true.
Proof. unfold isdigit. destruct s; [discriminate|auto]. Qed.

Lemma strip_digits (s : string) : isdigit s = true -> strip s = s.
Proof.
  intros Hd. pose proof (isdigit_chars s Hd) as Hall. unfold strip.
  destruct s as [|c rest]; [reflexivity|].
  cbn [String.list_ascii_of_string forallb] in Hall.
  pose proof Hall as Hall'. apply andb_true_iff in Hall' as [Hc _].
  destruct (is_digit_plain c Hc) as (Hsp & _).
  cbn [lstrip]. rewrite Hsp. apply rstrip_plain.
  apply (digits_plain (String c rest)). exact Hall.
Qed.

Lemma is_digit_int (c : Ascii.ascii) :
  is_digit c = true ->
  int_space c = false /\ Ascii.eqb c "_" = false.
Proof.
  destruct c as [[] [] [] [] [] [] [] []]; vm_compute; intros Hd;
    try discriminate Hd; split; reflexivity.
Qed.

Lemma int_rstrip_plain (s : string) :
  forallb (fun c => negb (int_space c)) (String.list_ascii_of_string s) = true ->
  int_rstrip s = s.
Proof.
  induction s as [|c rest IH]; cbn [String.list_ascii_of_string forallb int_rstrip];
    [reflexivity|].
  intros Hall. apply andb_true_iff in Hall as [Hc Hrest]. rewrite (IH Hrest).
  apply negb_true_iff in Hc. rewrite Hc. destruct rest; reflexivity.
Qed.

Lemma digits_int_plain (s : string) :
  forallb is_digit (String.list_ascii_of_string s) = true ->
  forallb (fun c => negb (int_space c)) (String.list_ascii_of_string s) = true.
Proof.
  induction s as [|c rest IH]; cbn [String.list_ascii_of_string forallb]; [reflexivity|].
  intros Hall. apply andb_true_iff in Hall as [Hc Hrest].
  destruct (is_digit_int c Hc) as (-> & _). cbn [negb andb]. apply IH, Hrest.
Qed.

Lemma int_digits_cons (c c' : Ascii.ascii) (rest : string) :
  Ascii.eqb c' "_" = false ->
  int_digits (String c (String c' rest))
  = if is_digit c then String c <$> int_digits (String c' rest) else None.
Proof.
  intros Hc'. destruct c' as [[] [] [] [] [] [] [] []]; try discriminate Hc'; reflexivity.
Qed.

Lemma int_digits_all (rest : string) :
  forall c : Ascii.ascii,
    is_digit c = true ->
    forallb is_digit (String.list_ascii_of_string rest) = true ->
    int_digits (String c rest) = Some (String c rest).
Proof.
  induction rest as [|c' rest' IH]; intros c Hc Hall.
  - cbn [int_digits]. rewrite Hc. reflexivity.
  - cbn [String.list_ascii_of_string forallb] in Hall.
    apply andb_true_iff in Hall as [Hc' Hrest].
    rewrite int_digits_cons by (apply is_digit_int, Hc').
    rewrite Hc, (IH c' Hc' Hrest). reflexivity.
Qed.

Lemma py_int_digits (s : string) : isdigit s = true -> py_int s = Ret (digits_value s).
Proof.
  intros Hd. pose proof (isdigit_chars s Hd) as Hall.
  destruct s as [|c rest]; [discriminate|].
  pose proof Hall as Hchars. cbn [String.list_ascii_of_string forallb] in Hchars.
  apply andb_true_iff in Hchars as [Hc Hrest].
  destruct (is_digit_int c Hc) as (Hsp & _).
  destruct (is_digit_plain c Hc) as (_ & _ & _ & Hplus & Hminus).
  unfold py_int. cbn [int_lstrip]. rewrite Hsp.
  rewrite (int_rstrip_plain (String c rest)) by (apply digits_int_plain, Hall).
  pose proof (int_digits_all rest c Hc Hrest) as Hdigits.
  destruct c as [[] [] [] [] [] [] [] []]; try rewrite Hdigits; try reflexivity;
    first [exfalso; apply Hplus; reflexivity | exfalso; apply Hminus; reflexivity].
Qed.






Lemma insert_sorted_mem (n x : Z) (l : list Z) :
  x = n \/ x ∈ l -> x ∈ insert_sorted n l.
Proof.
  induction l as [|m rest IH]; cbn [insert_sorted].
  - intros [->|Hin]; [left|apply elem_of_nil in Hin; contradiction].
  - destruct (n <? m).
    + intros [->|Hin]; [left|right; exact Hin].
    + destruct (n =? m) eqn:Heq.
      * apply Z.eqb_eq in Heq. subst m. intros [->|Hin]; [left|exact Hin].
      * intros [->|Hin]; [right; apply IH; auto|].
        apply elem_of_cons in Hin as [->|Hin]; [left|right; apply IH; auto].
Qed.

(** X27. The numbers of an explicit chapter list, for a text of ASCII
    characters that is no longer than the 4300 digits every interpreter
    converts. The list read from the text holds exactly the values of the
    comma-separated items that consist of digits (white space around an
    item aside); the conversion of such an item does not fail, and
    everything else is passed over without an error. The numbers come out
    in strictly ascending order, so none is there twice, however the text
    orders or repeats them. (Outside ASCII the code differs: an item such
    as a superscript two passes [isdigit] and makes [int] raise.) *)
Theorem index_list_is_sorted_set (text : string) :
  is_ascii text = true ->
  (String.length text <= 4300)%nat ->
  StronglySorted Z.lt (_parse_index_list text)
  /\ NoDup (_parse_index_list text)
  /\ (forall x, x ∈ _parse_index_list text
        <-> exists item, item ∈ split_on "," text
                         /\ isdigit (strip item) = true
                         /\ x = digits_value (strip item))
  /\ (forall item, item ∈ split_on "," text ->
        isdigit (strip item) = true ->
        py_int (strip item) = Ret (digits_value (strip item))).
Proof.
  intros _ _.
  assert (Hmem : forall items acc x,
            x ∈ fold_left (fun result item =>
                             let item := strip item in
                             if isdigit item then insert_sorted (digits_value item) result
                             else result) items acc
            <-> x ∈ acc \/ exists item, item ∈ items /\ isdigit (strip item) = true
                                        /\ x = digits_value (strip item)).
  { induction items as [|item rest IH]; intros acc x; cbn [fold_left].
    - split; [auto|]. intros [Hin|(item & Hin & _)]; [exact Hin|].
      apply elem_of_nil in Hin. contradiction.
    - rewrite IH. destruct (isdigit (strip item)) eqn:Hd; split.
      + intros [Hin|(it & Hin & Hit & Hx)].
        * destruct (insert_sorted_elem _ _ _ Hin) as [->|Hacc]; [|auto].
          right. exists item. split; [left|auto].
        * right. exists it. split; [right; exact Hin|auto].
      + intros [Hin|(it & Hin & Hit & Hx)].
        * left. apply insert_sorted_mem. auto.
        * apply elem_of_cons in Hin as [->|Hin].
          -- left. apply insert_sorted_mem. auto.
          -- right. exists it. auto.
      + intros [Hin|(it & Hin & Hit & Hx)]; [auto|].
        right. exists it. split; [right; exact Hin|auto].
      + intros [Hin|(it & Hin & Hit & Hx)]; [auto|].
        apply elem_of_cons in Hin as [->|Hin]; [congruence|].
        right. exists it. auto. }
  pose proof (_parse_index_list_sorted text) as Hsorted.
  split; [exact Hsorted|]. split; [|split].
  - clear Hmem. induction Hsorted as [|m rest Hrest IH Hall]; constructor; [|exact IH].
    intros Hin. rewrite Forall_forall in Hall. specialize (Hall m Hin). lia.
  - intros x. unfold _parse_index_list. rewrite Hmem. split.
    + intros [Hin|Hex]; [apply elem_of_nil in Hin; contradiction|exact Hex].
    + auto.
  - intros item _ Hdigits. apply py_int_digits, Hdigits.
Qed.

Lemma index_list_is_sorted_set_witness :
  StronglySorted Z.lt (_parse_index_list "3, 1,x,3,,-2")
  /\ _parse_index_list "3, 1,x,3,,-2" = [1; 3].
Proof.
  split; [|reflexivity].
  apply (index_list_is_sorted_set "3, 1,x,3,,-2"); [reflexivity|cbn; lia].
Defined.

End ParsingFacts.

Section CourseResolutionFacts.

Import BindingStore Plugin.

Lemma _fetch_courses_sync_calls (H : hashlib) (P : platform) (user pass : string) :
  (_fetch_courses_sync H P user pass).1 <> [].
Proof.
  unfold _fetch_courses_sync.
  pose proof (check_login_status_log P (new_bot user pass)) as H1.
  destruct (AutoLogin.check_login_status P (new_bot user pass)) as [b1 logged_in].
  cbn [fst] in H1.
  assert (H2 : exists made, log (if logged_in then (b1, true)
                                 else AutoLogin.analyze_network_request H P b1).1
                            = (log b1 ++ made)%list).
  { destruct logged_in.
    - exists []. cbn [fst]. rewrite app_nil_r. reflexivity.
    - destruct (analyze_network_request_attempts H P b1) as (made & Hmade & _).
      exists made. exact Hmade. }
  destruct (if logged_in then (b1, true) else AutoLogin.analyze_network_request H P b1)
    as [b2 ok]. cbn [fst] in H2. destruct H2 as [made H2].
  destruct ok; cbn [negb].
  - pose proof (get_all_courses_log P b2) as H3.
    destruct (QuizBot.get_all_courses P b2) as [b3 courses]. cbn [fst] in *.
    rewrite H3. intros Hnil. apply app_eq_nil in Hnil as [_ Hnil]. discriminate.
  - cbn [fst]. rewrite H2, H1. cbn. discriminate.
Qed.

(** X28. How a course argument is resolved, for a token of ASCII
    characters that is no longer than the 4300 digits every interpreter
    converts. A course that comes out is always a course of the sender's
    cached list (then no call is made) or of the list just fetched from
    the platform; a token that is not made of digits is part of its name;
    a token of digits is its id, or else its position in the cached list,
    and that only when no cached course has the number as its id. So a
    number that is both the id of one course and the position of another
    means the first. The conversion of a token of digits does not fail,
    and resolution never raises before a call is made. (Outside ASCII the
    code differs: a superscript two passes [isdigit] and makes [int]
    raise, a full-width digit is read as a number.) *)
Theorem course_resolution_is_listed
    (H : hashlib) (P : platform) (cached : option (list course)) (token : string)
    (binding : credentials) :
  is_ascii token = true ->
  (String.length token <= 4300)%nat ->
  (isdigit token = true -> py_int token = Ret (digits_value token))
  /\ (forall l cid name,
     _resolve_course H P cached token binding = (l, Ret (cid, name)) ->
     ((exists courses c, cached = Some courses /\ c ∈ courses
                         /\ c_id c = cid /\ c_name c = name /\ l = [])
      \/ (exists courses c,
            _fetch_courses_sync H P (cred_username binding) (cred_password binding)
            = (l, Ret courses)
            /\ c ∈ courses /\ c_id c = cid /\ c_name c = name /\ l <> []))
     /\ (isdigit token = false -> contains token name = true)
     /\ (isdigit token = true ->
         cid = digits_value token
         \/ exists courses c,
              cached = Some courses
              /\ courses !! Z.to_nat (digits_value token - 1) = Some c
              /\ c_id c = cid /\ c_name c = name /\ 1 <= digits_value token
              /\ forall c', c' ∈ courses -> c_id c' <> digits_value token))
  /\ (forall courses c,
        cached = Some courses -> isdigit token = true ->
        List.find (fun c => c_id c =? digits_value token) courses = Some c ->
        _resolve_course H P cached token binding = ([], Ret (c_id c, c_name c)))
  /\ (forall e, _resolve_course H P cached token binding <> ([], Raise e)).
Proof.
  intros _ _. split; [apply py_int_digits|].
  pose proof (_fetch_courses_sync_calls H P (cred_username binding) (cred_password binding))
    as Hcalls.
  assert (Hfetch : forall (pick : list course -> option course) (f : course -> bool)
                          (missing : string) l cid name,
            (forall courses, pick courses = List.find f courses) ->
            match _fetch_courses_sync H P (cred_username binding) (cred_password binding) with
            | (l, Raise e) => (l, Raise e)
            | (l, Ret courses) =>
                match pick courses with
                | Some c => (l, Ret (c_id c, c_name c))
                | None => (l, Raise (ValueError missing))
                end
            end = (l, Ret (cid, name)) ->
            exists courses c,
              _fetch_courses_sync H P (cred_username binding) (cred_password binding)
              = (l, Ret courses)
              /\ c ∈ courses /\ c_id c = cid /\ c_name c = name /\ l <> [] /\ f c = true).
  { intros pick f missing l cid name Hpick.
    destruct (_fetch_courses_sync H P _ _) as [l0 [courses|e]]; [|discriminate].
    rewrite Hpick. destruct (List.find f courses) as [c|] eqn:Hfind; [|discriminate].
    intros Heq. inversion Heq; subst. apply List.find_some in Hfind as [Hin Hf].
    exists courses, c. cbn [fst] in Hcalls. repeat split; auto.
    apply list_elem_of_In. exact Hin. }
  assert (Hnoraise : forall (pick : list course -> option course) (missing : string) e,
            match _fetch_courses_sync H P (cred_username binding) (cred_password binding) with
            | (l, Raise e) => (l, Raise e)
            | (l, Ret courses) =>
                match pick courses with
                | Some c => (l, Ret (c_id c, c_name c))
                | None => (l, Raise (ValueError missing))
                end
            end <> ([], Raise e)).
  { intros pick missing e.
    destruct (_fetch_courses_sync H P _ _) as [l0 [courses|e0]]; cbn [fst] in Hcalls.
    - destruct (pick courses); intros Heq; inversion Heq; subst; contradiction.
    - intros Heq. inversion Heq; subst. contradiction. }
  unfold _resolve_course. split; [|split].
  - intros l cid name. destruct (isdigit token) eqn:Hdigit.
    + destruct cached as [courses|].
      * destruct (List.find _ courses) as [c|] eqn:Hfind.
        -- intros Heq. inversion Heq; subst. apply List.find_some in Hfind as [Hin Hid].
           apply Z.eqb_eq in Hid. split; [|split; [discriminate|auto]].
           left. exists courses, c. repeat split; auto. apply list_elem_of_In. exact Hin.
        -- destruct ((1 <=? digits_value token) && _) eqn:Hrange.
           ++ destruct (courses !! Z.to_nat (digits_value token - 1)) as [c|] eqn:Hpos;
                [|discriminate].
              intros Heq. inversion Heq; subst.
              apply andb_true_iff in Hrange as [Hlow _]. apply Z.leb_le in Hlow.
              split; [|split; [discriminate|]].
              ** left. exists courses, c. repeat split; auto.
                 eapply list_elem_of_lookup_2. exact Hpos.
              ** intros _. right. exists courses, c. repeat split; auto.
                 intros c' Hin Hid. apply list_elem_of_In in Hin.
                 apply (List.find_none _ _ Hfind) in Hin. apply Z.eqb_neq in Hin. contradiction.
           ++ intros Heq.
              destruct (Hfetch _ (fun c => c_id c =? digits_value token) _ l cid name
                          (fun _ => eq_refl) Heq)
                as (fetched & c & Hf & Hin & Hid & Hname & Hl & Hc).
              apply Z.eqb_eq in Hc. split; [|split; [discriminate|intros _; left; congruence]].
              right. exists fetched, c. auto.
      * intros Heq.
        destruct (Hfetch _ (fun c => c_id c =? digits_value token) _ l cid name
                    (fun _ => eq_refl) Heq)
          as (fetched & c & Hf & Hin & Hid & Hname & Hl & Hc).
        apply Z.eqb_eq in Hc. split; [|split; [discriminate|intros _; left; congruence]].
        right. exists fetched, c. auto.
    + destruct cached as [courses|].
      * destruct (List.find _ courses) as [c|] eqn:Hfind.
        -- intros Heq. inversion Heq; subst. apply List.find_some in Hfind as [Hin Hc].
           split; [|split; [auto|discriminate]].
           left. exists courses, c. repeat split; auto. apply list_elem_of_In. exact Hin.
        -- intros Heq.
           destruct (Hfetch _ (fun c => contains token (c_name c)) _ l cid name
                       (fun _ => eq_refl) Heq)
             as (fetched & c & Hf & Hin & Hid & Hname & Hl & Hc).
           split; [|split; [intros _; congruence|discriminate]].
           right. exists fetched, c. auto.
      * intros Heq.
        destruct (Hfetch _ (fun c => contains token (c_name c)) _ l cid name
                    (fun _ => eq_refl) Heq)
          as (fetched & c & Hf & Hin & Hid & Hname & Hl & Hc).
        split; [|split; [intros _; congruence|discriminate]].
        right. exists fetched, c. auto.
  - intros courses c -> Hdigit Hfind. rewrite Hdigit, Hfind. reflexivity.
  - intros e. destruct (isdigit token).
    + destruct cached as [courses|]; [|apply Hnoraise].
      destruct (List.find _ courses) as [c|] eqn:Hfind; [discriminate|].
      destruct ((1 <=? digits_value token) && _) eqn:Hrange; [|apply Hnoraise].
      apply andb_true_iff in Hrange as [Hlow Hhigh].
      apply Z.leb_le in Hlow. apply Z.leb_le in Hhigh.
      destruct (courses !! Z.to_nat (digits_value token - 1)) as [c|] eqn:Hpos; [discriminate|].
      apply lookup_ge_None in Hpos. lia.
    + destruct cached as [courses|]; [|apply Hnoraise].
      destruct (List.find _ courses) as [c|]; [discriminate|apply Hnoraise].
Qed.

Lemma course_resolution_is_listed_witness :
  _resolve_course tagging_hashlib five_question_platform (Some small_id_courses) "2"
    (mkCredentials "alice" "secret" "" "")
  = ([], Ret (2, "马克思主义基本原理")).
Proof.
  refine (proj1 (proj2 (proj2 (course_resolution_is_listed
                                 tagging_hashlib five_question_platform
                                 (Some small_id_courses) "2"
                                 (mkCredentials "alice" "secret" "" "") eq_refl _)))
                small_id_courses
                (mkCourse 2 "马克思主义基本原理" "/index/exam/lists/course_id/2")
                eq_refl eq_refl eq_refl).
  cbn. lia.
Defined.

End CourseResolutionFacts.

Section AccessFacts.

Import Plugin Access.

Lemma str_in_spec (x : string) (l : list string) : str_in x l = true <-> x ∈ l.
Proof.
  unfold str_in. rewrite existsb_exists. split.
  - intros (y & Hin & Heq). apply String.eqb_eq in Heq. subst y.
    apply list_elem_of_In. exact Hin.
  - intros Hin. exists x. split; [apply list_elem_of_In; exact Hin|apply String.eqb_refl].
Qed.

(** X29. Admin commands need an admin in a private chat. An admin command
    from anybody else, or sent in a group, is answered with a refusal and
    does nothing beyond the clean-up every command starts with; the only
    admin command that changes a task object is the cancel command of an
    admin in a private chat. Whatever the command does to the scheduler
    is a clean-up, possibly followed by an admin cancel. A sender is an
    admin exactly when the sender's id is listed in the configuration or
    in the context, or the sender's role is admin or owner; a chat is
    private exactly when its group id is [None], empty or ["0"]. *)
Theorem admin_commands_need_admin
    (cfg : access_config) (s : plugin) (ev : message_event) (args : list string) :
  (_is_private ev && _is_admin cfg ev = false ->
     (on_admin_command cfg s ev args).1 = _cleanup_tasks s
     /\ ((on_admin_command cfg s ev args).2 = PlainText "管理命令仅支持私信使用。"
         \/ (on_admin_command cfg s ev args).2 = PlainText "仅管理员可用该命令。"))
  /\ (heap (on_admin_command cfg s ev args).1 <> heap s ->
      _is_private ev = true /\ _is_admin cfg ev = true
      /\ exists rest, args = "取消" :: rest)
  /\ ((on_admin_command cfg s ev args).1 = run s [Cleanup]
      \/ exists rest, args = "取消" :: rest
                      /\ (on_admin_command cfg s ev args).1 = run s [Cleanup; AdminCancel rest])
  /\ (_is_admin cfg ev = true
      <-> (exists sid, ev_sender_id ev = Some sid
                       /\ ((sid <> "" /\ sid ∈ admin_ids cfg) \/ sid ∈ context_admins cfg))
          \/ ev_sender_role ev = Some "admin" \/ ev_sender_role ev = Some "owner")
  /\ (_is_private ev = true
      <-> ev_group_id ev = Some None \/ ev_group_id ev = Some (Some "")
          \/ ev_group_id ev = Some (Some "0")).
Proof.
  split; [|split; [|split; [|split]]].
  - unfold on_admin_command. intros Hno.
    destruct (_is_private ev); cbn [negb andb] in *; [|auto].
    rewrite Hno. cbn [negb]. auto.
  - unfold on_admin_command.
    destruct (_is_private ev); cbn [negb]; [|intros Hc; contradiction Hc; reflexivity].
    destruct (_is_admin cfg ev); cbn [negb]; [|intros Hc; contradiction Hc; reflexivity].
    destruct args as [|cmd rest]; [intros Hc; contradiction Hc; reflexivity|].
    destruct (str_in cmd ["帮助"; "help"; "?"]); [intros Hc; contradiction Hc; reflexivity|].
    destruct (str_in cmd ["状态"; "列表"]); [intros Hc; contradiction Hc; reflexivity|].
    destruct (String.eqb cmd "详情"); [intros Hc; contradiction Hc; reflexivity|].
    destruct (String.eqb cmd "取消") eqn:Hcancel.
    + apply String.eqb_eq in Hcancel. subst cmd. intros _. eauto.
    + destruct (String.eqb cmd "绑定"); intros Hc; contradiction Hc; reflexivity.
  - unfold on_admin_command.
    destruct (negb (_is_private ev)); [left; reflexivity|].
    destruct (negb (_is_admin cfg ev)); [left; reflexivity|].
    destruct args as [|cmd rest]; [left; reflexivity|].
    destruct (str_in cmd ["帮助"; "help"; "?"]); [left; reflexivity|].
    destruct (str_in cmd ["状态"; "列表"]); [left; reflexivity|].
    destruct (String.eqb cmd "详情"); [left; reflexivity|].
    destruct (String.eqb cmd "取消") eqn:Hcancel.
    + apply String.eqb_eq in Hcancel. subst cmd. right. exists rest. split; [reflexivity|].
      cbn [run fold_left exec]. destruct (_admin_cancel (_cleanup_tasks s) rest). reflexivity.
    + destruct (String.eqb cmd "绑定"); left; reflexivity.
  - unfold _is_admin. rewrite !orb_true_iff. split.
    + intros [[Hcfg|Hctx]|Hrole].
      * left. destruct (ev_sender_id ev) as [sid|]; [|discriminate].
        apply andb_true_iff in Hcfg as [Hne Hin].
        apply negb_true_iff, String.eqb_neq in Hne. apply str_in_spec in Hin.
        exists sid. auto.
      * left. destruct (ev_sender_id ev) as [sid|]; [|discriminate].
        apply str_in_spec in Hctx. exists sid. auto.
      * right. destruct (ev_sender_role ev) as [r|]; [|discriminate].
        apply str_in_spec in Hrole. apply elem_of_cons in Hrole as [->|Hrole]; [auto|].
        apply list_elem_of_singleton in Hrole. subst r. auto.
    + intros [(sid & -> & [[Hne Hin]|Hin])|[-> | ->]].
      * left. left. apply andb_true_iff. split.
        -- apply negb_true_iff, String.eqb_neq. exact Hne.
        -- apply str_in_spec. exact Hin.
      * left. right. apply str_in_spec. exact Hin.
      * right. reflexivity.
      * right. reflexivity.
  - unfold _is_private. destruct (ev_group_id ev) as [[g|]|].
    + rewrite str_in_spec. split.
      * intros Hin. apply elem_of_cons in Hin as [->|Hin]; [auto|].
        apply list_elem_of_singleton in Hin. subst g. auto.
      * intros [Hc|[Hc|Hc]]; inversion Hc; subst; [left|right; left].
    + split; auto.
    + split; [discriminate|]. intros [Hc|[Hc|Hc]]; discriminate.
Qed.

End AccessFacts.
